(** * Streamflow timelock SDK: amount conversion, error wrapping,
      stream queries, batch creation and unlock schedule.

    Shallow embedding of the TypeScript sources
      - [common/utils] ([getBN], [getNumberFromBN], [handleContractError]),
      - [stream/solana/StreamClient.ts] ([create], [createMultiple], [get]),
      - [stream/aptos/types.ts] and [stream/evm/types.ts] (the [Contract]
        and [EvmContract] constructors and their [unlocked] methods).

    JavaScript [number]s are IEEE-754 binary64 values.  A finite double is
    represented by the rational it denotes; every arithmetic operation
    rounds its exact result with [fl] (round to nearest, ties to even).
    [BigNumber] (bignumber.js) values are arbitrary-precision decimals,
    likewise represented by rationals; only [div] and negative powers
    round, to [DECIMAL_PLACES] digits with [ROUND_HALF_UP]. *)

From Stdlib Require Import ZArith QArith Qround Qabs Qpower Qreduction.
From Stdlib Require Import Lia Lqa List String Ascii Bool.
From Stdlib Require Strings.Byte.
From Stdlib Require DecimalString DecimalN DecimalPos.
From Stdlib Require Import Sorting.Sorted Sorting.Permutation.
Import ListNotations.

Local Open Scope Z_scope.

(* ================================================================== *)
(** ** Completions: a call either returns or throws *)
(* ================================================================== *)

Inductive completion (E A : Type) : Type :=
| Returned (a : A)
| Thrown (e : E).
Arguments Returned {E A} a.
Arguments Thrown {E A} e.

Definition bind {E A B} (c : completion E A) (k : A -> completion E B)
  : completion E B :=
  match c with
  | Returned a => k a
  | Thrown e => Thrown e
  end.

Notation "x <- c ;; k" := (bind c (fun x => k))
  (at level 61, c at next level, right associativity).

(* ================================================================== *)
(** ** JavaScript numbers *)
(* ================================================================== *)

Module JsNumber.

Local Open Scope Q_scope.

(** A double: a finite value (kept in lowest terms), an infinity or NaN.
    The two zeros are identified (no operation below divides by zero
    on the inputs considered). *)
Inductive number : Type :=
| Num (q : Q)
| Inf (negative : bool)
| NaN.

Definition num (q : Q) : number := Num (Qred q).

Definition pow2 (e : Z) : Q := (2 # 1) ^ e.
Definition pow10 (e : Z) : Q := (10 # 1) ^ e.

(** [ilog2 x] is floor(log2 x) for [x > 0]. *)
Definition ilog2 (x : Q) : Z :=
  let r := Qred x in
  let t := (Z.log2 (Qnum r) - Z.log2 (Zpos (Qden r)))%Z in
  if Qle_bool (pow2 t) r then t else (t - 1)%Z.

(** Nearest integer, ties to the even neighbour. *)
Definition round_half_even (y : Q) : Z :=
  let f := Qfloor y in
  match Qcompare (y - inject_Z f) (1 # 2) with
  | Lt => f
  | Gt => (f + 1)%Z
  | Eq => if Z.even f then f else (f + 1)%Z
  end.

(** binary64: 53 bits of precision, least exponent of an ulp -1074,
    overflow from 2^1024. *)
Definition fl_abs (a : Q) : Q :=
  let e := Z.max (ilog2 a - 52) (-1074) in
  inject_Z (round_half_even (a / pow2 e)) * pow2 e.

Definition fl (x : Q) : number :=
  match Qcompare x 0 with
  | Eq => num 0
  | Gt =>
      let y := fl_abs x in
      if Qle_bool (pow2 1024) y then Inf false else num y
  | Lt =>
      let y := fl_abs (- x) in
      if Qle_bool (pow2 1024) y then Inf true else num (- y)
  end.

(** [Math.trunc]: the integer part, rounding toward zero; exact. *)
Definition trunc_Q (q : Q) : Z :=
  if Qle_bool 0 q then Qfloor q else Qceiling q.

Definition trunc (x : number) : number :=
  match x with
  | Num q => num (inject_Z (trunc_Q q))
  | other => other
  end.

(** [a - b] *)
Definition sub (a b : number) : number :=
  match a, b with
  | NaN, _ | _, NaN => NaN
  | Inf s, Inf s' => if Bool.eqb s s' then NaN else Inf s
  | Inf s, Num _ => Inf s
  | Num _, Inf s => Inf (negb s)
  | Num x, Num y => fl (x - y)
  end.

Definition negative_Q (q : Q) : bool := negb (Qle_bool 0 q).

(** [a * b] *)
Definition mul (a b : number) : number :=
  match a, b with
  | NaN, _ | _, NaN => NaN
  | Inf s, Inf s' => Inf (xorb s s')
  | Inf s, Num y | Num y, Inf s =>
      if Qeq_bool y 0 then NaN else Inf (xorb s (negative_Q y))
  | Num x, Num y => fl (x * y)
  end.

(** [a / b]; a zero divisor counts as +0. *)
Definition div (a b : number) : number :=
  match a, b with
  | NaN, _ | _, NaN => NaN
  | Inf _, Inf _ => NaN
  | Inf s, Num y => Inf (xorb s (negative_Q y))
  | Num _, Inf _ => num 0
  | Num x, Num y =>
      if Qeq_bool y 0
      then (if Qeq_bool x 0 then NaN else Inf (negative_Q x))
      else fl (x / y)
  end.

(** [10 ** d] for an integer exponent [d]: the correctly rounded power. *)
Definition pow10_number (d : Z) : number := fl (pow10 d).

(** [2 ** 53 - 1] *)
Definition MAX_SAFE_INTEGER : number := sub (fl (pow2 53)) (num 1).

(** *** Number::toString

    [String(x)] prints the shortest decimal [s * 10^(n-k)] (least number
    [k] of significant digits) that reads back as [x]; of several with
    [k] digits the one closest to [x], ties to the even [s]. *)

(** floor(log10 x) for [x > 0], from a binary estimate corrected by
    comparison. *)
Definition ilog10 (x : Q) : Z :=
  let e := (ilog2 x * 1233 / 4096 + 1)%Z in
  if Qle_bool (pow10 e) x then e
  else if Qle_bool (pow10 (e - 1)) x then (e - 1)%Z
  else (e - 2)%Z.

Definition round_trips (x c : Q) : bool :=
  match fl c with
  | Num y => Qeq_bool y x
  | _ => false
  end.

Definition closest (x lo hi : Q) (lo_even : bool) : Q :=
  match Qcompare (x - lo) (hi - x) with
  | Lt => lo
  | Gt => hi
  | Eq => if lo_even then lo else hi
  end.

Definition shortest_at (x : Q) (n k : Z) : option Q :=
  let scale := pow10 (n - k) in
  let s := Qfloor (x / scale) in
  let lo := inject_Z s * scale in
  let hi := inject_Z (s + 1) * scale in
  match round_trips x lo, round_trips x hi with
  | true, true => Some (closest x lo hi (Z.even s))
  | true, false => Some lo
  | false, true => Some hi
  | false, false => None
  end.

Fixpoint shortest_from (digits : nat) (x : Q) (n k : Z) : Q :=
  match digits with
  | O => x
  | S more =>
      match shortest_at x n k with
      | Some c => c
      | None => shortest_from more x n (k + 1)
      end
  end.

(** The decimal printed for a finite double [x]; 17 digits always
    suffice for a binary64 value. *)
Definition to_decimal (x : Q) : Q :=
  match Qcompare x 0 with
  | Eq => 0
  | Gt => shortest_from 17 x (ilog10 x + 1) 1
  | Lt => - shortest_from 17 (- x) (ilog10 (- x) + 1) 1
  end.

End JsNumber.

(* ================================================================== *)
(** ** bignumber.js *)
(* ================================================================== *)

Module BigNumber.

Import JsNumber.
Local Open Scope Q_scope.

(** A BigNumber: a finite decimal (kept in lowest terms), an infinity or
    NaN.  The exponent range of the library is not modelled: finite
    values are unbounded. *)
Inductive BigNumber : Type :=
| Big (q : Q)
| BigInf (negative : bool)
| BigNaN.

Definition big (q : Q) : BigNumber := Big (Qred q).

(** The library's default configuration. *)
Definition DECIMAL_PLACES : Z := 20.

(** [ROUND_HALF_UP] at [DECIMAL_PLACES]: to the nearest multiple of
    10^-20, a tie away from zero. *)
Definition round_half_up (y : Q) : Z :=
  if Qle_bool 0 y then Qfloor (y + (1 # 2))
  else (- Qfloor (- y + (1 # 2)))%Z.

Definition round_dp (q : Q) : Q :=
  inject_Z (round_half_up (q * pow10 DECIMAL_PLACES)) / pow10 DECIMAL_PLACES.

(** [BigNumber(v)] for a number [v]: an int32 is taken as it is, any
    other finite value through its decimal string. *)
Definition is_int32 (q : Q) : bool :=
  Qeq_bool (inject_Z (Qfloor q)) q
  && Qle_bool (- inject_Z (2 ^ 31)) q && Qle_bool q (inject_Z (2 ^ 31 - 1)).

Definition of_number (v : number) : BigNumber :=
  match v with
  | NaN => BigNaN
  | Inf s => BigInf s
  | Num q => if is_int32 q then big q else big (to_decimal q)
  end.

Definition is_zero (q : Q) : bool := Qeq_bool q 0.

(** [x.plus(y)] *)
Definition plus (x y : BigNumber) : BigNumber :=
  match x, y with
  | BigNaN, _ | _, BigNaN => BigNaN
  | BigInf s, BigInf s' => if Bool.eqb s s' then BigInf s else BigNaN
  | BigInf s, Big _ | Big _, BigInf s => BigInf s
  | Big a, Big b => big (a + b)
  end.

(** [x.times(y)] *)
Definition times (x y : BigNumber) : BigNumber :=
  match x, y with
  | BigNaN, _ | _, BigNaN => BigNaN
  | BigInf s, BigInf s' => BigInf (xorb s s')
  | BigInf s, Big b | Big b, BigInf s =>
      if is_zero b then BigNaN else BigInf (xorb s (negative_Q b))
  | Big a, Big b => big (a * b)
  end.

(** [x.div(y)]: the quotient rounded to [DECIMAL_PLACES]. *)
Definition div (x y : BigNumber) : BigNumber :=
  match x, y with
  | BigNaN, _ | _, BigNaN => BigNaN
  | BigInf _, BigInf _ => BigNaN
  | BigInf s, Big b => BigInf (xorb s (negative_Q b))
  | Big _, BigInf _ => big 0
  | Big a, Big b =>
      if is_zero b
      then (if is_zero a then BigNaN else BigInf (negative_Q a))
      else big (round_dp (a / b))
  end.

Definition is_integer (q : Q) : bool := Qeq_bool (inject_Z (Qfloor q)) q.

(** [BigNumber(10).pow(n)].  A finite exponent that is not an integer
    throws; a positive integer power is exact, a negative one is the
    reciprocal rounded to [DECIMAL_PLACES]. *)
Definition ten_pow (n : BigNumber) : completion string BigNumber :=
  match n with
  | BigNaN => Returned BigNaN
  | BigInf false => Returned (BigInf false)
  | BigInf true => Returned (big 0)
  | Big e =>
      if is_integer e then
        match Qfloor e with
        | Zneg p => Returned (big (round_dp (1 / pow10 (Zpos p))))
        | k => Returned (big (pow10 k))
        end
      else Thrown "[BigNumber Error] Exponent not an integer"%string
  end.

(** [x.gt(y)] *)
Definition gt (x y : BigNumber) : bool :=
  match x, y with
  | BigNaN, _ | _, BigNaN => false
  | BigInf s, BigInf s' => negb s && s'
  | BigInf s, Big _ => negb s
  | Big _, BigInf s => s
  | Big a, Big b => negb (Qle_bool a b)
  end.

(** [x.toNumber()]: the double nearest to the decimal. *)
Definition toNumber (x : BigNumber) : number :=
  match x with
  | BigNaN => NaN
  | BigInf s => Inf s
  | Big q => fl q
  end.

(** [x.minus(y)] *)
Definition minus (x y : BigNumber) : BigNumber :=
  match x, y with
  | BigNaN, _ | _, BigNaN => BigNaN
  | BigInf s, BigInf s' => if Bool.eqb s s' then BigNaN else BigInf s
  | BigInf s, Big _ => BigInf s
  | Big _, BigInf s => BigInf (negb s)
  | Big a, Big b => big (a - b)
  end.

End BigNumber.

(* ================================================================== *)
(** ** Thrown values and promises *)
(* ================================================================== *)

Module Js.

(** Instances of [Error].  [ContractError] (declared in [./types.js])
    extends [Error]: it wraps the error it was built from and carries
    the optional contract error code. *)
Inductive Error : Type :=
| PlainError (message : string)
| ContractError (error : Error) (contractErrorCode : option string).

(** Anything a JavaScript program can throw: an [Error] instance, a
    plain object (its fields by name) or some other value. *)
Inductive thrown : Type :=
| ErrorValue (e : Error)
| ObjectValue (fields : list (string * string))
| OtherValue (v : string).

(** The outcome of an awaited promise. *)
Inductive settled (A : Type) : Type :=
| Fulfilled (value : A)
| Rejected (reason : thrown).
Arguments Fulfilled {A} value.
Arguments Rejected {A} reason.

(** [err instanceof Error] *)
Definition instanceof_Error (t : thrown) : option Error :=
  match t with
  | ErrorValue e => Some e
  | ObjectValue _ | OtherValue _ => None
  end.

Fixpoint message (e : Error) : string :=
  match e with
  | PlainError m => m
  | ContractError e' _ => message e'
  end.

End Js.

(* ================================================================== *)
(** ** common/utils: amount conversion and error wrapping *)
(* ================================================================== *)

Module Utils.

Import JsNumber BigNumber.
Local Open Scope Q_scope.

Definition _1e9 : number := num (inject_Z 1000000000).
Definition _10 : number := num (inject_Z 10).

(** [getBN(value, decimals)] *)
Definition getBN (value decimals : number) : completion string BigNumber :=
  let decimalPart := JsNumber.sub value (trunc value) in
  let integerPart := of_number (trunc value) in
  let decimalE := of_number (JsNumber.mul decimalPart _1e9) in
  let sum := plus (times integerPart (of_number _1e9)) decimalE in
  p <- ten_pow (of_number decimals) ;;
  let resultE := times sum p in
  Returned (BigNumber.div resultE (of_number _1e9)).

(** [getNumberFromBN(value, decimals)], for an integer [decimals]. *)
Definition getNumberFromBN (value : BigNumber) (decimals : Z) : number :=
  if gt value (of_number MAX_SAFE_INTEGER)
  then toNumber (BigNumber.div value (of_number (pow10_number decimals)))
  else JsNumber.div (toNumber value) (pow10_number decimals).

(** [handleContractError(func, callback?)].  The callback is user code:
    it returns a code ([null] is [None]) or throws itself. *)
Definition handleContractError {T : Type}
    (func : unit -> Js.settled T)
    (callback : option (Js.Error -> completion Js.thrown (option string)))
  : Js.settled T :=
  match func tt with
  | Js.Fulfilled v => Js.Fulfilled v
  | Js.Rejected err =>
      match Js.instanceof_Error err with
      | Some e =>
          match callback with
          | Some cb =>
              match cb e with
              | Returned code =>
                  Js.Rejected (Js.ErrorValue (Js.ContractError e code))
              | Thrown t => Js.Rejected t
              end
          | None => Js.Rejected (Js.ErrorValue (Js.ContractError e None))
          end
      | None => Js.Rejected err
      end
  end.

(** The value the specification gives for [getBN]:
    [(trunc(value) * 10^9 + round(frac(value) * 10^9)) * 10^decimals
     / 10^9], with [round] its rounding of the nano-units to an
    integer. *)
Definition getBN_spec (round : Q -> Z) (value : Q) (decimals : Z) : Q :=
  (inject_Z (trunc_Q value) * inject_Z (10 ^ 9)
   + inject_Z (round ((value - inject_Z (trunc_Q value)) * inject_Z (10 ^ 9))))
  * pow10 decimals / inject_Z (10 ^ 9).

End Utils.

(* ================================================================== *)
(** ** Error bounds of the amount conversions *)
(* ================================================================== *)

Module Roundoff.

Import JsNumber BigNumber.
Local Open Scope Q_scope.

(** The unit roundoff of binary64, and half its least subnormal. *)
Definition u53 : Q := pow2 (-53).
Definition eta : Q := pow2 (-1075).

(** Half a unit of the last of the [DECIMAL_PLACES] decimals a
    division keeps. *)
Definition half_dp : Q := (1 # 2) * pow10 (- DECIMAL_PLACES).

End Roundoff.

Module DecimalBounds.

Local Open Scope Q_scope.

(** Decimal bounds of [u53] and of [eta], and the value of [half_dp]. *)
Definition U : Q := 1 # 1000000000000000.
Definition E0 : Q := 1 # 1000000000000000000000000000000000000000000000000.
Definition H0 : Q := 1 # 200000000000000000000.

(** The intermediate factor [1e9] of [getBN]. *)
Definition G : Q := inject_Z (10 ^ 9).

End DecimalBounds.

(* ================================================================== *)
(** ** stream/solana/StreamClient.ts *)
(* ================================================================== *)

Module Solana.

Import Js.
Local Open Scope string_scope.
Local Open Scope list_scope.

(** A public key, by its base58 text. *)
Definition PublicKey : Type := string.

Definition NATIVE_MINT : PublicKey :=
  "So11111111111111111111111111111111111111112".
Definition TOKEN_PROGRAM_ID : PublicKey :=
  "TokenkegQfeZyiNwAJbNbGKPFXCWuBvf9Ss623VQ5DA".
Definition ASSOCIATED_TOKEN_PROGRAM_ID : PublicKey :=
  "ATokenGPvbdGVxr1b2hvZbsiqW5xWH25efTNsLJA8knL".
Definition SYSVAR_RENT_PUBKEY : PublicKey :=
  "SysvarRent111111111111111111111111111111111".
Definition SystemProgram_programId : PublicKey :=
  "11111111111111111111111111111111".

Inductive StreamDirection : Type := Outgoing | Incoming | AllDirections.
Inductive StreamType : Type := StreamOnly | VestingOnly | AllTypes.

(** The signer: a key pair, or a wallet adapter whose public key may be
    missing and whose user may decline to sign. *)
Inductive Signer : Type :=
| Keypair (key : PublicKey)
| Wallet (key : option PublicKey) (approves : bool).

Definition publicKey (s : Signer) : option PublicKey :=
  match s with
  | Keypair k => Some k
  | Wallet k _ => k
  end.

Record IRecipient : Type := {
  r_recipient : string;
  r_amount : Z;
  r_name : string;
  r_cliffAmount : Z;
  r_amountPerPeriod : Z
}.

(** [IStreamConfig]; [ICreateStreamData] adds the recipient's fields and
    [ICreateMultipleStreamData] the list of recipients. *)
Record IStreamConfig : Type := {
  tokenId : string;
  start : Z;
  period : Z;
  cliff : Z;
  canTopup : bool;
  cancelableBySender : bool;
  cancelableByRecipient : bool;
  transferableBySender : bool;
  transferableByRecipient : bool;
  automaticWithdrawal : bool;
  withdrawalFrequency : Z
}.

Record ICreateStreamData : Type := {
  config : IStreamConfig;
  to : IRecipient
}.

Record ICreateMultipleStreamData : Type := {
  m_config : IStreamConfig;
  recipients : list IRecipient
}.

Record ICreateStreamSolanaExt : Type := {
  sender : Signer;
  partner : option string;
  isNative : bool
}.

(** The data and accounts handed to [createStreamInstruction]. *)
Record CreateStreamArgs : Type := {
  a_start : Z;
  a_depositedAmount : Z;
  a_period : Z;
  a_amountPerPeriod : Z;
  a_cliff : Z;
  a_cliffAmount : Z;
  a_cancelableBySender : bool;
  a_cancelableByRecipient : bool;
  a_automaticWithdrawal : bool;
  a_transferableBySender : bool;
  a_transferableByRecipient : bool;
  a_canTopup : bool;
  a_name : string;
  a_withdrawFrequency : Z
}.

Record CreateStreamAccounts : Type := {
  acc_sender : PublicKey;
  acc_senderTokens : PublicKey;
  acc_recipient : PublicKey;
  acc_metadata : PublicKey;
  acc_escrowTokens : PublicKey;
  acc_recipientTokens : PublicKey;
  acc_streamflowTreasury : PublicKey;
  acc_streamflowTreasuryTokens : PublicKey;
  acc_partner : PublicKey;
  acc_partnerTokens : PublicKey;
  acc_mint : PublicKey;
  acc_feeOracle : PublicKey;
  acc_rent : PublicKey;
  acc_timelockProgram : PublicKey;
  acc_tokenProgram : PublicKey;
  acc_associatedTokenProgram : PublicKey;
  acc_withdrawor : PublicKey;
  acc_systemProgram : PublicKey
}.

(** An instruction, by the builder call that made it.  The instructions
    of [prepareWrappedAccount(connection, owner, amount)] wrap [amount]
    of native currency into [owner]'s token account. *)
Inductive TransactionInstruction : Type :=
| createStreamInstruction (data : CreateStreamArgs) (programId : PublicKey)
    (accounts : CreateStreamAccounts)
| wrapInstruction (owner : PublicKey) (amount : Z).

Record Blockhash : Type := {
  blockhash : string;
  lastValidBlockHeight : Z
}.

Record Transaction : Type := {
  feePayer : PublicKey;
  recentBlockhash : Blockhash;
  instructions : list TransactionInstruction;
  signatures : list PublicKey
}.

(** [tx.partialSign(signer)], for a transaction that has a recent
    blockhash.  For one that has none (an empty [blockhash]) web3.js
    signs and serializes nothing and throws "Transaction
    recentBlockhash required"; the model does not follow that case. *)
Definition partialSign (tx : Transaction) (signer : PublicKey) : Transaction :=
  {| feePayer := feePayer tx;
     recentBlockhash := recentBlockhash tx;
     instructions := instructions tx;
     signatures := signatures tx ++ [signer] |}.

Record BatchItem : Type := {
  tx : Transaction;
  recipient : string
}.

Record BatchItemSuccess : Type := {
  s_tx : Transaction;
  s_recipient : string;
  signature : string
}.

Record CreateResponse : Type := {
  cr_ixs : list TransactionInstruction;
  cr_tx : string;
  cr_metadata : PublicKey
}.

Record CreateMultiResponse : Type := {
  txs : list string;
  metadatas : list PublicKey;
  metadataToRecipient : list (string * IRecipient);
  errors : list thrown
}.

(** *** Effects

    What the client does to the outside world is recorded as a trace:
    the one "sign all" round trip, the start of every submission and
    the settling of every awaited submission.  The state also counts the
    key pairs drawn from [Keypair.generate]. *)
Inductive event : Type :=
| EvSignAll (batch : list BatchItem)
| EvSend (t : Transaction)
| EvSettled (t : Transaction) (fulfilled : bool).



Record world : Type := {
  generated : nat;
  trace : list event
}.

Definition M (A : Type) : Type := world -> completion thrown A * world.

Definition ret {A} (a : A) : M A := fun w => (Returned a, w).

Definition throw {A} (t : thrown) : M A := fun w => (Thrown t, w).

Definition mbind {A B} (m : M A) (k : A -> M B) : M B :=
  fun w =>
    match m w with
    | (Returned a, w') => k a w'
    | (Thrown t, w') => (Thrown t, w')
    end.

Notation "x <~ c ;; k" := (mbind c (fun x => k))
  (at level 61, c at next level, right associativity).

(** The world after further events. *)
Definition extend (w : world) (evs : list event) : world :=
  {| generated := generated w; trace := trace w ++ evs |}.

Definition emit (e : event) : M unit :=
  fun w => (Returned tt, extend w [e]).

Fixpoint mapM {A B} (f : A -> M B) (l : list A) : M (list B) :=
  match l with
  | [] => ret []
  | a :: rest =>
      b <~ f a ;;
      bs <~ mapM f rest ;;
      ret (b :: bs)
  end.

(** [await p]: a rejected promise throws its reason. *)
Definition await {A} (p : settled A) : M A :=
  match p with
  | Fulfilled a => ret a
  | Rejected t => throw t
  end.

(** An object used as a map from text keys, in insertion order:
    assigning to a key that is present replaces its value in place. *)
Fixpoint assign {V} (o : list (string * V)) (k : string) (v : V)
  : list (string * V) :=
  match o with
  | [] => [(k, v)]
  | (k', v') :: rest =>
      if String.eqb k' k then (k', v) :: rest
      else (k', v') :: assign rest k v
  end.


(** [Array.prototype.sort(compare)]: the stable sort, for a comparator
    that is consistent (a result that is NaN counts as 0). *)
Fixpoint sort_insert {A} (compare : A -> A -> Z) (x : A) (sorted : list A)
  : list A :=
  match sorted with
  | [] => [x]
  | y :: rest =>
      if (compare y x <=? 0)%Z then y :: sort_insert compare x rest
      else x :: y :: rest
  end.

Definition sort {A} (compare : A -> A -> Z) (l : list A) : list A :=
  fold_right (fun x acc => sort_insert compare x acc) [] (rev l).


(** [array.pop()]: the array without its last element, and that
    element ([undefined] on an empty array). *)
Definition pop {A} (l : list A) : list A * option A :=
  match rev l with
  | [] => (l, None)
  | x :: r => (rev r, Some x)
  end.

Definition describe (t : thrown) : string :=
  match t with
  | ErrorValue e => message e
  | ObjectValue _ => "[object Object]"
  | OtherValue v => v
  end.

Definition is_fulfilled {A} (p : settled A) : bool :=
  match p with
  | Fulfilled _ => true
  | Rejected _ => false
  end.

Definition missing_key : thrown :=
  ErrorValue
    (PlainError
       "Sender's PublicKey is not available, check passed wallet adapter!").

Record Account : Type := {
  pubkey : PublicKey;
  data : list Byte.byte
}.

Section Client.

(** The client instance and its collaborators: program id and the
    addresses of [./constants]; address derivation; the key pairs
    [Keypair.generate] hands out; the ledger's answers. *)
Variable programId : PublicKey.
Variable STREAMFLOW_TREASURY_PUBLIC_KEY : PublicKey.
Variable WITHDRAWOR_PUBLIC_KEY : PublicKey.
Variable FEE_ORACLE_PUBLIC_KEY : PublicKey.
Variable STREAM_STRUCT_OFFSET_SENDER : Z.
Variable STREAM_STRUCT_OFFSET_RECIPIENT : Z.
Variable ata : PublicKey -> PublicKey -> PublicKey.
Variable findProgramAddress : string -> PublicKey -> PublicKey -> PublicKey.
Variable generateKeypair : nat -> PublicKey.
Variable latestBlockhash : Blockhash.
Variable sendAndConfirmRawTransaction : Transaction -> settled string.
(** The order in which [n] submissions in flight settle. *)
Variable settleOrder : nat -> list nat.

(** [Keypair.generate()] *)
Definition generate : M PublicKey :=
  fun w => (Returned (generateKeypair (generated w)),
            {| generated := S (generated w); trace := trace w |}).

(** [prepareWrappedAccount(connection, owner, amount)] *)
Definition prepareWrappedAccount (owner : PublicKey) (amount : Z)
  : list TransactionInstruction :=
  [wrapInstruction owner amount].

Definition user_rejected : thrown :=
  ErrorValue (PlainError "User rejected the request.").

Definition approves_signing (s : Signer) : bool :=
  match s with
  | Keypair _ => true
  | Wallet _ approves => approves
  end.

(** The private method [sign(invoker, tx, hash)]: sign, then submit and
    wait for confirmation.  With an empty blockhash the signing itself
    throws before the guard is reached (see [partialSign]): the guard
    is what the method does for a blockhash that is not empty. *)
Definition sign (invoker : Signer) (t : Transaction) (hash : Blockhash)
  : M string :=
  signed <~ match invoker with
            | Keypair k => ret (partialSign t k)
            | Wallet (Some k) true => ret (partialSign t k)
            | Wallet None true => ret t
            | Wallet _ false => throw user_rejected
            end ;;
  if (lastValidBlockHeight hash =? 0)%Z
     || match signatures signed with [] => true | _ => false end
     || String.eqb (blockhash hash) ""
  then throw (ErrorValue (PlainError "Error with transaction parameters."))
  else
    _ <~ emit (EvSend signed) ;;
    let p := sendAndConfirmRawTransaction signed in
    _ <~ emit (EvSettled signed (is_fulfilled p)) ;;
    await p.

(** [create(data, {sender, partner, isNative})] *)
Definition create (d : ICreateStreamData) (ext : ICreateStreamSolanaExt)
  : M CreateResponse :=
  match publicKey (sender ext) with
  | None => throw missing_key
  | Some senderKey =>
      let c := config d in
      let mint := tokenId c in
      let depositedAmount := r_amount (to d) in
      let mintPublicKey : PublicKey :=
        if isNative ext then mint else NATIVE_MINT in
      let recipientPublicKey : PublicKey := r_recipient (to d) in
      metadata <~ generate ;;
      let escrowTokens := findProgramAddress "strm" metadata programId in
      let senderTokens := ata mintPublicKey senderKey in
      let recipientTokens := ata mintPublicKey recipientPublicKey in
      let streamflowTreasuryTokens :=
        ata mintPublicKey STREAMFLOW_TREASURY_PUBLIC_KEY in
      let partnerPublicKey :=
        match partner ext with
        | Some p => p
        | None => STREAMFLOW_TREASURY_PUBLIC_KEY
        end in
      let partnerTokens := ata mintPublicKey partnerPublicKey in
      let nativeInstructions :=
        if isNative ext then prepareWrappedAccount senderKey depositedAmount
        else [] in
      let ixs :=
        [createStreamInstruction
           {| a_start := start c;
              a_depositedAmount := depositedAmount;
              a_period := period c;
              a_amountPerPeriod := r_amountPerPeriod (to d);
              a_cliff := cliff c;
              a_cliffAmount := r_cliffAmount (to d);
              a_cancelableBySender := cancelableBySender c;
              a_cancelableByRecipient := cancelableByRecipient c;
              a_automaticWithdrawal := automaticWithdrawal c;
              a_transferableBySender := transferableBySender c;
              a_transferableByRecipient := transferableByRecipient c;
              a_canTopup := canTopup c;
              a_name := r_name (to d);
              a_withdrawFrequency :=
                if automaticWithdrawal c then withdrawalFrequency c
                else period c |}
           programId
           {| acc_sender := senderKey;
              acc_senderTokens := senderTokens;
              acc_recipient := r_recipient (to d);
              acc_metadata := metadata;
              acc_escrowTokens := escrowTokens;
              acc_recipientTokens := recipientTokens;
              acc_streamflowTreasury := STREAMFLOW_TREASURY_PUBLIC_KEY;
              acc_streamflowTreasuryTokens := streamflowTreasuryTokens;
              acc_partner := partnerPublicKey;
              acc_partnerTokens := partnerTokens;
              acc_mint := mint;
              acc_feeOracle := FEE_ORACLE_PUBLIC_KEY;
              acc_rent := SYSVAR_RENT_PUBKEY;
              acc_timelockProgram := programId;
              acc_tokenProgram := TOKEN_PROGRAM_ID;
              acc_associatedTokenProgram := ASSOCIATED_TOKEN_PROGRAM_ID;
              acc_withdrawor := WITHDRAWOR_PUBLIC_KEY;
              acc_systemProgram := SystemProgram_programId |}] in
      let hash := latestBlockhash in
      let t :=
        partialSign
          {| feePayer := senderKey;
             recentBlockhash := hash;
             instructions := nativeInstructions ++ ixs;
             signatures := [] |}
          metadata in
      signature <~ sign (sender ext) t hash ;;
      ret {| cr_ixs := ixs; cr_tx := signature; cr_metadata := metadata |}
  end.

(** The private method [prepareStreamTransaction]. *)
Definition prepareStreamTransaction (r : IRecipient) (c : IStreamConfig)
    (ext : ICreateStreamSolanaExt) : M (Transaction * PublicKey) :=
  match publicKey (sender ext) with
  | None => throw missing_key
  | Some senderKey =>
      let mint := tokenId c in
      let recipientPublicKey : PublicKey := r_recipient r in
      let mintPublicKey : PublicKey := mint in
      metadata <~ generate ;;
      let escrowTokens := findProgramAddress "strm" metadata programId in
      let senderTokens := ata mintPublicKey senderKey in
      let recipientTokens := ata mintPublicKey recipientPublicKey in
      let streamflowTreasuryTokens :=
        ata mintPublicKey STREAMFLOW_TREASURY_PUBLIC_KEY in
      let partnerPublicKey :=
        match partner ext with
        | Some p => p
        | None => STREAMFLOW_TREASURY_PUBLIC_KEY
        end in
      let partnerTokens := ata mintPublicKey partnerPublicKey in
      let ixs :=
        [createStreamInstruction
           {| a_start := start c;
              a_depositedAmount := r_amount r;
              a_period := period c;
              a_amountPerPeriod := r_amountPerPeriod r;
              a_cliff := cliff c;
              a_cliffAmount := r_cliffAmount r;
              a_cancelableBySender := cancelableBySender c;
              a_cancelableByRecipient := cancelableByRecipient c;
              a_automaticWithdrawal := automaticWithdrawal c;
              a_transferableBySender := transferableBySender c;
              a_transferableByRecipient := transferableByRecipient c;
              a_canTopup := canTopup c;
              a_name := r_name r;
              a_withdrawFrequency :=
                if automaticWithdrawal c then withdrawalFrequency c
                else period c |}
           programId
           {| acc_sender := senderKey;
              acc_senderTokens := senderTokens;
              acc_recipient := r_recipient r;
              acc_metadata := metadata;
              acc_escrowTokens := escrowTokens;
              acc_recipientTokens := recipientTokens;
              acc_streamflowTreasury := STREAMFLOW_TREASURY_PUBLIC_KEY;
              acc_streamflowTreasuryTokens := streamflowTreasuryTokens;
              acc_partner := partnerPublicKey;
              acc_partnerTokens := partnerTokens;
              acc_mint := mint;
              acc_feeOracle := FEE_ORACLE_PUBLIC_KEY;
              acc_rent := SYSVAR_RENT_PUBKEY;
              acc_timelockProgram := programId;
              acc_tokenProgram := TOKEN_PROGRAM_ID;
              acc_associatedTokenProgram := ASSOCIATED_TOKEN_PROGRAM_ID;
              acc_withdrawor := WITHDRAWOR_PUBLIC_KEY;
              acc_systemProgram := SystemProgram_programId |}] in
      let hash := latestBlockhash in
      let t :=
        partialSign
          {| feePayer := senderKey;
             recentBlockhash := hash;
             instructions := ixs;
             signatures := [] |}
          metadata in
      ret (t, metadata)
  end.

(** Modelled from the spec: [signAllTransactionWithRecipients] of
    [./utils], which is not among the sources.  The full ordered batch
    goes to the signer in a single "sign all" call; every item comes
    back signed, in the same order, with its recipient. *)
Definition signAllTransactionWithRecipients (s : Signer)
    (items : list BatchItem) : M (list BatchItem) :=
  _ <~ emit (EvSignAll items) ;;
  let signed k :=
    map (fun item =>
           {| tx := partialSign (tx item) k; recipient := recipient item |})
        items in
  match s with
  | Keypair k => ret (signed k)
  | Wallet (Some k) true => ret (signed k)
  | Wallet None true => ret items
  | Wallet _ false => throw user_rejected
  end.

(** Modelled from the spec: [sendAndConfirmStreamRawTransaction] of
    [./utils], which is not among the sources.  A confirmed submission
    yields the item with its transaction id; a failed one rejects with
    its error paired with the recipient that failed. *)
Definition sendAndConfirmStreamRawTransaction (item : BatchItem)
  : settled BatchItemSuccess :=
  match sendAndConfirmRawTransaction (tx item) with
  | Fulfilled sig =>
      Fulfilled {| s_tx := tx item;
                   s_recipient := recipient item;
                   signature := sig |}
  | Rejected reason =>
      Rejected (ObjectValue [("recipient", recipient item);
                             ("error", describe reason)])
  end.

(** Calling the submission starts it; awaiting it observes how it
    settled. *)
Definition submit (item : BatchItem) : M (settled BatchItemSuccess) :=
  _ <~ emit (EvSend (tx item)) ;;
  ret (sendAndConfirmStreamRawTransaction item).

Definition settle (item : BatchItem) (p : settled BatchItemSuccess) : M unit :=
  emit (EvSettled (tx item) (is_fulfilled p)).

(** [Promise.allSettled(promises)]: waits until every promise has
    settled, in whatever order they do, and yields the outcomes in the
    order of the promises. *)
Definition allSettled (calls : list (BatchItem * settled BatchItemSuccess))
  : M (list (settled BatchItemSuccess)) :=
  _ <~ mapM (fun i =>
               match nth_error calls i with
               | Some (item, p) => settle item p
               | None => ret tt
               end)
            (settleOrder (List.length calls)) ;;
  ret (map snd calls).

Definition fulfilled_values {A} (responses : list (settled A)) : list A :=
  flat_map (fun el => match el with Fulfilled v => [v] | Rejected _ => [] end)
           responses.

Definition rejected_reasons {A} (responses : list (settled A)) : list thrown :=
  flat_map (fun el => match el with Fulfilled _ => [] | Rejected r => [r] end)
           responses.

(** The loop over the recipients of [createMultiple]. *)
Fixpoint prepare_all (rs : list IRecipient) (c : IStreamConfig)
    (ext : ICreateStreamSolanaExt)
    (acc : list PublicKey * list (string * IRecipient) * list BatchItem)
  : M (list PublicKey * list (string * IRecipient) * list BatchItem) :=
  match rs with
  | [] => ret acc
  | recipientData :: rest =>
      let '(metadatas, metadataToRecipient, batch) := acc in
      p <~ prepareStreamTransaction recipientData c ext ;;
      let '(t, metadata) := p in
      prepare_all rest c ext
        (metadatas ++ [metadata],
         assign metadataToRecipient metadata recipientData,
         batch ++ [{| tx := t; recipient := r_recipient recipientData |}])
  end.

(** [createMultiple(data, {sender, partner, isNative})] *)
Definition createMultiple (d : ICreateMultipleStreamData)
    (ext : ICreateStreamSolanaExt) : M CreateMultiResponse :=
  match publicKey (sender ext) with
  | None => throw missing_key
  | Some senderKey =>
      prepared <~ prepare_all (recipients d) (m_config d) ext ([], [], []) ;;
      let '(metadatas, metadataToRecipient, batch0) := prepared in
      let batch :=
        if isNative ext then
          let totalDepositedAmount :=
            fold_left (fun acc r => (r_amount r + acc)%Z) (recipients d) 0%Z in
          let nativeInstructions :=
            prepareWrappedAccount senderKey totalDepositedAmount in
          let prepareTransaction :=
            {| feePayer := senderKey;
               recentBlockhash := latestBlockhash;
               instructions := nativeInstructions;
               signatures := [] |} in
          batch0 ++ [{| tx := prepareTransaction; recipient := senderKey |}]
        else batch0 in
      signed_batch <~ signAllTransactionWithRecipients (sender ext) batch ;;
      signed_batch <~
        (if isNative ext then
           match pop signed_batch with
           | (rest, Some prepareTx) =>
               p <~ submit prepareTx ;;
               _ <~ settle prepareTx p ;;
               _ <~ await p ;;
               ret rest
           | (rest, None) =>
               throw (ErrorValue (PlainError "Cannot read properties of undefined"))
           end
         else ret signed_batch) ;;
      batchTransactionsCalls <~
        mapM (fun el => p <~ submit el ;; ret (el, p)) signed_batch ;;
      responses <~ allSettled batchTransactionsCalls ;;
      let successes := fulfilled_values responses in
      let signatures := map signature successes in
      let failures := rejected_reasons responses in
      ret {| txs := signatures;
             metadatas := metadatas;
             metadataToRecipient := metadataToRecipient;
             errors := failures |}
  end.



(** A batch item whose transaction is one stream creation. *)
Definition creates_stream (item : BatchItem) : Prop :=
  exists args accounts,
    instructions (tx item) = [createStreamInstruction args programId accounts].


(** *** [get]

    The decoded contract class of [./types] is not among the sources:
    its type, the decoder and the two properties [get] reads are
    parameters.  [streams] is typed [any], so the comparator reads
    [startTime] from whatever object it is given: [startTime c] is the
    number found there, [None] when the object has no such property
    (the [Stream] shapes of the sources have [start] and no
    [startTime]). *)
Variable Contract : Type.
Variable decodeStream : list Byte.byte -> completion thrown Contract.
Variable startTime : Contract -> option Z.
Variable contract_canTopup : Contract -> bool.
Variable getProgramAccounts :
  PublicKey -> Z -> PublicKey -> completion thrown (list Account).

(** [accounts.forEach(...)]: decode every account into the object
    [streams], keyed by address. *)
Fixpoint decode_all (accounts : list Account)
    (streams : list (string * Contract))
  : completion thrown (list (string * Contract)) :=
  match accounts with
  | [] => Returned streams
  | account :: rest =>
      decoded <- decodeStream (data account) ;;
      decode_all rest (assign streams (pubkey account) decoded)
  end.

(** [([, stream1], [, stream2]) => stream2.startTime - stream1.startTime]
    as the sort reads it: with a property missing the difference is
    NaN, which the sort takes for 0. *)
Definition by_start_desc (e1 e2 : string * Contract) : Z :=
  match startTime (snd e2), startTime (snd e1) with
  | Some t2, Some t1 => (t2 - t1)%Z
  | _, _ => 0%Z
  end.

(** [get({wallet, type, direction})] *)
Definition get (wallet : PublicKey) (type : StreamType)
    (direction : StreamDirection)
  : completion thrown (list (string * Contract)) :=
  accounts <-
    match direction with
    | AllDirections =>
        outgoingAccounts <-
          getProgramAccounts wallet STREAM_STRUCT_OFFSET_SENDER programId ;;
        incomingAccounts <-
          getProgramAccounts wallet STREAM_STRUCT_OFFSET_RECIPIENT programId ;;
        Returned (outgoingAccounts ++ incomingAccounts)
    | Outgoing =>
        getProgramAccounts wallet STREAM_STRUCT_OFFSET_SENDER programId
    | Incoming =>
        getProgramAccounts wallet STREAM_STRUCT_OFFSET_RECIPIENT programId
    end ;;
  streams <- decode_all accounts [] ;;
  let sortedStreams := sort by_start_desc streams in
  match type with
  | AllTypes => Returned sortedStreams
  | StreamOnly =>
      Returned (filter (fun s => contract_canTopup (snd s)) sortedStreams)
  | VestingOnly =>
      Returned (filter (fun s => negb (contract_canTopup (snd s)))
                       sortedStreams)
  end.

End Client.

End Solana.

(* ================================================================== *)
(** ** stream/common/contractUtils: the unlock schedule *)
(* ================================================================== *)

Module ContractUtils.

Local Open Scope Z_scope.

Record UnlockInput : Type := {
  u_depositedAmount : Z;
  u_cliff : Z;
  u_cliffAmount : Z;
  u_end : Z;
  u_currentTimestamp : Z;
  u_lastRateChangeTime : Z;
  u_period : Z;
  u_amountPerPeriod : Z;
  u_fundsUnlockedAtLastRateChange : Z;
  u_closed : bool;
  u_canceledAt : Z;
  u_currentPauseStart : Z;
  u_pauseCumulative : Z
}.

(** Modelled from the spec: [calculateUnlockedAmount] of
    [../common/contractUtils], which is not among the sources.
    - Effective time [t = min(now, canceledAt)], [canceledAt] counting
      only when set (non-zero).  A closed stream, or [t >= end], has
      everything unlocked.
    - Before the cliff nothing is unlocked.
    - A zero period is "one shot": from the cliff on everything is
      unlocked.
    - Otherwise whole periods are counted from the later of the cliff
      and the last rate change, after taking off the time spent paused
      ([pauseCumulative], and [now - currentPauseStart] while paused); a
      negative elapsed time counts as zero.
    - The baseline is the amount unlocked at the last rate change when
      there was one, the cliff amount otherwise.
    - The total is capped by the deposited amount. *)
Definition calculateUnlockedAmount (i : UnlockInput) : Z :=
  let now := u_currentTimestamp i in
  let t := if 0 <? u_canceledAt i then Z.min now (u_canceledAt i) else now in
  if u_closed i || (u_end i <=? t) then u_depositedAmount i
  else if t <? u_cliff i then 0
  else if u_period i =? 0 then u_depositedAmount i
  else
    let referencePoint :=
      if u_cliff i <? u_lastRateChangeTime i then u_lastRateChangeTime i
      else u_cliff i in
    let paused :=
      u_pauseCumulative i
      + (if 0 <? u_currentPauseStart i then now - u_currentPauseStart i
         else 0) in
    let elapsed := Z.max 0 (t - referencePoint - paused) in
    let elapsedPeriods := elapsed / u_period i in
    let baseline :=
      if 0 <? u_lastRateChangeTime i then u_fundsUnlockedAtLastRateChange i
      else u_cliffAmount i in
    Z.min (baseline + elapsedPeriods * u_amountPerPeriod i)
          (u_depositedAmount i).

(** Modelled from the spec: [calculateUnlocked] of
    [../common/ContractUtils], the same schedule with positional
    arguments; the stream is neither closed, canceled nor paused as far
    as these arguments tell. *)
Definition calculateUnlocked
    (depositedAmount cliff cliffAmount end_ currentTimestamp
     lastRateChangeTime period amountPerPeriod
     fundsUnlockedAtLastRateChange : Z) : Z :=
  calculateUnlockedAmount
    {| u_depositedAmount := depositedAmount;
       u_cliff := cliff;
       u_cliffAmount := cliffAmount;
       u_end := end_;
       u_currentTimestamp := currentTimestamp;
       u_lastRateChangeTime := lastRateChangeTime;
       u_period := period;
       u_amountPerPeriod := amountPerPeriod;
       u_fundsUnlockedAtLastRateChange := fundsUnlockedAtLastRateChange;
       u_closed := false;
       u_canceledAt := 0;
       u_currentPauseStart := 0;
       u_pauseCumulative := 0 |}.

End ContractUtils.

(* ================================================================== *)
(** ** Text helpers of the JavaScript runtime *)
(* ================================================================== *)

Module JsString.

Import JsNumber.
Local Open Scope char_scope.

Definition is_space (c : ascii) : bool :=
  let n := nat_of_ascii c in
  (n =? 32)%nat || ((9 <=? n)%nat && (n <=? 13)%nat).

Fixpoint skip_spaces (s : string) : string :=
  match s with
  | String c rest => if is_space c then skip_spaces rest else s
  | EmptyString => s
  end.

Fixpoint remove_spaces (s : string) : string :=
  match s with
  | String c rest =>
      if is_space c then remove_spaces rest else String c (remove_spaces rest)
  | EmptyString => s
  end.

(** The value of a digit in the given radix. *)
Definition digit_value (radix : Z) (c : ascii) : option Z :=
  let n := Z.of_nat (nat_of_ascii c) in
  let v :=
    if (48 <=? n)%Z && (n <=? 57)%Z then n - 48
    else if (97 <=? n)%Z && (n <=? 122)%Z then n - 87
    else if (65 <=? n)%Z && (n <=? 90)%Z then n - 55
    else 36 in
  if (v <? radix)%Z then Some v else None.

(** The value of the longest prefix of digits; [None] without one. *)
Fixpoint leading_digits (radix : Z) (s : string) (acc : option Z) : option Z :=
  match s with
  | String c rest =>
      match digit_value radix c with
      | Some v =>
          leading_digits radix rest
            (Some (match acc with Some a => a * radix + v | None => v end))
      | None => acc
      end
  | EmptyString => acc
  end.

(** [parseInt(s)]: leading white space, a sign, [0x] for base 16, then
    digits; [NaN] without digits.  The integer read is rounded to a
    double. *)
Definition parseInt (s : string) : number :=
  let s := skip_spaces s in
  let '(negative, s) :=
    match s with
    | String "-" rest => (true, rest)
    | String "+" rest => (false, rest)
    | _ => (false, s)
    end in
  let '(radix, s) :=
    match s with
    | String "0" (String "x" rest) => (16, rest)
    | String "0" (String "X" rest) => (16, rest)
    | _ => (10, s)
    end in
  match leading_digits radix s None with
  | None => NaN
  | Some z => fl (inject_Z (if negative then - z else z))
  end.

(** A number as the integer it is, when it is one. *)
Definition integer_of (x : number) : option Z :=
  match x with
  | Num q => if Qeq_bool (inject_Z (Qfloor q)) q then Some (Qfloor q) else None
  | _ => None
  end.

Fixpoint all_digits (s : string) (acc : Z) : option Z :=
  match s with
  | String c rest =>
      match digit_value 10 c with
      | Some v => all_digits rest (acc * 10 + v)
      | None => None
      end
  | EmptyString => Some acc
  end.

(** [new BN(s)] (bn.js, base 10): white space is dropped, a leading [-]
    negates, every other character must be a digit (the constructor
    throws otherwise, here [None]). *)
Definition BN_of_string (s : string) : option Z :=
  match remove_spaces s with
  | String "-" rest => option_map Z.opp (all_digits rest 0)
  | s' => all_digits s' 0
  end.

(** [s.replace("0x", "")]: the first occurrence is removed. *)
Fixpoint remove_first_0x (s : string) : string :=
  match s with
  | String "0" (String "x" rest) => rest
  | String c rest => String c (remove_first_0x rest)
  | EmptyString => s
  end.

(** [Buffer.from(s, "hex").toString("utf8")]: pairs of hex digits up to
    the first that is not one; the text is kept as its UTF-8 bytes. *)
Fixpoint hex_decode (s : string) : string :=
  match s with
  | String a (String b rest) =>
      match digit_value 16 a, digit_value 16 b with
      | Some h, Some l =>
          String (ascii_of_nat (Z.to_nat (h * 16 + l))) (hex_decode rest)
      | _, _ => EmptyString
      end
  | _ => EmptyString
  end.

(** [s.toLowerCase()] on ASCII text. *)
Definition lower (c : ascii) : ascii :=
  let n := nat_of_ascii c in
  if (65 <=? n)%nat && (n <=? 90)%nat then ascii_of_nat (n + 32) else c.

Fixpoint toLowerCase (s : string) : string :=
  match s with
  | String c rest => String (lower c) (toLowerCase rest)
  | EmptyString => s
  end.

End JsString.

(* ================================================================== *)
(** ** stream/aptos/types.ts *)
(* ================================================================== *)

Module Aptos.

Import JsNumber JsString.

Record Fees : Type := {
  streamflow_fee : string;
  streamflow_fee_percentage : string;
  streamflow_fee_withdrawn : string
}.

Record Meta : Type := {
  automatic_withdrawal : bool;
  can_topup : bool;
  can_update_rate : bool;
  cancelable_by_recipient : bool;
  cancelable_by_sender : bool;
  contract_name : string;
  pausable : bool;
  transferable_by_recipient : bool;
  transferable_by_sender : bool;
  withdrawal_frequency : string;
  meta_closed : bool
}.

Record StreamResource : Type := {
  amount : string;
  amount_per_period : string;
  canceled_at : string;
  cliff_amount : string;
  res_closed : bool;
  contract_signer_cap : string;
  created : string;
  current_pause_start : string;
  res_end : string;
  fees : Fees;
  funds_unlocked_at_last_rate_change : string;
  last_rate_change_time : string;
  last_withdrawn_at : string;
  meta : Meta;
  pause_cumulative : string;
  res_period : string;
  res_recipient : string;
  res_sender : string;
  res_start : string;
  withdrawn : string
}.

(** The class [Contract].  Timestamps and counts are integers, amounts
    ([BN]) are integers, the fee percentages are doubles. *)
Record Contract : Type := {
  magic : Z;
  version : Z;
  createdAt : Z;
  withdrawnAmount : Z;
  canceledAt : Z;
  end_ : Z;
  lastWithdrawnAt : Z;
  sender : string;
  senderTokens : string;
  recipient : string;
  recipientTokens : string;
  mint : string;
  escrowTokens : string;
  streamflowTreasury : string;
  streamflowTreasuryTokens : string;
  streamflowFeeTotal : Z;
  streamflowFeeWithdrawn : Z;
  streamflowFeePercent : number;
  partnerFeeTotal : Z;
  partnerFeeWithdrawn : Z;
  partnerFeePercent : number;
  partner : string;
  partnerTokens : string;
  start : Z;
  depositedAmount : Z;
  period : Z;
  amountPerPeriod : Z;
  cliff : Z;
  cliffAmount : Z;
  cancelableBySender : bool;
  cancelableByRecipient : bool;
  automaticWithdrawal : bool;
  transferableBySender : bool;
  transferableByRecipient : bool;
  canTopup : bool;
  name : string;
  withdrawalFrequency : Z;
  closed : bool;
  currentPauseStart : Z;
  pauseCumulative : Z;
  lastRateChangeTime : Z;
  fundsUnlockedAtLastRateChange : Z
}.

Definition obind {A B} (o : option A) (k : A -> option B) : option B :=
  match o with
  | Some a => k a
  | None => None
  end.

Notation "x <-? c ;; k" := (obind c (fun x => k))
  (at level 61, c at next level, right associativity).

(** [parseInt(s)] as an integer. *)
Definition parseInt_Z (s : string) : option Z := integer_of (parseInt s).

(** [new Contract(stream, tokenId)].  The result is [None] when a text
    that [parseInt] reads is not a number (the object would hold [NaN])
    or when [new BN] throws on an amount. *)
Definition new_Contract (stream : StreamResource) (tokenId : string)
  : option Contract :=
  createdAt' <-? parseInt_Z (created stream) ;;
  withdrawnAmount' <-? BN_of_string (withdrawn stream) ;;
  canceledAt' <-? parseInt_Z (canceled_at stream) ;;
  end' <-? parseInt_Z (res_end stream) ;;
  lastWithdrawnAt' <-? parseInt_Z (last_withdrawn_at stream) ;;
  start' <-? parseInt_Z (res_start stream) ;;
  depositedAmount' <-? BN_of_string (amount stream) ;;
  period' <-? parseInt_Z (res_period stream) ;;
  amountPerPeriod' <-? BN_of_string (amount_per_period stream) ;;
  cliff' <-? parseInt_Z (res_start stream) ;;
  cliffAmount' <-? BN_of_string (cliff_amount stream) ;;
  withdrawalFrequency' <-? parseInt_Z (withdrawal_frequency (meta stream)) ;;
  currentPauseStart' <-? parseInt_Z (current_pause_start stream) ;;
  pauseCumulative' <-? parseInt_Z (pause_cumulative stream) ;;
  lastRateChangeTime' <-? parseInt_Z (last_rate_change_time stream) ;;
  fundsUnlockedAtLastRateChange' <-?
    BN_of_string (funds_unlocked_at_last_rate_change stream) ;;
  Some
    {| magic := 0;
       version := 0;
       createdAt := createdAt';
       withdrawnAmount := withdrawnAmount';
       canceledAt := canceledAt';
       end_ := end';
       lastWithdrawnAt := lastWithdrawnAt';
       sender := res_sender stream;
       senderTokens := res_sender stream;
       recipient := res_recipient stream;
       recipientTokens := res_recipient stream;
       mint := tokenId;
       escrowTokens := "";
       streamflowTreasury := "";
       streamflowTreasuryTokens := "";
       streamflowFeeTotal := 0;
       streamflowFeeWithdrawn := 0;
       streamflowFeePercent :=
         JsNumber.div (parseInt (streamflow_fee_percentage (fees stream)))
                      (num (inject_Z 10000));
       partnerFeeTotal := 0;
       partnerFeeWithdrawn := 0;
       partnerFeePercent := num 0;
       partner := "";
       partnerTokens := "";
       start := start';
       depositedAmount := depositedAmount';
       period := period';
       amountPerPeriod := amountPerPeriod';
       cliff := cliff';
       cliffAmount := cliffAmount';
       cancelableBySender := cancelable_by_sender (meta stream);
       cancelableByRecipient := cancelable_by_recipient (meta stream);
       automaticWithdrawal := automatic_withdrawal (meta stream);
       transferableBySender := transferable_by_sender (meta stream);
       transferableByRecipient := transferable_by_recipient (meta stream);
       canTopup := can_topup (meta stream);
       name := hex_decode (remove_first_0x (contract_name (meta stream)));
       withdrawalFrequency := withdrawalFrequency';
       closed := meta_closed (meta stream);
       currentPauseStart := currentPauseStart';
       pauseCumulative := pauseCumulative';
       lastRateChangeTime := lastRateChangeTime';
       fundsUnlockedAtLastRateChange := fundsUnlockedAtLastRateChange' |}.

(** [unlocked(currentTimestamp)] *)
Definition unlocked (this : Contract) (currentTimestamp : Z) : Z :=
  ContractUtils.calculateUnlocked
    (depositedAmount this)
    (cliff this)
    (cliffAmount this)
    (end_ this)
    currentTimestamp
    (lastRateChangeTime this)
    (period this)
    (amountPerPeriod this)
    (fundsUnlockedAtLastRateChange this).

End Aptos.

(* ================================================================== *)
(** ** stream/evm/types.ts *)
(* ================================================================== *)

Module Evm.

Import JsNumber JsString.

Inductive StreamType : Type := Stream | Vesting | All.

(** ethers' [BigNumber] values are integers. *)
Record FeesAbi : Type := {
  streamflow_fee_percentage : Z;
  streamflow_fee : Z;
  streamflow_fee_withdrawn : Z;
  partner_fee_percentage : Z;
  partner_fee : Z;
  partner_fee_withdrawn : Z;
  tx_fee : Z
}.

Record MetaAbi : Type := {
  automatic_withdrawal : bool;
  can_topup : bool;
  can_update_rate : bool;
  cancelable_by_recipient : bool;
  cancelable_by_sender : bool;
  contract_name : string;
  pausable : bool;
  transferable_by_recipient : bool;
  transferable_by_sender : bool;
  withdrawal_frequency : Z
}.

Record StreamAbiResult : Type := {
  amount : Z;
  amount_per_period : Z;
  canceled_at : Z;
  cliff_amount : Z;
  abi_closed : bool;
  created : Z;
  current_pause_start : Z;
  abi_end : Z;
  fees : FeesAbi;
  funds_unlocked_at_last_rate_change : Z;
  last_rate_change_time : Z;
  last_withdrawn_at : Z;
  meta : MetaAbi;
  pause_cumulative : Z;
  abi_period : Z;
  abi_recipient : string;
  abi_sender : string;
  abi_partner : string;
  abi_start : Z;
  token : string;
  withdrawn : Z
}.

(** The class [EvmContract]; amounts are [BigNumber]s holding
    integers.  [type] is unset while the constructor runs. *)
Record EvmContract : Type := {
  magic : Z;
  version : Z;
  createdAt : Z;
  withdrawnAmount : Z;
  canceledAt : Z;
  end_ : Z;
  lastWithdrawnAt : Z;
  sender : string;
  senderTokens : string;
  recipient : string;
  recipientTokens : string;
  mint : string;
  escrowTokens : string;
  streamflowTreasury : string;
  streamflowTreasuryTokens : string;
  streamflowFeeTotal : Z;
  streamflowFeeWithdrawn : Z;
  streamflowFeePercent : number;
  partnerFeeTotal : Z;
  partnerFeeWithdrawn : Z;
  partnerFeePercent : number;
  partner : string;
  partnerTokens : string;
  start : Z;
  depositedAmount : Z;
  period : Z;
  amountPerPeriod : Z;
  cliff : Z;
  cliffAmount : Z;
  cancelableBySender : bool;
  cancelableByRecipient : bool;
  automaticWithdrawal : bool;
  transferableBySender : bool;
  transferableByRecipient : bool;
  canTopup : bool;
  name : string;
  withdrawalFrequency : Z;
  closed : bool;
  currentPauseStart : Z;
  pauseCumulative : Z;
  lastRateChangeTime : Z;
  fundsUnlockedAtLastRateChange : Z;
  type : option StreamType
}.

Definition set_type (c : EvmContract) (t : StreamType) : EvmContract :=
  {| magic := magic c;
     version := version c;
     createdAt := createdAt c;
     withdrawnAmount := withdrawnAmount c;
     canceledAt := canceledAt c;
     end_ := end_ c;
     lastWithdrawnAt := lastWithdrawnAt c;
     sender := sender c;
     senderTokens := senderTokens c;
     recipient := recipient c;
     recipientTokens := recipientTokens c;
     mint := mint c;
     escrowTokens := escrowTokens c;
     streamflowTreasury := streamflowTreasury c;
     streamflowTreasuryTokens := streamflowTreasuryTokens c;
     streamflowFeeTotal := streamflowFeeTotal c;
     streamflowFeeWithdrawn := streamflowFeeWithdrawn c;
     streamflowFeePercent := streamflowFeePercent c;
     partnerFeeTotal := partnerFeeTotal c;
     partnerFeeWithdrawn := partnerFeeWithdrawn c;
     partnerFeePercent := partnerFeePercent c;
     partner := partner c;
     partnerTokens := partnerTokens c;
     start := start c;
     depositedAmount := depositedAmount c;
     period := period c;
     amountPerPeriod := amountPerPeriod c;
     cliff := cliff c;
     cliffAmount := cliffAmount c;
     cancelableBySender := cancelableBySender c;
     cancelableByRecipient := cancelableByRecipient c;
     automaticWithdrawal := automaticWithdrawal c;
     transferableBySender := transferableBySender c;
     transferableByRecipient := transferableByRecipient c;
     canTopup := canTopup c;
     name := name c;
     withdrawalFrequency := withdrawalFrequency c;
     closed := closed c;
     currentPauseStart := currentPauseStart c;
     pauseCumulative := pauseCumulative c;
     lastRateChangeTime := lastRateChangeTime c;
     fundsUnlockedAtLastRateChange := fundsUnlockedAtLastRateChange c;
     type := Some t |}.

(** ethers' [x.toNumber()]: throws beyond the safe integers. *)
Definition toNumber (x : Z) : completion Js.thrown Z :=
  if (Z.abs x <=? 2 ^ 53 - 1)%Z then Returned x
  else Thrown (Js.ErrorValue (Js.PlainError "overflow")).

Section Constructor.

(** [buildStreamType] of [../common/contractUtils] is not among the
    sources: a parameter. *)
Variable buildStreamType : EvmContract -> StreamType.

(** [new EvmContract(stream)] *)
Definition new_EvmContract (stream : StreamAbiResult)
  : completion Js.thrown EvmContract :=
  createdAt' <- toNumber (created stream) ;;
  canceledAt' <- toNumber (canceled_at stream) ;;
  end' <- toNumber (abi_end stream) ;;
  lastWithdrawnAt' <- toNumber (last_withdrawn_at stream) ;;
  feePercent <- toNumber (streamflow_fee_percentage (fees stream)) ;;
  start' <- toNumber (abi_start stream) ;;
  period' <- toNumber (abi_period stream) ;;
  cliff' <- toNumber (abi_start stream) ;;
  withdrawalFrequency' <- toNumber (withdrawal_frequency (meta stream)) ;;
  currentPauseStart' <- toNumber (current_pause_start stream) ;;
  lastRateChangeTime' <- toNumber (last_rate_change_time stream) ;;
  let this :=
    {| magic := 0;
       version := 0;
       createdAt := createdAt';
       withdrawnAmount := withdrawn stream;
       canceledAt := canceledAt';
       end_ := end';
       lastWithdrawnAt := lastWithdrawnAt';
       sender := abi_sender stream;
       senderTokens := abi_sender stream;
       recipient := abi_recipient stream;
       recipientTokens := abi_recipient stream;
       mint := toLowerCase (token stream);
       escrowTokens := "";
       streamflowTreasury := "";
       streamflowTreasuryTokens := "";
       streamflowFeeTotal := streamflow_fee (fees stream);
       streamflowFeeWithdrawn := streamflow_fee_withdrawn (fees stream);
       streamflowFeePercent :=
         JsNumber.div (num (inject_Z feePercent)) (num (inject_Z 10000));
       partnerFeeTotal := 0;
       partnerFeeWithdrawn := 0;
       partnerFeePercent := num 0;
       partner := "";
       partnerTokens := "";
       start := start';
       depositedAmount := amount stream;
       period := period';
       amountPerPeriod := amount_per_period stream;
       cliff := cliff';
       cliffAmount := cliff_amount stream;
       cancelableBySender := cancelable_by_sender (meta stream);
       cancelableByRecipient := cancelable_by_recipient (meta stream);
       automaticWithdrawal := automatic_withdrawal (meta stream);
       transferableBySender := transferable_by_sender (meta stream);
       transferableByRecipient := transferable_by_recipient (meta stream);
       canTopup := can_topup (meta stream);
       name := contract_name (meta stream);
       withdrawalFrequency := withdrawalFrequency';
       closed := abi_closed stream;
       currentPauseStart := currentPauseStart';
       pauseCumulative := pause_cumulative stream;
       lastRateChangeTime := lastRateChangeTime';
       fundsUnlockedAtLastRateChange :=
         funds_unlocked_at_last_rate_change stream;
       type := None |} in
  Returned (set_type this (buildStreamType this)).

End Constructor.

(** [unlocked(currentTimestamp)]: the schedule on the object's own
    fields and the timestamp. *)
Definition unlocked (this : EvmContract) (currentTimestamp : Z) : Z :=
  ContractUtils.calculateUnlockedAmount
    {| ContractUtils.u_depositedAmount := depositedAmount this;
       ContractUtils.u_cliff := cliff this;
       ContractUtils.u_cliffAmount := cliffAmount this;
       ContractUtils.u_end := end_ this;
       ContractUtils.u_currentTimestamp := currentTimestamp;
       ContractUtils.u_lastRateChangeTime := lastRateChangeTime this;
       ContractUtils.u_period := period this;
       ContractUtils.u_amountPerPeriod := amountPerPeriod this;
       ContractUtils.u_fundsUnlockedAtLastRateChange :=
         fundsUnlockedAtLastRateChange this;
       ContractUtils.u_closed := closed this;
       ContractUtils.u_canceledAt := canceledAt this;
       ContractUtils.u_currentPauseStart := currentPauseStart this;
       ContractUtils.u_pauseCumulative := pauseCumulative this |}.

(** [remaining(decimals)] *)
Definition remaining (this : EvmContract) (decimals : Z) : number :=
  BigNumber.toNumber
    (BigNumber.div
       (BigNumber.minus (BigNumber.Big (inject_Z (depositedAmount this)))
                        (BigNumber.Big (inject_Z (withdrawnAmount this))))
       (BigNumber.of_number (pow10_number decimals))).

End Evm.

(* ================================================================== *)
(** ** The batch of [createMultiple] *)
(* ================================================================== *)

Module SolanaBatch.

Import Js Solana.
Local Open Scope string_scope.
Local Open Scope list_scope.

Section Prepared.

Variable programId : PublicKey.
Variable STREAMFLOW_TREASURY_PUBLIC_KEY : PublicKey.
Variable ata : PublicKey -> PublicKey -> PublicKey.
Variable findProgramAddress : string -> PublicKey -> PublicKey -> PublicKey.
Variable latestBlockhash : Blockhash.

(** What the batch holds for the recipient [r] of a [createMultiple]
    call by the sender [k], with the metadata key [m]: one transaction
    paid by the sender and signed by the metadata key so far, with the
    one creation instruction for [r]; every token account is derived
    from the mint [tokenId] of the call. *)
Definition prepared_for (c : IStreamConfig) (ext : ICreateStreamSolanaExt)
    (k : PublicKey) (r : IRecipient) (m : PublicKey) (item : BatchItem)
  : Prop :=
  let partnerKey :=
    match partner ext with
    | Some p => p
    | None => STREAMFLOW_TREASURY_PUBLIC_KEY
    end in
  recipient item = r_recipient r
  /\ feePayer (tx item) = k
  /\ recentBlockhash (tx item) = latestBlockhash
  /\ signatures (tx item) = [m]
  /\ exists args accounts,
      instructions (tx item)
      = [createStreamInstruction args programId accounts]
      /\ acc_sender accounts = k
      /\ acc_recipient accounts = r_recipient r
      /\ acc_metadata accounts = m
      /\ acc_escrowTokens accounts = findProgramAddress "strm" m programId
      /\ acc_mint accounts = tokenId c
      /\ acc_senderTokens accounts = ata (tokenId c) k
      /\ acc_recipientTokens accounts = ata (tokenId c) (r_recipient r)
      /\ acc_streamflowTreasuryTokens accounts
         = ata (tokenId c) STREAMFLOW_TREASURY_PUBLIC_KEY
      /\ acc_partner accounts = partnerKey
      /\ acc_partnerTokens accounts = ata (tokenId c) partnerKey
      /\ a_depositedAmount args = r_amount r
      /\ a_amountPerPeriod args = r_amountPerPeriod r
      /\ a_cliffAmount args = r_cliffAmount r
      /\ a_name args = r_name r
      /\ a_start args = start c
      /\ a_period args = period c
      /\ a_cliff args = cliff c
      /\ a_withdrawFrequency args
         = if automaticWithdrawal c then withdrawalFrequency c else period c.

End Prepared.

End SolanaBatch.

(* ================================================================== *)
(** ** stream/solana/StreamClient.ts: the other operations *)
(* ================================================================== *)

Module SolanaActions.

Import Js.
Local Open Scope string_scope.
Local Open Scope list_scope.

Definition METADATA_ACC_SIZE : Z := 1104.

(** [DecodedStream] of [../types]: what [decodeStream] reads from the
    data of a stream account. *)
Record DecodedStream : Type := {
  magic : Z;
  version : Z;
  createdAt : Z;
  withdrawnAmount : Z;
  canceledAt : Z;
  end_ : Z;
  lastWithdrawnAt : Z;
  sender : Solana.PublicKey;
  senderTokens : Solana.PublicKey;
  recipient : Solana.PublicKey;
  recipientTokens : Solana.PublicKey;
  mint : Solana.PublicKey;
  escrowTokens : Solana.PublicKey;
  streamflowTreasury : Solana.PublicKey;
  streamflowTreasuryTokens : Solana.PublicKey;
  streamflowFeeTotal : Z;
  streamflowFeeWithdrawn : Z;
  streamflowFeePercent : Z;
  partnerFeeTotal : Z;
  partnerFeeWithdrawn : Z;
  partnerFeePercent : Z;
  partner : Solana.PublicKey;
  partnerTokens : Solana.PublicKey;
  start : Z;
  depositedAmount : Z;
  period : Z;
  amountPerPeriod : Z;
  cliff : Z;
  cliffAmount : Z;
  cancelableBySender : bool;
  cancelableByRecipient : bool;
  automaticWithdrawal : bool;
  transferableBySender : bool;
  transferableByRecipient : bool;
  canTopup : bool;
  name : string;
  withdrawFrequency : Z
}.

(** The accounts handed to the instruction builders of
    [./instructions]. *)
Record WithdrawAccounts : Type := {
  wd_authority : Solana.PublicKey;
  wd_recipient : Solana.PublicKey;
  wd_recipientTokens : Solana.PublicKey;
  wd_metadata : Solana.PublicKey;
  wd_escrowTokens : Solana.PublicKey;
  wd_streamflowTreasury : Solana.PublicKey;
  wd_streamflowTreasuryTokens : Solana.PublicKey;
  wd_partner : Solana.PublicKey;
  wd_partnerTokens : Solana.PublicKey;
  wd_mint : Solana.PublicKey;
  wd_tokenProgram : Solana.PublicKey
}.

Record CancelAccounts : Type := {
  cn_authority : Solana.PublicKey;
  cn_sender : Solana.PublicKey;
  cn_senderTokens : Solana.PublicKey;
  cn_recipient : Solana.PublicKey;
  cn_recipientTokens : Solana.PublicKey;
  cn_metadata : Solana.PublicKey;
  cn_escrowTokens : Solana.PublicKey;
  cn_streamflowTreasury : Solana.PublicKey;
  cn_streamflowTreasuryTokens : Solana.PublicKey;
  cn_partner : Solana.PublicKey;
  cn_partnerTokens : Solana.PublicKey;
  cn_mint : Solana.PublicKey;
  cn_tokenProgram : Solana.PublicKey
}.

Record TransferAccounts : Type := {
  tr_authority : Solana.PublicKey;
  tr_newRecipient : Solana.PublicKey;
  tr_newRecipientTokens : Solana.PublicKey;
  tr_metadata : Solana.PublicKey;
  tr_mint : Solana.PublicKey;
  tr_rent : Solana.PublicKey;
  tr_tokenProgram : Solana.PublicKey;
  tr_associatedTokenProgram : Solana.PublicKey;
  tr_systemProgram : Solana.PublicKey
}.

Record TopupAccounts : Type := {
  tu_sender : Solana.PublicKey;
  tu_senderTokens : Solana.PublicKey;
  tu_metadata : Solana.PublicKey;
  tu_escrowTokens : Solana.PublicKey;
  tu_streamflowTreasury : Solana.PublicKey;
  tu_streamflowTreasuryTokens : Solana.PublicKey;
  tu_partner : Solana.PublicKey;
  tu_partnerTokens : Solana.PublicKey;
  tu_mint : Solana.PublicKey;
  tu_tokenProgram : Solana.PublicKey;
  tu_withdrawor : Solana.PublicKey;
  tu_systemProgram : Solana.PublicKey
}.

Record CreateUncheckedArgs : Type := {
  cu_start : Z;
  cu_depositedAmount : Z;
  cu_period : Z;
  cu_amountPerPeriod : Z;
  cu_cliff : Z;
  cu_cliffAmount : Z;
  cu_cancelableBySender : bool;
  cu_cancelableByRecipient : bool;
  cu_automaticWithdrawal : bool;
  cu_transferableBySender : bool;
  cu_transferableByRecipient : bool;
  cu_canTopup : bool;
  cu_name : string;
  cu_withdrawFrequency : Z;
  cu_recipient : Solana.PublicKey;
  cu_partner : Solana.PublicKey
}.

Record CreateUncheckedAccounts : Type := {
  ca_sender : Solana.PublicKey;
  ca_senderTokens : Solana.PublicKey;
  ca_metadata : Solana.PublicKey;
  ca_escrowTokens : Solana.PublicKey;
  ca_mint : Solana.PublicKey;
  ca_feeOracle : Solana.PublicKey;
  ca_rent : Solana.PublicKey;
  ca_timelockProgram : Solana.PublicKey;
  ca_tokenProgram : Solana.PublicKey;
  ca_withdrawor : Solana.PublicKey;
  ca_systemProgram : Solana.PublicKey
}.

(** The parameters of [SystemProgram.createAccount]. *)
Record CreateAccountParams : Type := {
  sp_programId : Solana.PublicKey;
  sp_space : Z;
  sp_lamports : Z;
  sp_fromPubkey : Solana.PublicKey;
  sp_newAccountPubkey : Solana.PublicKey
}.

(** An instruction, by the builder call that made it; [wrapping i] is
    an instruction of [prepareWrappedAccount]. *)
Inductive Instruction : Type :=
| withdrawStreamInstruction (amount : Z) (programId : Solana.PublicKey)
    (accounts : WithdrawAccounts)
| cancelStreamInstruction (programId : Solana.PublicKey)
    (accounts : CancelAccounts)
| transferStreamInstruction (programId : Solana.PublicKey)
    (accounts : TransferAccounts)
| topupStreamInstruction (amount : Z) (programId : Solana.PublicKey)
    (accounts : TopupAccounts)
| createUncheckedStreamInstruction (data : CreateUncheckedArgs)
    (programId : Solana.PublicKey) (accounts : CreateUncheckedAccounts)
| createAccount (params : CreateAccountParams)
| wrapping (i : Solana.TransactionInstruction).

Record Transaction : Type := {
  feePayer : Solana.PublicKey;
  recentBlockhash : Solana.Blockhash;
  instructions : list Instruction;
  signatures : list Solana.PublicKey
}.

(** [tx.partialSign(signer)], for a transaction that has a recent
    blockhash, as [Solana.partialSign]. *)
Definition partialSign (tx : Transaction) (signer : Solana.PublicKey)
  : Transaction :=
  {| feePayer := feePayer tx;
     recentBlockhash := recentBlockhash tx;
     instructions := instructions tx;
     signatures := signatures tx ++ [signer] |}.

Record TxResponse : Type := {
  ixs : list Instruction;
  tx : string
}.

Record CreateResponse : Type := {
  cr_ixs : list Instruction;
  cr_tx : string;
  cr_metadata : Solana.PublicKey
}.

(** *** Effects

    The trace records every request to the ledger: the reads of an
    account and of the rent-exempt minimum, the submission of a
    transaction and its settling.  The state also counts the key pairs
    drawn from [Keypair.generate]. *)
Inductive event : Type :=
| EvGetAccountInfo (address : Solana.PublicKey)
| EvGetRent (space : Z)
| EvSend (t : Transaction)
| EvSettled (t : Transaction) (fulfilled : bool).

Record world : Type := {
  generated : nat;
  trace : list event
}.

Definition M (A : Type) : Type := world -> completion thrown A * world.

Definition ret {A} (a : A) : M A := fun w => (Returned a, w).

Definition throw {A} (t : thrown) : M A := fun w => (Thrown t, w).

Definition mbind {A B} (m : M A) (k : A -> M B) : M B :=
  fun w =>
    match m w with
    | (Returned a, w') => k a w'
    | (Thrown t, w') => (Thrown t, w')
    end.

Notation "x <~ c ;; k" := (mbind c (fun x => k))
  (at level 61, c at next level, right associativity).

(** The world after further requests. *)
Definition extend (w : world) (evs : list event) : world :=
  {| generated := generated w; trace := trace w ++ evs |}.

Definition emit (e : event) : M unit :=
  fun w => (Returned tt, extend w [e]).

(** A call that returns or throws without touching the ledger. *)
Definition lift {A} (c : completion thrown A) : M A := fun w => (c, w).

(** [await p]: a rejected promise throws its reason. *)
Definition await {A} (p : settled A) : M A :=
  match p with
  | Fulfilled a => ret a
  | Rejected t => throw t
  end.

Definition invoker_missing_key : thrown :=
  ErrorValue
    (PlainError
       "Invoker's PublicKey is not available, check passed wallet adapter!").

Definition sender_missing_key : thrown :=
  ErrorValue
    (PlainError
       "Sender's PublicKey is not available, check passed wallet adapter!").

Definition no_account_info : thrown :=
  ErrorValue (PlainError "Couldn't get account info").

Definition bad_transaction_parameters : thrown :=
  ErrorValue (PlainError "Error with transaction parameters.").

Section Client.

(** The client instance and its collaborators, as for [create]; the
    ledger's answers to [getAccountInfo] (the account's data, if the
    account exists) and to [getMinimumBalanceForRentExemption]; the
    decoder of [./utils] and the class [Contract] of [./types], which
    are not among the sources. *)
Variable programId : Solana.PublicKey.
Variable STREAMFLOW_TREASURY_PUBLIC_KEY : Solana.PublicKey.
Variable WITHDRAWOR_PUBLIC_KEY : Solana.PublicKey.
Variable FEE_ORACLE_PUBLIC_KEY : Solana.PublicKey.
Variable ata : Solana.PublicKey -> Solana.PublicKey -> Solana.PublicKey.
Variable findProgramAddress :
  string -> Solana.PublicKey -> Solana.PublicKey -> Solana.PublicKey.
Variable generateKeypair : nat -> Solana.PublicKey.
Variable latestBlockhash : Solana.Blockhash.
Variable sendAndConfirmRawTransaction : Transaction -> settled string.
Variable accountData : Solana.PublicKey -> settled (option (list Byte.byte)).
Variable minimumBalanceForRentExemption : Z -> settled Z.
Variable decodeStream : list Byte.byte -> completion thrown DecodedStream.
Variable Contract : Type.
Variable new_Contract : DecodedStream -> Contract.

(** [Keypair.generate()] *)
Definition generate : M Solana.PublicKey :=
  fun w => (Returned (generateKeypair (generated w)),
            {| generated := S (generated w); trace := trace w |}).

(** [connection.getAccountInfo(address)], read as [escrow?.data]. *)
Definition getAccountInfo (address : Solana.PublicKey)
  : M (option (list Byte.byte)) :=
  _ <~ emit (EvGetAccountInfo address) ;;
  await (accountData address).

(** [connection.getMinimumBalanceForRentExemption(space)] *)
Definition getMinimumBalanceForRentExemption (space : Z) : M Z :=
  _ <~ emit (EvGetRent space) ;;
  await (minimumBalanceForRentExemption space).

(** The private method [sign(invoker, tx, hash)], as [Solana.sign]:
    the guard is what the method does for a blockhash that is not
    empty. *)
Definition sign (invoker : Solana.Signer) (t : Transaction)
    (hash : Solana.Blockhash) : M string :=
  signed <~ match invoker with
            | Solana.Keypair k => ret (partialSign t k)
            | Solana.Wallet (Some k) true => ret (partialSign t k)
            | Solana.Wallet None true => ret t
            | Solana.Wallet _ false => throw Solana.user_rejected
            end ;;
  if (Solana.lastValidBlockHeight hash =? 0)%Z
     || match signatures signed with [] => true | _ => false end
     || String.eqb (Solana.blockhash hash) ""
  then throw bad_transaction_parameters
  else
    _ <~ emit (EvSend signed) ;;
    let p := sendAndConfirmRawTransaction signed in
    _ <~ emit (EvSettled signed (Solana.is_fulfilled p)) ;;
    await p.

(** [withdraw({id, amount}, {invoker})] *)
Definition withdraw (id : string) (amount : Z) (invoker : Solana.Signer)
  : M TxResponse :=
  match Solana.publicKey invoker with
  | None => throw invoker_missing_key
  | Some invokerKey =>
      let streamPublicKey : Solana.PublicKey := id in
      escrow <~ getAccountInfo streamPublicKey ;;
      match escrow with
      | None => throw no_account_info
      | Some escrow_data =>
          data <~ lift (decodeStream escrow_data) ;;
          let streamflowTreasuryTokens :=
            ata (mint data) STREAMFLOW_TREASURY_PUBLIC_KEY in
          let partnerTokens := ata (mint data) (partner data) in
          let ixs :=
            [withdrawStreamInstruction amount programId
               {| wd_authority := invokerKey;
                  wd_recipient := invokerKey;
                  wd_recipientTokens := recipientTokens data;
                  wd_metadata := streamPublicKey;
                  wd_escrowTokens := escrowTokens data;
                  wd_streamflowTreasury := STREAMFLOW_TREASURY_PUBLIC_KEY;
                  wd_streamflowTreasuryTokens := streamflowTreasuryTokens;
                  wd_partner := partner data;
                  wd_partnerTokens := partnerTokens;
                  wd_mint := mint data;
                  wd_tokenProgram := Solana.TOKEN_PROGRAM_ID |}] in
          let hash := latestBlockhash in
          let t :=
            {| feePayer := invokerKey;
               recentBlockhash := hash;
               instructions := ixs;
               signatures := [] |} in
          signature <~ sign invoker t hash ;;
          ret {| ixs := ixs; tx := signature |}
      end
  end.

(** [cancel({id}, {invoker})] *)
Definition cancel (id : string) (invoker : Solana.Signer) : M TxResponse :=
  match Solana.publicKey invoker with
  | None => throw invoker_missing_key
  | Some invokerKey =>
      let streamPublicKey : Solana.PublicKey := id in
      escrow_acc <~ getAccountInfo streamPublicKey ;;
      match escrow_acc with
      | None => throw no_account_info
      | Some escrow_data =>
          data <~ lift (decodeStream escrow_data) ;;
          let streamflowTreasuryTokens :=
            ata (mint data) STREAMFLOW_TREASURY_PUBLIC_KEY in
          let partnerTokens := ata (mint data) (partner data) in
          let ixs :=
            [cancelStreamInstruction programId
               {| cn_authority := invokerKey;
                  cn_sender := sender data;
                  cn_senderTokens := senderTokens data;
                  cn_recipient := recipient data;
                  cn_recipientTokens := recipientTokens data;
                  cn_metadata := streamPublicKey;
                  cn_escrowTokens := escrowTokens data;
                  cn_streamflowTreasury := STREAMFLOW_TREASURY_PUBLIC_KEY;
                  cn_streamflowTreasuryTokens := streamflowTreasuryTokens;
                  cn_partner := partner data;
                  cn_partnerTokens := partnerTokens;
                  cn_mint := mint data;
                  cn_tokenProgram := Solana.TOKEN_PROGRAM_ID |}] in
          let hash := latestBlockhash in
          let t :=
            {| feePayer := invokerKey;
               recentBlockhash := hash;
               instructions := ixs;
               signatures := [] |} in
          signature <~ sign invoker t hash ;;
          ret {| ixs := ixs; tx := signature |}
      end
  end.

(** [transfer({id, newRecipient}, {invoker})] *)
Definition transfer (id newRecipientString : string)
    (invoker : Solana.Signer) : M TxResponse :=
  match Solana.publicKey invoker with
  | None => throw invoker_missing_key
  | Some invokerKey =>
      let stream : Solana.PublicKey := id in
      let newRecipient : Solana.PublicKey := newRecipientString in
      escrow <~ getAccountInfo stream ;;
      match escrow with
      | None => throw no_account_info
      | Some escrow_data =>
          data <~ lift (decodeStream escrow_data) ;;
          let newRecipientTokens := ata (mint data) newRecipient in
          let ixs :=
            [transferStreamInstruction programId
               {| tr_authority := invokerKey;
                  tr_newRecipient := newRecipient;
                  tr_newRecipientTokens := newRecipientTokens;
                  tr_metadata := stream;
                  tr_mint := mint data;
                  tr_rent := Solana.SYSVAR_RENT_PUBKEY;
                  tr_tokenProgram := Solana.TOKEN_PROGRAM_ID;
                  tr_associatedTokenProgram :=
                    Solana.ASSOCIATED_TOKEN_PROGRAM_ID;
                  tr_systemProgram := Solana.SystemProgram_programId |}] in
          let hash := latestBlockhash in
          let t :=
            {| feePayer := invokerKey;
               recentBlockhash := hash;
               instructions := ixs;
               signatures := [] |} in
          signature <~ sign invoker t hash ;;
          ret {| ixs := ixs; tx := signature |}
      end
  end.

(** [topup({id, amount}, {invoker, isNative})] *)
Definition topup (id : string) (amount : Z) (invoker : Solana.Signer)
    (isNative : bool) : M TxResponse :=
  match Solana.publicKey invoker with
  | None => throw invoker_missing_key
  | Some invokerKey =>
      let streamPublicKey : Solana.PublicKey := id in
      escrow <~ getAccountInfo streamPublicKey ;;
      match escrow with
      | None => throw no_account_info
      | Some escrow_data =>
          data <~ lift (decodeStream escrow_data) ;;
          let streamflowTreasuryTokens :=
            ata (mint data) STREAMFLOW_TREASURY_PUBLIC_KEY in
          let partnerTokens := ata (mint data) (partner data) in
          let nativeInstructions :=
            if isNative
            then map wrapping (Solana.prepareWrappedAccount invokerKey amount)
            else [] in
          let ixs :=
            [topupStreamInstruction amount programId
               {| tu_sender := invokerKey;
                  tu_senderTokens := senderTokens data;
                  tu_metadata := streamPublicKey;
                  tu_escrowTokens := escrowTokens data;
                  tu_streamflowTreasury := STREAMFLOW_TREASURY_PUBLIC_KEY;
                  tu_streamflowTreasuryTokens := streamflowTreasuryTokens;
                  tu_partner := partner data;
                  tu_partnerTokens := partnerTokens;
                  tu_mint := mint data;
                  tu_tokenProgram := Solana.TOKEN_PROGRAM_ID;
                  tu_withdrawor := WITHDRAWOR_PUBLIC_KEY;
                  tu_systemProgram := Solana.SystemProgram_programId |}] in
          let hash := latestBlockhash in
          let t :=
            {| feePayer := invokerKey;
               recentBlockhash := hash;
               instructions := nativeInstructions ++ ixs;
               signatures := [] |} in
          signature <~ sign invoker t hash ;;
          ret {| ixs := ixs; tx := signature |}
      end
  end.

(** [getOne({id})] *)
Definition getOne (id : string) : M Contract :=
  escrow <~ getAccountInfo id ;;
  match escrow with
  | None => throw (ErrorValue (PlainError "Couldn't get account info."))
  | Some escrow_data =>
      data <~ lift (decodeStream escrow_data) ;;
      ret (new_Contract data)
  end.

(** [createUnchecked(data, {sender, partner, isNative})] *)
Definition createUnchecked (d : Solana.ICreateStreamData)
    (ext : Solana.ICreateStreamSolanaExt) : M CreateResponse :=
  match Solana.publicKey (Solana.sender ext) with
  | None => throw sender_missing_key
  | Some senderKey =>
      let c := Solana.config d in
      let mint := Solana.tokenId c in
      let depositedAmount := Solana.r_amount (Solana.to d) in
      let mintPublicKey : Solana.PublicKey := mint in
      let recipientPublicKey : Solana.PublicKey :=
        Solana.r_recipient (Solana.to d) in
      metadata <~ generate ;;
      rentToExempt <~ getMinimumBalanceForRentExemption METADATA_ACC_SIZE ;;
      let createMetadataInstruction :=
        createAccount
          {| sp_programId := programId;
             sp_space := METADATA_ACC_SIZE;
             sp_lamports := rentToExempt;
             sp_fromPubkey := senderKey;
             sp_newAccountPubkey := metadata |} in
      let escrowTokens := findProgramAddress "strm" metadata programId in
      let senderTokens := ata mintPublicKey senderKey in
      let partnerPublicKey :=
        match Solana.partner ext with
        | Some p => p
        | None => STREAMFLOW_TREASURY_PUBLIC_KEY
        end in
      let nativeInstructions :=
        if Solana.isNative ext
        then map wrapping
                 (Solana.prepareWrappedAccount senderKey depositedAmount)
        else [] in
      let createInstruction :=
        createUncheckedStreamInstruction
          {| cu_start := Solana.start c;
             cu_depositedAmount := depositedAmount;
             cu_period := Solana.period c;
             cu_amountPerPeriod := Solana.r_amountPerPeriod (Solana.to d);
             cu_cliff := Solana.cliff c;
             cu_cliffAmount := Solana.r_cliffAmount (Solana.to d);
             cu_cancelableBySender := Solana.cancelableBySender c;
             cu_cancelableByRecipient := Solana.cancelableByRecipient c;
             cu_automaticWithdrawal := Solana.automaticWithdrawal c;
             cu_transferableBySender := Solana.transferableBySender c;
             cu_transferableByRecipient := Solana.transferableByRecipient c;
             cu_canTopup := Solana.canTopup c;
             cu_name := Solana.r_name (Solana.to d);
             cu_withdrawFrequency :=
               if Solana.automaticWithdrawal c
               then Solana.withdrawalFrequency c
               else Solana.period c;
             cu_recipient := recipientPublicKey;
             cu_partner := partnerPublicKey |}
          programId
          {| ca_sender := senderKey;
             ca_senderTokens := senderTokens;
             ca_metadata := metadata;
             ca_escrowTokens := escrowTokens;
             ca_mint := mint;
             ca_feeOracle := FEE_ORACLE_PUBLIC_KEY;
             ca_rent := Solana.SYSVAR_RENT_PUBKEY;
             ca_timelockProgram := programId;
             ca_tokenProgram := Solana.TOKEN_PROGRAM_ID;
             ca_withdrawor := WITHDRAWOR_PUBLIC_KEY;
             ca_systemProgram := Solana.SystemProgram_programId |} in
      let ixs := [createMetadataInstruction; createInstruction] in
      let hash := latestBlockhash in
      let t :=
        partialSign
          {| feePayer := senderKey;
             recentBlockhash := hash;
             instructions := nativeInstructions ++ ixs;
             signatures := [] |}
          metadata in
      signature <~ sign (Solana.sender ext) t hash ;;
      ret {| cr_ixs := ixs; cr_tx := signature; cr_metadata := metadata |}
  end.

End Client.

End SolanaActions.

(* ================================================================== *)
(** ** Texts as a ledger writes them *)
(* ================================================================== *)

Module LedgerText.

Local Open Scope char_scope.

(** [Buffer.from(s).toString("hex")]: two lower-case hex digits for
    every byte of [s]. *)
Definition hex_digit (n : nat) : ascii :=
  nth n ["0"; "1"; "2"; "3"; "4"; "5"; "6"; "7";
         "8"; "9"; "a"; "b"; "c"; "d"; "e"; "f"] "0".

Fixpoint hex_encode (s : string) : string :=
  match s with
  | EmptyString => EmptyString
  | String c rest =>
      String (hex_digit (nat_of_ascii c / 16))
        (String (hex_digit (nat_of_ascii c mod 16)) (hex_encode rest))
  end.

(** The decimal numeral of a natural number, as [n.toString()] of a
    [u64] gives it. *)
Definition decimal (n : N) : string :=
  DecimalString.NilZero.string_of_uint (N.to_uint n).

End LedgerText.

(* ================================================================== *)
(** ** Sample data *)
(* ================================================================== *)

Module Samples.

Local Open Scope Z_scope.
Local Open Scope list_scope.
Local Open Scope string_scope.

(** The schedule of the end-to-end scenario: start and cliff 1000, cliff
    amount 100, 50 per period of 100, deposit 1000 (ending at 2800). *)
Definition scenario (now : Z) : ContractUtils.UnlockInput :=
  {| ContractUtils.u_depositedAmount := 1000;
     ContractUtils.u_cliff := 1000;
     ContractUtils.u_cliffAmount := 100;
     ContractUtils.u_end := 2800;
     ContractUtils.u_currentTimestamp := now;
     ContractUtils.u_lastRateChangeTime := 0;
     ContractUtils.u_period := 100;
     ContractUtils.u_amountPerPeriod := 50;
     ContractUtils.u_fundsUnlockedAtLastRateChange := 0;
     ContractUtils.u_closed := false;
     ContractUtils.u_canceledAt := 0;
     ContractUtils.u_currentPauseStart := 0;
     ContractUtils.u_pauseCumulative := 0 |}.


Definition aptos_resource : Aptos.StreamResource :=
  {| Aptos.amount := "1000";
     Aptos.amount_per_period := "50";
     Aptos.canceled_at := "0";
     Aptos.cliff_amount := "100";
     Aptos.res_closed := false;
     Aptos.contract_signer_cap := "0xcafe";
     Aptos.created := "900";
     Aptos.current_pause_start := "0";
     Aptos.res_end := "2800";
     Aptos.fees :=
       {| Aptos.streamflow_fee := "0";
          Aptos.streamflow_fee_percentage := "25";
          Aptos.streamflow_fee_withdrawn := "0" |};
     Aptos.funds_unlocked_at_last_rate_change := "0";
     Aptos.last_rate_change_time := "0";
     Aptos.last_withdrawn_at := "0";
     Aptos.meta :=
       {| Aptos.automatic_withdrawal := false;
          Aptos.can_topup := false;
          Aptos.can_update_rate := false;
          Aptos.cancelable_by_recipient := false;
          Aptos.cancelable_by_sender := true;
          Aptos.contract_name := "0x7465616d";
          Aptos.pausable := false;
          Aptos.transferable_by_recipient := false;
          Aptos.transferable_by_sender := true;
          Aptos.withdrawal_frequency := "0";
          Aptos.meta_closed := false |};
     Aptos.pause_cumulative := "0";
     Aptos.res_period := "100";
     Aptos.res_recipient := "0xb0b";
     Aptos.res_sender := "0xa11ce";
     Aptos.res_start := "1000";
     Aptos.withdrawn := "0" |}.

Definition aptos_contract : option Aptos.Contract :=
  Eval vm_compute in
    Aptos.new_Contract aptos_resource "0x1::aptos_coin::AptosCoin".

Definition evm_result : Evm.StreamAbiResult :=
  {| Evm.amount := 1000;
     Evm.amount_per_period := 50;
     Evm.canceled_at := 0;
     Evm.cliff_amount := 100;
     Evm.abi_closed := false;
     Evm.created := 900;
     Evm.current_pause_start := 0;
     Evm.abi_end := 2800;
     Evm.fees :=
       {| Evm.streamflow_fee_percentage := 25;
          Evm.streamflow_fee := 0;
          Evm.streamflow_fee_withdrawn := 0;
          Evm.partner_fee_percentage := 0;
          Evm.partner_fee := 0;
          Evm.partner_fee_withdrawn := 0;
          Evm.tx_fee := 0 |};
     Evm.funds_unlocked_at_last_rate_change := 0;
     Evm.last_rate_change_time := 0;
     Evm.last_withdrawn_at := 0;
     Evm.meta :=
       {| Evm.automatic_withdrawal := false;
          Evm.can_topup := false;
          Evm.can_update_rate := false;
          Evm.cancelable_by_recipient := false;
          Evm.cancelable_by_sender := true;
          Evm.contract_name := "team";
          Evm.pausable := false;
          Evm.transferable_by_recipient := false;
          Evm.transferable_by_sender := true;
          Evm.withdrawal_frequency := 0 |};
     Evm.pause_cumulative := 0;
     Evm.abi_period := 100;
     Evm.abi_recipient := "0xB0B";
     Evm.abi_sender := "0xA11CE";
     Evm.abi_partner := "";
     Evm.abi_start := 1000;
     Evm.token := "0xC0FFEE";
     Evm.withdrawn := 0 |}.

Definition vesting_only (c : Evm.EvmContract) : Evm.StreamType :=
  if Evm.canTopup c then Evm.Stream else Evm.Vesting.

Definition evm_contract : completion Js.thrown Evm.EvmContract :=
  Eval vm_compute in Evm.new_EvmContract vesting_only evm_result.

(** *** A Solana client and its ledger *)

Definition programId : Solana.PublicKey :=
  "strmRqUCoQUgGUan5YhzUZa6KqdzwX5L6FpUxfmKg5m".
Definition treasury : Solana.PublicKey :=
  "5SEpbdjFK5FxwTvfsGMXVQTD2v4M2c5tyRTxhdsPkgDw".
Definition withdrawor : Solana.PublicKey :=
  "wdrwhnCv4pzW8beKsbPa4S2UDZrXenjg16KJdKSpb5u".
Definition feeOracle : Solana.PublicKey :=
  "B743wFVk2pCYhV91cn287e1xY7f1vt4gdY48hhNiuQmT".
Definition usdc : Solana.PublicKey :=
  "EPjFWdd5AufqSSqeM2qN1xzybapC8G4wEGGkZwyTDt1v".

Definition ata (mint owner : Solana.PublicKey) : Solana.PublicKey :=
  "ata(" ++ mint ++ "," ++ owner ++ ")".

Definition findProgramAddress (seed : string) (key program : Solana.PublicKey)
  : Solana.PublicKey :=
  "pda(" ++ seed ++ "," ++ key ++ "," ++ program ++ ")".

Definition generateKeypair (n : nat) : Solana.PublicKey :=
  match n with
  | 0%nat => "metadata0"
  | 1%nat => "metadata1"
  | 2%nat => "metadata2"
  | 3%nat => "metadata3"
  | _ => "metadata4"
  end.

Definition latestBlockhash : Solana.Blockhash :=
  {| Solana.blockhash := "9sHcv6xwn9YkB8nxTUGKDwPwNnmqVp5oAXxU8Fdkm4J6";
     Solana.lastValidBlockHeight := 250000000 |}.

(** A ledger that confirms every transaction except a stream creation
    for carol. *)
Definition confirm (t : Solana.Transaction) : Js.settled string :=
  match Solana.instructions t with
  | [Solana.createStreamInstruction _ _ accounts] =>
      if String.eqb (Solana.acc_recipient accounts) "carol"
      then Js.Rejected (Js.ErrorValue (Js.PlainError "blockhash expired"))
      else Js.Fulfilled ("sig:" ++ Solana.acc_recipient accounts)
  | _ => Js.Fulfilled "sig:wrap"
  end.

(** Submissions settle last to first. *)
Definition settleOrder (n : nat) : list nat := rev (seq 0 n).




Definition signer (native : bool) : Solana.ICreateStreamSolanaExt :=
  {| Solana.sender := Solana.Keypair "sender";
     Solana.partner := None;
     Solana.isNative := native |}.

Definition fresh : Solana.world :=
  {| Solana.generated := 0; Solana.trace := [] |}.

Definition createMultiple :=
  Solana.createMultiple programId treasury withdrawor feeOracle ata
    findProgramAddress generateKeypair latestBlockhash confirm settleOrder.

Definition create :=
  Solana.create programId treasury withdrawor feeOracle ata
    findProgramAddress generateKeypair latestBlockhash confirm.

(** A wallet that is both sender and recipient of one stream account:
    both indexed lookups return that account. *)
Definition selfStream : Solana.Account :=
  {| Solana.pubkey := "Stream1"; Solana.data := [Byte.x07; Byte.x01] |}.

Definition otherStream : Solana.Account :=
  {| Solana.pubkey := "Stream2"; Solana.data := [Byte.x09; Byte.x00] |}.

(** A decoded contract, reduced to its [start] and top-up flag. *)
Definition decode (bytes : list Byte.byte)
  : completion Js.thrown (Z * bool) :=
  match bytes with
  | [t; f] => Returned (Z.of_nat (Byte.to_nat t), negb (Byte.eqb f Byte.x00))
  | _ => Thrown (Js.ErrorValue (Js.PlainError "DecodeError"))
  end.

Definition lookups (wallet : Solana.PublicKey) (offset : Z)
    (program : Solana.PublicKey)
  : completion Js.thrown (list Solana.Account) :=
  if (offset =? 49)%Z then Returned [selfStream; otherStream]
  else Returned [selfStream].

(** The client over contracts that have [start] and no [startTime], as
    the [Stream] shapes of the sources do. *)
Definition get :=
  Solana.get programId 49 113 (Z * bool) decode (fun _ => None) snd lookups.


End Samples.

(* ================================================================== *)
(** ** Sample data for the other operations of the Solana client *)
(* ================================================================== *)

Module ActionSamples.

Local Open Scope Z_scope.
Local Open Scope list_scope.
Local Open Scope string_scope.

(** The stream account [Stream1], as decoded. *)
Definition stream : SolanaActions.DecodedStream :=
  {| SolanaActions.magic := 0;
     SolanaActions.version := 0;
     SolanaActions.createdAt := 900;
     SolanaActions.withdrawnAmount := 0;
     SolanaActions.canceledAt := 0;
     SolanaActions.end_ := 2800;
     SolanaActions.lastWithdrawnAt := 0;
     SolanaActions.sender := "alice";
     SolanaActions.senderTokens := "alice-usdc";
     SolanaActions.recipient := "bob";
     SolanaActions.recipientTokens := "bob-usdc";
     SolanaActions.mint := Samples.usdc;
     SolanaActions.escrowTokens := "escrow1";
     SolanaActions.streamflowTreasury := Samples.treasury;
     SolanaActions.streamflowTreasuryTokens := "treasury-usdc";
     SolanaActions.streamflowFeeTotal := 0;
     SolanaActions.streamflowFeeWithdrawn := 0;
     SolanaActions.streamflowFeePercent := 0;
     SolanaActions.partnerFeeTotal := 0;
     SolanaActions.partnerFeeWithdrawn := 0;
     SolanaActions.partnerFeePercent := 0;
     SolanaActions.partner := "partner";
     SolanaActions.partnerTokens := "partner-usdc";
     SolanaActions.start := 1000;
     SolanaActions.depositedAmount := 1000;
     SolanaActions.period := 100;
     SolanaActions.amountPerPeriod := 50;
     SolanaActions.cliff := 1000;
     SolanaActions.cliffAmount := 100;
     SolanaActions.cancelableBySender := true;
     SolanaActions.cancelableByRecipient := false;
     SolanaActions.automaticWithdrawal := false;
     SolanaActions.transferableBySender := true;
     SolanaActions.transferableByRecipient := false;
     SolanaActions.canTopup := true;
     SolanaActions.name := "grant";
     SolanaActions.withdrawFrequency := 100 |}.

(** A ledger that holds [Stream1] and a damaged account [Stream2], and
    confirms every transaction. *)
Definition accountData (address : Solana.PublicKey)
  : Js.settled (option (list Byte.byte)) :=
  if String.eqb address "Stream1" then Js.Fulfilled (Some [Byte.x07])
  else if String.eqb address "Stream2" then Js.Fulfilled (Some [])
  else Js.Fulfilled None.

Definition decode (bytes : list Byte.byte)
  : completion Js.thrown SolanaActions.DecodedStream :=
  match bytes with
  | [_] => Returned stream
  | _ => Thrown (Js.ErrorValue (Js.PlainError "DecodeError"))
  end.

Definition confirm (t : SolanaActions.Transaction) : Js.settled string :=
  Js.Fulfilled "sig:1".

Definition rent (space : Z) : Js.settled Z := Js.Fulfilled (space * 6960).

Definition fresh : SolanaActions.world :=
  {| SolanaActions.generated := 0; SolanaActions.trace := [] |}.

Definition withdraw :=
  SolanaActions.withdraw Samples.programId Samples.treasury Samples.ata
    Samples.latestBlockhash confirm accountData decode.

Definition cancel :=
  SolanaActions.cancel Samples.programId Samples.treasury Samples.ata
    Samples.latestBlockhash confirm accountData decode.

Definition transfer :=
  SolanaActions.transfer Samples.programId Samples.ata
    Samples.latestBlockhash confirm accountData decode.

Definition topup :=
  SolanaActions.topup Samples.programId Samples.treasury Samples.withdrawor
    Samples.ata Samples.latestBlockhash confirm accountData decode.

Definition createUnchecked :=
  SolanaActions.createUnchecked Samples.programId Samples.treasury
    Samples.withdrawor Samples.feeOracle Samples.ata
    Samples.findProgramAddress Samples.generateKeypair
    Samples.latestBlockhash confirm rent.

End ActionSamples.

(* ================================================================== *)
(** * Properties *)
(* ================================================================== *)

(* ------------------------------------------------------------------ *)
(** ** Error wrapping *)
(* ------------------------------------------------------------------ *)

Module ErrorWrapperFacts.

Import Js Utils.

(** C5.  [handleContractError] forwards the value of an operation that
    resolves; when the operation rejects with an [Error] it rejects with
    a [ContractError] wrapping that error, carrying the code the
    callback returns when a callback is supplied (no code otherwise);
    when the operation rejects with a value that is not an [Error] it
    rejects with that same value. *)
Theorem handleContractError_cases
    (T : Type) (func : unit -> settled T)
    (callback : option (Error -> completion thrown (option string))) :
  (forall v, func tt = Fulfilled v ->
     handleContractError func callback = Fulfilled v)
  /\ (forall e, func tt = Rejected (ErrorValue e) ->
        match callback with
        | Some extractCode =>
            forall code, extractCode e = Returned code ->
              handleContractError func callback
              = Rejected (ErrorValue (ContractError e code))
        | None =>
            handleContractError func callback
            = Rejected (ErrorValue (ContractError e None))
        end)
  /\ (forall t, func tt = Rejected t -> instanceof_Error t = None ->
        handleContractError func callback = Rejected t).
Proof.
  unfold handleContractError.
  repeat split.
  - intros v Hv. now rewrite Hv.
  - intros e He. rewrite He. cbn.
    destruct callback as [cb|]; [|reflexivity].
    intros code Hcode. now rewrite Hcode.
  - intros t Ht Hne. rewrite Ht, Hne. reflexivity.
Qed.

Lemma handleContractError_cases_witness :
  handleContractError
    (fun _ => @Rejected nat (ErrorValue (PlainError "insufficient funds")))
    (Some (fun _ => Returned (Some "E42"%string)))
  = Rejected (ErrorValue (ContractError (PlainError "insufficient funds")
                                        (Some "E42"%string)))
  /\ handleContractError
       (fun _ => @Rejected nat (OtherValue "aborted")) None
     = Rejected (OtherValue "aborted").
Proof.
  split.
  - exact (proj1 (proj2 (handleContractError_cases nat
             (fun _ => Rejected (ErrorValue (PlainError "insufficient funds")))
             (Some (fun _ => Returned (Some "E42"%string)))))
             (PlainError "insufficient funds") eq_refl
             (Some "E42"%string) eq_refl).
  - exact (proj2 (proj2 (handleContractError_cases nat
             (fun _ => Rejected (OtherValue "aborted")) None))
             (OtherValue "aborted") eq_refl eq_refl).
Defined.

End ErrorWrapperFacts.

(* ------------------------------------------------------------------ *)
(** ** The unlock schedule and the contract constructors *)
(* ------------------------------------------------------------------ *)

Module ContractFacts.

Local Open Scope Z_scope.

Lemma calculateUnlockedAmount_le (i : ContractUtils.UnlockInput) :
  0 <= ContractUtils.u_depositedAmount i ->
  ContractUtils.calculateUnlockedAmount i
  <= ContractUtils.u_depositedAmount i.
Proof.
  intros Hdep. unfold ContractUtils.calculateUnlockedAmount.
  destruct (ContractUtils.u_closed i || _)%bool; [lia|].
  destruct (_ <? ContractUtils.u_cliff i); [lia|].
  destruct (ContractUtils.u_period i =? 0); [lia|].
  apply Z.le_min_r.
Qed.

(** C8.  For every stream with a non-negative deposit (amounts are
    unsigned on the ledger) and every timestamp, however large, the
    unlocked amount is at most the deposited amount, for the Aptos
    [Contract] and for the [EvmContract]. *)
Theorem unlocked_le_depositedAmount :
  (forall (c : Aptos.Contract) (t : Z),
      0 <= Aptos.depositedAmount c ->
      Aptos.unlocked c t <= Aptos.depositedAmount c)
  /\ (forall (c : Evm.EvmContract) (t : Z),
        0 <= Evm.depositedAmount c ->
        Evm.unlocked c t <= Evm.depositedAmount c).
Proof.
  split; intros c t Hdep.
  - unfold Aptos.unlocked, ContractUtils.calculateUnlocked.
    now apply (calculateUnlockedAmount_le
                 {| ContractUtils.u_depositedAmount := Aptos.depositedAmount c;
                    ContractUtils.u_cliff := _ |}).
  - unfold Evm.unlocked.
    now apply (calculateUnlockedAmount_le
                 {| ContractUtils.u_depositedAmount := Evm.depositedAmount c;
                    ContractUtils.u_cliff := _ |}).
Qed.

Example scenario_unlocks :
  map (fun now => ContractUtils.calculateUnlockedAmount (Samples.scenario now))
      [999; 1000; 1250; 10000]
  = [0; 100; 200; 1000].
Proof. reflexivity. Qed.

Lemma unlocked_le_depositedAmount_witness :
  match Samples.aptos_contract, Samples.evm_contract with
  | Some a, Returned e =>
      Aptos.unlocked a (10 ^ 18) <= Aptos.depositedAmount a
      /\ Evm.unlocked e (10 ^ 18) <= Evm.depositedAmount e
  | _, _ => False
  end.
Proof.
  cbv delta [Samples.aptos_contract Samples.evm_contract]. cbv beta iota.
  split.
  - apply (proj1 unlocked_le_depositedAmount). vm_compute. discriminate.
  - apply (proj2 unlocked_le_depositedAmount). vm_compute. discriminate.
Defined.

Ltac options :=
  repeat match goal with
         | H : Aptos.obind ?o _ = Some _ |- _ =>
             let E := fresh "E" in
             destruct o eqn:E; [cbn [Aptos.obind] in H | discriminate H]
         end.

Ltac completions :=
  repeat match goal with
         | H : bind ?o _ = Returned _ |- _ =>
             let E := fresh "E" in
             destruct o eqn:E; [cbn [bind] in H | discriminate H]
         end.

(** C10.  A [Contract] built from an Aptos [StreamResource] and an
    [EvmContract] built from a [StreamAbiResult] have their [cliff]
    equal to their [start] (both read the backend's [start]; no cliff
    timestamp of the backend is read), while [cliffAmount] is the
    backend's [cliff_amount]. *)
Theorem constructed_cliff_is_start :
  (forall stream tokenId c,
      Aptos.new_Contract stream tokenId = Some c ->
      Aptos.cliff c = Aptos.start c
      /\ Some (Aptos.start c) = Aptos.parseInt_Z (Aptos.res_start stream)
      /\ Some (Aptos.cliffAmount c)
         = JsString.BN_of_string (Aptos.cliff_amount stream))
  /\ (forall buildStreamType stream c,
        Evm.new_EvmContract buildStreamType stream = Returned c ->
        Evm.cliff c = Evm.start c
        /\ Returned (Evm.start c) = Evm.toNumber (Evm.abi_start stream)
        /\ Evm.cliffAmount c = Evm.cliff_amount stream).
Proof.
  split.
  - intros stream tokenId c H. unfold Aptos.new_Contract in H.
    options. injection H as <-. cbn. repeat split; congruence.
  - intros bst stream c H. unfold Evm.new_EvmContract in H.
    completions. injection H as <-. cbn. repeat split; congruence.
Qed.

Lemma constructed_cliff_is_start_witness :
  (exists c,
      Aptos.new_Contract Samples.aptos_resource "0x1::aptos_coin::AptosCoin"
      = Some c
      /\ Aptos.cliff c = Aptos.start c /\ Aptos.cliffAmount c = 100)
  /\ (exists c,
        Evm.new_EvmContract Samples.vesting_only Samples.evm_result
        = Returned c
        /\ Evm.cliff c = Evm.start c /\ Evm.cliffAmount c = 100).
Proof.
  split.
  - destruct (Aptos.new_Contract Samples.aptos_resource
                "0x1::aptos_coin::AptosCoin") as [c|] eqn:E;
      [|vm_compute in E; discriminate E].
    exists c. split; [reflexivity|].
    destruct (proj1 constructed_cliff_is_start _ _ _ E) as (H1 & _ & H3).
    split; [exact H1|].
    vm_compute in H3. now injection H3.
  - destruct (Evm.new_EvmContract Samples.vesting_only Samples.evm_result)
      as [c|t] eqn:E; [|vm_compute in E; discriminate E].
    exists c. split; [reflexivity|].
    destruct (proj2 constructed_cliff_is_start _ _ _ E) as (H1 & _ & H3).
    split; [exact H1|]. rewrite H3. reflexivity.
Defined.

End ContractFacts.

(* ------------------------------------------------------------------ *)
(** ** Objects as maps, sorting *)
(* ------------------------------------------------------------------ *)

Module CollectionFacts.

Import Solana.

Section Assign.

Context {V : Type}.

Lemma assign_In_key (o : list (string * V)) k v k' :
  In k' (map fst (assign o k v)) <-> k' = k \/ In k' (map fst o).
Proof.
  induction o as [|[k0 v0] rest IH]; cbn.
  - intuition.
  - destruct (String.eqb_spec k0 k) as [->|Hne]; cbn.
    + intuition.
    + rewrite IH. intuition.
Qed.

Lemma assign_NoDup (o : list (string * V)) k v :
  NoDup (map fst o) -> NoDup (map fst (assign o k v)).
Proof.
  induction o as [|[k0 v0] rest IH]; cbn; intros Hnd.
  - constructor; [intros []|constructor].
  - inversion Hnd as [|? ? Hnotin Hrest]; subst.
    destruct (String.eqb_spec k0 k) as [->|Hne]; cbn.
    + now constructor.
    + constructor; [|now apply IH].
      rewrite assign_In_key. intros [->|Hin]; [now apply Hne|now apply Hnotin].
Qed.

End Assign.

Section Sort.

Context {A : Type}.
Variable key : A -> Z.
Variable compare : A -> A -> Z.
Hypothesis compare_key : forall x y, compare x y = (key y - key x)%Z.

Lemma sort_insert_perm (x : A) (l : list A) :
  Permutation (sort_insert compare x l) (x :: l).
Proof.
  induction l as [|y rest IH]; cbn; [reflexivity|].
  destruct (compare y x <=? 0)%Z.
  - rewrite IH. apply perm_swap.
  - reflexivity.
Qed.


Lemma sort_perm (l : list A) : Permutation (sort compare l) l.
Proof.
  unfold sort. rewrite (Permutation_rev l) at 2.
  induction (rev l) as [|x rest IH]; cbn; [reflexivity|].
  rewrite sort_insert_perm. now constructor.
Qed.



End Sort.

Section SortUndefined.

Context {A : Type}.
Variable compare : A -> A -> Z.
Hypothesis compare_zero : forall x y, compare x y = 0%Z.



End SortUndefined.

Section Seen.

Context {V : Type}.


End Seen.


End CollectionFacts.

(* ------------------------------------------------------------------ *)
(** ** Solana client: [get] *)
(* ------------------------------------------------------------------ *)

Module StreamQueryFacts.

Import Js Solana CollectionFacts.
Local Open Scope string_scope.
Local Open Scope list_scope.

Section Get.

Variable programId : PublicKey.
Variables STREAM_STRUCT_OFFSET_SENDER STREAM_STRUCT_OFFSET_RECIPIENT : Z.
Variable Contract : Type.
Variable decodeStream : list Byte.byte -> completion thrown Contract.
Variable startTime : Contract -> option Z.
Variable canTopup : Contract -> bool.
Variable getProgramAccounts :
  PublicKey -> Z -> PublicKey -> completion thrown (list Account).

Let get :=
  Solana.get programId STREAM_STRUCT_OFFSET_SENDER
    STREAM_STRUCT_OFFSET_RECIPIENT Contract decodeStream startTime canTopup
    getProgramAccounts.

(** The accounts [get] fetches for a direction, in the order it decodes
    them. *)
Let fetched (wallet : PublicKey) (direction : StreamDirection)
  : completion thrown (list Account) :=
  match direction with
  | AllDirections =>
      outgoing <-
        getProgramAccounts wallet STREAM_STRUCT_OFFSET_SENDER programId ;;
      incoming <-
        getProgramAccounts wallet STREAM_STRUCT_OFFSET_RECIPIENT programId ;;
      Returned (outgoing ++ incoming)
  | Outgoing =>
      getProgramAccounts wallet STREAM_STRUCT_OFFSET_SENDER programId
  | Incoming =>
      getProgramAccounts wallet STREAM_STRUCT_OFFSET_RECIPIENT programId
  end.









End Get.



End StreamQueryFacts.

(* ------------------------------------------------------------------ *)
(** ** Solana client: [create] and [createMultiple] *)
(* ------------------------------------------------------------------ *)

Module StreamCreationFacts.

Import Js Solana.
Local Open Scope string_scope.
Local Open Scope list_scope.

Section Create.

Variable programId : PublicKey.
Variable STREAMFLOW_TREASURY_PUBLIC_KEY : PublicKey.
Variable WITHDRAWOR_PUBLIC_KEY : PublicKey.
Variable FEE_ORACLE_PUBLIC_KEY : PublicKey.
Variable ata : PublicKey -> PublicKey -> PublicKey.
Variable findProgramAddress : string -> PublicKey -> PublicKey -> PublicKey.
Variable generateKeypair : nat -> PublicKey.
Variable latestBlockhash : Blockhash.
Variable sendAndConfirmRawTransaction : Transaction -> settled string.
Variable settleOrder : nat -> list nat.

Let create :=
  Solana.create programId STREAMFLOW_TREASURY_PUBLIC_KEY
    WITHDRAWOR_PUBLIC_KEY FEE_ORACLE_PUBLIC_KEY ata findProgramAddress
    generateKeypair latestBlockhash sendAndConfirmRawTransaction.


End Create.















Section CreateMultiple.

Variable programId : PublicKey.
Variable STREAMFLOW_TREASURY_PUBLIC_KEY : PublicKey.
Variable WITHDRAWOR_PUBLIC_KEY : PublicKey.
Variable FEE_ORACLE_PUBLIC_KEY : PublicKey.
Variable ata : PublicKey -> PublicKey -> PublicKey.
Variable findProgramAddress : string -> PublicKey -> PublicKey -> PublicKey.
Variable generateKeypair : nat -> PublicKey.
Variable latestBlockhash : Blockhash.
Variable sendAndConfirmRawTransaction : Transaction -> settled string.
Variable settleOrder : nat -> list nat.

Let prepare_all :=
  Solana.prepare_all programId STREAMFLOW_TREASURY_PUBLIC_KEY
    WITHDRAWOR_PUBLIC_KEY FEE_ORACLE_PUBLIC_KEY ata findProgramAddress
    generateKeypair latestBlockhash.

Let createMultiple :=
  Solana.createMultiple programId STREAMFLOW_TREASURY_PUBLIC_KEY
    WITHDRAWOR_PUBLIC_KEY FEE_ORACLE_PUBLIC_KEY ata findProgramAddress
    generateKeypair latestBlockhash sendAndConfirmRawTransaction settleOrder.

Let send := sendAndConfirmStreamRawTransaction sendAndConfirmRawTransaction.

Let creates_stream := Solana.creates_stream programId.












End CreateMultiple.


End StreamCreationFacts.

(* ================================================================== *)
(** ** Facts of binary64 rounding and of [Number::toString] *)
(* ================================================================== *)

Module NumberFacts.

Import JsNumber Roundoff.
Local Open Scope Q_scope.

Lemma pow2_pos e : 0 < pow2 e.
Proof. unfold pow2. apply Qpower_0_lt. reflexivity. Qed.

Lemma pow10_pos e : 0 < pow10 e.
Proof. unfold pow10. apply Qpower_0_lt. reflexivity. Qed.

Lemma pow2_add a b : pow2 (a + b) == pow2 a * pow2 b.
Proof. unfold pow2. apply Qpower_plus. discriminate. Qed.

Lemma pow10_add a b : pow10 (a + b) == pow10 a * pow10 b.
Proof. unfold pow10. apply Qpower_plus. discriminate. Qed.

Lemma pow2_inject (n : Z) : (0 <= n)%Z -> pow2 n == inject_Z (2 ^ n).
Proof. intros Hn. unfold pow2. now rewrite Zpower_Qpower. Qed.

Lemma pow2_le a b : (a <= b)%Z -> pow2 a <= pow2 b.
Proof.
  intros Hab. unfold pow2. apply Qpower_le_compat_l; [exact Hab|].
  discriminate.
Qed.

(** floor(log2) of a positive rational *)
Lemma ilog2_spec x : 0 < x -> pow2 (ilog2 x) <= x /\ x < pow2 (ilog2 x + 1).
Proof.
  intros Hx. unfold ilog2.
  assert (Hr : Qred x == x) by apply Qred_correct.
  set (r := Qred x) in *.
  assert (Hrpos : 0 < r) by (rewrite Hr; exact Hx).
  destruct r as [p q]. cbn [Qnum Qden].
  assert (Hp : (0 < p)%Z).
  { unfold Qlt in Hrpos. cbn in Hrpos. lia. }
  set (t := (Z.log2 p - Z.log2 (Z.pos q))%Z).
  pose proof (Z.log2_spec p Hp) as [Hp1 Hp2].
  pose proof (Z.log2_spec (Z.pos q) eq_refl) as [Hq1 Hq2].
  pose proof (Z.log2_nonneg p) as Hlp.
  pose proof (Z.log2_nonneg (Z.pos q)) as Hlq.
  (* 2^(t-1) < p/q < 2^(t+1) *)
  assert (Hlow : pow2 (t - 1) <= p # q).
  { assert (E : pow2 (t - 1) * pow2 (Z.log2 (Z.pos q) + 1) == pow2 (Z.log2 p)).
    { rewrite <- pow2_add. unfold t. 
      replace (Z.log2 p - Z.log2 (Z.pos q) - 1 + (Z.log2 (Z.pos q) + 1))%Z
        with (Z.log2 p) by lia. reflexivity. }
    assert (Hq3 : inject_Z (Z.pos q) <= pow2 (Z.log2 (Z.pos q) + 1)).
    { rewrite pow2_inject by lia. rewrite <- Zle_Qle.
      change (Z.succ (Z.log2 (Z.pos q))) with (Z.log2 (Z.pos q) + 1)%Z in Hq2.
      unfold Z.succ in Hq2. lia. }
    assert (Hp3 : pow2 (Z.log2 p) <= inject_Z p).
    { rewrite pow2_inject by lia. now rewrite <- Zle_Qle. }
    assert (Hpq : (p # q) * inject_Z (Z.pos q) == inject_Z p).
    { unfold Qeq, inject_Z. cbn. lia. }
    pose proof (pow2_pos (t - 1)) as H1.
    pose proof (pow2_pos (Z.log2 (Z.pos q) + 1)) as H2.
    assert (Hqpos : 0 < inject_Z (Z.pos q)) by reflexivity.
    apply Qnot_lt_le. intros Hlt.
    assert ((p # q) * inject_Z (Z.pos q) < pow2 (t - 1) * pow2 (Z.log2 (Z.pos q) + 1)).
    { apply Qlt_le_trans with (pow2 (t - 1) * inject_Z (Z.pos q)).
      - apply Qmult_lt_compat_r; assumption.
      - rewrite !(Qmult_comm (pow2 (t - 1))). apply Qmult_le_compat_r; [assumption|]. now apply Qlt_le_weak. }
    rewrite E, Hpq in H. apply (Qlt_not_le _ _ H). exact Hp3. }
  assert (Hhigh : (p # q) < pow2 (t + 1)).
  { assert (E : pow2 (t + 1) * pow2 (Z.log2 (Z.pos q)) == pow2 (Z.log2 p + 1)).
    { rewrite <- pow2_add. unfold t.
      replace (Z.log2 p - Z.log2 (Z.pos q) + 1 + Z.log2 (Z.pos q))%Z
        with (Z.log2 p + 1)%Z by lia. reflexivity. }
    assert (Hq3 : pow2 (Z.log2 (Z.pos q)) <= inject_Z (Z.pos q)).
    { rewrite pow2_inject by lia. now rewrite <- Zle_Qle. }
    assert (Hp3 : inject_Z p < pow2 (Z.log2 p + 1)).
    { rewrite pow2_inject by lia. rewrite <- Zlt_Qlt.
      unfold Z.succ in Hp2. lia. }
    assert (Hpq : (p # q) * inject_Z (Z.pos q) == inject_Z p).
    { unfold Qeq, inject_Z. cbn. lia. }
    pose proof (pow2_pos (t + 1)) as H1.
    pose proof (pow2_pos (Z.log2 (Z.pos q))) as H2.
    apply Qnot_le_lt. intros Hle.
    assert (pow2 (t + 1) * pow2 (Z.log2 (Z.pos q)) <= (p # q) * inject_Z (Z.pos q)).
    { apply Qle_trans with ((p # q) * pow2 (Z.log2 (Z.pos q))).
      - apply Qmult_le_compat_r; [assumption|now apply Qlt_le_weak].
      - rewrite !(Qmult_comm (p # q)). apply Qmult_le_compat_r; [assumption|]. now apply Qlt_le_weak. }
    rewrite E, Hpq in H. apply (Qle_not_lt _ _ H). exact Hp3. }
  destruct (Qle_bool (pow2 t) (p # q)) eqn:Hb.
  - apply Qle_bool_iff in Hb. rewrite <- Hr. split; assumption.
  - assert (Hlt : (p # q) < pow2 t).
    { apply Qnot_le_lt. intros Hle. apply Qle_bool_iff in Hle. congruence. }
    rewrite <- Hr. replace (t - 1 + 1)%Z with t by lia. split; assumption.
Qed.

Lemma round_half_even_err y :
  Qabs (inject_Z (round_half_even y) - y) <= 1 # 2.
Proof.
  unfold round_half_even.
  pose proof (Qfloor_le y) as Hlo.
  pose proof (Qlt_floor y) as Hhi.
  rewrite inject_Z_plus in Hhi. change (inject_Z 1) with 1 in Hhi.
  apply Qabs_Qle_condition.
  destruct (Qcompare_spec (y - inject_Z (Qfloor y)) (1 # 2)) as [E|L|G].
  - destruct (Z.even (Qfloor y)); rewrite ?inject_Z_plus;
      change (inject_Z 1) with 1; split; lra.
  - split; lra.
  - rewrite inject_Z_plus. change (inject_Z 1) with 1. split; lra.
Qed.


Lemma fl_abs_err a :
  0 < a -> Qabs (fl_abs a - a) <= u53 * a + eta.
Proof.
  intros Ha. unfold fl_abs.
  set (e := Z.max (ilog2 a - 52) (-1074)).
  pose proof (pow2_pos e) as He.
  pose proof (round_half_even_err (a / pow2 e)) as Hr.
  set (m := inject_Z (round_half_even (a / pow2 e))) in *.
  assert (Herr : Qabs (m * pow2 e - a) <= (1 # 2) * pow2 e).
  { assert (E : m * pow2 e - a == (m - a / pow2 e) * pow2 e).
    { field. intros H0. rewrite H0 in He. discriminate. }
    rewrite E, Qabs_Qmult, (Qabs_pos (pow2 e)) by lra.
    apply Qmult_le_compat_r; lra. }
  eapply Qle_trans; [exact Herr|].
  destruct (ilog2_spec a Ha) as [Hlo _].
  pose proof (pow2_pos (-53)) as Hu. pose proof (pow2_pos (-1075)) as Heta.
  unfold u53, eta.
  destruct (Z.max_spec (ilog2 a - 52) (-1074)) as [[_ E]|[_ E]];
    fold e in E; rewrite E.
  - assert (E2 : (1 # 2) * pow2 (-1074) == pow2 (-1075)) by reflexivity.
    rewrite E2.
    assert (0 <= pow2 (-53) * a) by (apply Qmult_le_0_compat; lra).
    lra.
  - assert (E2 : (1 # 2) * pow2 (ilog2 a - 52) == pow2 (-53) * pow2 (ilog2 a)).
    { replace (ilog2 a - 52)%Z with (-52 + ilog2 a)%Z by lia.
      rewrite pow2_add.
      assert (E3 : (1 # 2) * pow2 (-52) == pow2 (-53)) by reflexivity.
      rewrite <- E3. ring. }
    rewrite E2.
    assert (pow2 (-53) * pow2 (ilog2 a) <= pow2 (-53) * a).
    { rewrite !(Qmult_comm (pow2 (-53))). apply Qmult_le_compat_r; lra. }
    lra.
Qed.

Lemma fl_abs_nonneg a : 0 < a -> 0 <= fl_abs a.
Proof.
  intros Ha. unfold fl_abs.
  set (e := Z.max (ilog2 a - 52) (-1074)).
  pose proof (pow2_pos e) as He.
  apply Qmult_le_0_compat; [|lra].
  replace 0 with (inject_Z 0) by reflexivity. rewrite <- Zle_Qle.
  unfold round_half_even.
  assert (0 <= Qfloor (a / pow2 e))%Z.
  { replace 0%Z with (Qfloor 0) by reflexivity. apply Qfloor_resp_le.
    apply Qle_shift_div_l; lra. }
  destruct (Qcompare _ _); [destruct (Z.even _)| |]; lia.
Qed.

Lemma num_eq a y : num a = Num y -> y = Qred a.
Proof. unfold num. now intros [= <-]. Qed.

(** A finite result of [fl] is within half an ulp of its argument. *)
Lemma fl_Num_err x y :
  fl x = Num y -> Qabs (y - x) <= u53 * Qabs x + eta.
Proof.
  unfold fl.
  pose proof (pow2_pos (-1075)) as Heta. fold eta in Heta.
  destruct (Qcompare_spec x 0) as [E|L|G].
  - intros H. apply num_eq in H. subst y. rewrite E.
    assert (E1 : Qabs (Qred 0 - 0) == 0) by reflexivity.
    assert (E2 : Qabs 0 == 0) by reflexivity.
    rewrite E1, E2. lra.
  - cbv zeta. destruct (Qle_bool _ _); [discriminate|]. intros H.
    apply num_eq in H. subst y.
    rewrite Qred_correct.
    assert (Hx : 0 < - x) by lra.
    pose proof (fl_abs_err (- x) Hx) as H.
    rewrite (Qabs_neg x) by lra.
    assert (E : - fl_abs (- x) - x == - (fl_abs (- x) - - x)) by ring.
    rewrite E, Qabs_opp. exact H.
  - cbv zeta. destruct (Qle_bool _ _); [discriminate|]. intros H.
    apply num_eq in H. subst y.
    rewrite Qred_correct. rewrite (Qabs_pos x) by lra.
    now apply fl_abs_err.
Qed.

Lemma u53_small : u53 <= 1 # 1000000000000000.
Proof. unfold u53. vm_compute. discriminate. Qed.

Lemma u53_pos : 0 < u53.
Proof. apply pow2_pos. Qed.

Lemma eta_pos : 0 < eta.
Proof. apply pow2_pos. Qed.

Lemma eta_small : eta <= 1 # 1000000000000000000000000000000000000000000000000.
Proof. unfold eta. vm_compute. discriminate. Qed.

Lemma pow2_1023_large : 4 <= pow2 1023.
Proof. vm_compute. discriminate. Qed.

Lemma pow2_1024_double : pow2 1024 == 2 * pow2 1023.
Proof. reflexivity. Qed.

Lemma fl_abs_finite a :
  0 < a -> a <= pow2 1023 -> Qle_bool (pow2 1024) (fl_abs a) = false.
Proof.
  intros Ha Hle.
  destruct (Qle_bool (pow2 1024) (fl_abs a)) eqn:Hb; [|reflexivity].
  exfalso. apply Qle_bool_iff in Hb.
  pose proof (fl_abs_err a Ha) as Herr.
  apply Qabs_Qle_condition in Herr as [_ Hup].
  pose proof u53_small. pose proof eta_small. pose proof pow2_1023_large.
  rewrite pow2_1024_double in Hb.
  assert (u53 * a <= (1 # 1000000000000000) * a).
  { apply Qmult_le_compat_r; lra. }
  lra.
Qed.

Lemma fl_finite x :
  Qabs x <= pow2 1023 -> exists y, fl x = Num y.
Proof.
  intros Hx. unfold fl.
  destruct (Qcompare_spec x 0) as [E|L|G].
  - now eexists.
  - cbv zeta. rewrite fl_abs_finite; [now eexists|lra|].
    rewrite <- (Qabs_neg x) by lra. exact Hx.
  - cbv zeta. rewrite fl_abs_finite; [now eexists|lra|].
    rewrite <- (Qabs_pos x) by lra. exact Hx.
Qed.

Lemma fl_finite_err x :
  Qabs x <= pow2 1023 ->
  exists y, fl x = Num y /\ Qabs (y - x) <= u53 * Qabs x + eta.
Proof.
  intros Hx. destruct (fl_finite x Hx) as [y Hy].
  exists y. split; [exact Hy|]. now apply fl_Num_err.
Qed.

(** [Math.trunc] *)
Lemma trunc_Q_nonneg q :
  0 <= q -> 0 <= inject_Z (trunc_Q q) <= q /\ q - inject_Z (trunc_Q q) < 1.
Proof.
  intros Hq. unfold trunc_Q.
  assert (Hb : Qle_bool 0 q = true) by now apply Qle_bool_iff.
  rewrite Hb.
  pose proof (Qfloor_le q). pose proof (Qlt_floor q) as Hlt.
  rewrite inject_Z_plus in Hlt. change (inject_Z 1) with 1 in Hlt.
  assert (0 <= Qfloor q)%Z.
  { replace 0%Z with (Qfloor 0) by reflexivity. now apply Qfloor_resp_le. }
  assert (0 <= inject_Z (Qfloor q)).
  { replace 0 with (inject_Z 0) by reflexivity. now rewrite <- Zle_Qle. }
  repeat split; lra.
Qed.

Lemma trunc_Q_neg q :
  q < 0 -> q <= inject_Z (trunc_Q q) <= 0 /\ inject_Z (trunc_Q q) - q < 1.
Proof.
  intros Hq. unfold trunc_Q.
  assert (Hb : Qle_bool 0 q = false).
  { destruct (Qle_bool 0 q) eqn:Hb; [|reflexivity].
    apply Qle_bool_iff in Hb. lra. }
  rewrite Hb.
  pose proof (Qle_ceiling q). pose proof (Qceiling_lt q) as Hlt.
  unfold Z.sub in Hlt. rewrite inject_Z_plus in Hlt.
  change (inject_Z (- (1))%Z) with (- (1))%Q in Hlt.
  assert (Qceiling q <= 0)%Z.
  { replace 0%Z with (Qceiling 0) by reflexivity.
    apply Qceiling_resp_le. lra. }
  assert (inject_Z (Qceiling q) <= 0).
  { replace 0 with (inject_Z 0) by reflexivity. now rewrite <- Zle_Qle. }
  repeat split; lra.
Qed.

(** The fractional part and the integer part have the sign of the
    value; their magnitudes add up to its magnitude. *)
Lemma trunc_Q_abs q :
  Qabs (inject_Z (trunc_Q q)) + Qabs (q - inject_Z (trunc_Q q)) == Qabs q
  /\ Qabs (q - inject_Z (trunc_Q q)) < 1.
Proof.
  destruct (Qlt_le_dec q 0) as [Hneg|Hpos].
  - destruct (trunc_Q_neg q Hneg) as [[H1 H2] H3].
    rewrite (Qabs_neg q), (Qabs_neg (inject_Z _)), (Qabs_neg (q - _)) by lra.
    split; [ring|lra].
  - destruct (trunc_Q_nonneg q Hpos) as [[H1 H2] H3].
    rewrite (Qabs_pos q), (Qabs_pos (inject_Z _)), (Qabs_pos (q - _)) by lra.
    split; [ring|lra].
Qed.

(** From an error relative to the approximation to an error relative to
    the exact value. *)
Lemma rel_flip a b :
  Qabs (a - b) <= u53 * Qabs a + eta ->
  Qabs (a - b) <= 2 * u53 * Qabs b + 2 * eta.
Proof.
  intros H.
  pose proof (Qabs_nonneg (a - b)) as Hd.
  pose proof u53_small as Hu. pose proof u53_pos as Hu0.
  assert (Ht : Qabs a <= Qabs b + Qabs (a - b)).
  { assert (E : a == b + (a - b)) by ring.
    rewrite E at 1. apply Qabs_triangle. }
  assert (H1 : u53 * Qabs a <= u53 * (Qabs b + Qabs (a - b))).
  { rewrite !(Qmult_comm u53). apply Qmult_le_compat_r; lra. }
  assert (H2 : u53 * Qabs (a - b) <= (1 # 2) * Qabs (a - b)).
  { apply Qmult_le_compat_r; lra. }
  rewrite Qmult_plus_distr_r in H1.
  assert (E3 : 2 * u53 * Qabs b == 2 * (u53 * Qabs b)) by ring.
  rewrite E3. lra.
Qed.

Lemma round_trips_err x c :
  round_trips x c = true -> Qabs (c - x) <= u53 * Qabs c + eta.
Proof.
  unfold round_trips. destruct (fl c) as [y| |] eqn:E; try discriminate.
  intros Hy. apply Qeq_bool_iff in Hy.
  apply fl_Num_err in E. rewrite Hy in E.
  now rewrite Qabs_Qminus.
Qed.

Lemma shortest_at_err x n k c :
  shortest_at x n k = Some c -> Qabs (c - x) <= u53 * Qabs c + eta.
Proof.
  unfold shortest_at.
  set (lo := inject_Z _ * _). set (hi := inject_Z _ * _).
  destruct (round_trips x lo) eqn:Hlo, (round_trips x hi) eqn:Hhi;
    intros [= <-]; try (now apply round_trips_err).
  unfold closest.
  destruct (Qcompare _ _); [destruct (Z.even _)| |];
    now apply round_trips_err.
Qed.

Lemma shortest_from_err digits x :
  forall n k,
    Qabs (shortest_from digits x n k - x)
    <= u53 * Qabs (shortest_from digits x n k) + eta.
Proof.
  pose proof u53_pos. pose proof eta_pos.
  induction digits as [|more IH]; intros n k; cbn [shortest_from].
  - assert (E : Qabs (x - x) == 0).
    { assert (E0 : x - x == 0) by ring. now rewrite E0. }
    rewrite E. pose proof (Qabs_nonneg x).
    assert (0 <= u53 * Qabs x) by (apply Qmult_le_0_compat; lra). lra.
  - destruct (shortest_at x n k) as [c|] eqn:E.
    + now apply (shortest_at_err x n k).
    + apply IH.
Qed.

(** The decimal printed for [x] is within an ulp of [x]. *)
Lemma to_decimal_err x :
  Qabs (to_decimal x - x) <= 2 * u53 * Qabs x + 2 * eta.
Proof.
  apply rel_flip. unfold to_decimal.
  pose proof u53_pos. pose proof eta_pos.
  destruct (Qcompare_spec x 0) as [E|L|G].
  - rewrite E. 
    assert (E1 : Qabs (0 - 0) == 0) by reflexivity.
    assert (E2 : Qabs 0 == 0) by reflexivity.
    rewrite E1, E2. lra.
  - pose proof (shortest_from_err 17 (- x) (ilog10 (- x) + 1) 1) as H1.
    set (c := shortest_from _ _ _ _) in *.
    assert (E : - c - x == - (c - - x)) by ring.
    rewrite E, !Qabs_opp. exact H1.
  - apply shortest_from_err.
Qed.

End NumberFacts.

(* ================================================================== *)
(** ** Facts of [getBN] and [getNumberFromBN] *)
(* ================================================================== *)

Module AmountFacts.

Import JsNumber BigNumber Utils Roundoff NumberFacts.
Local Open Scope Q_scope.

Lemma round_half_up_err y :
  Qabs (inject_Z (round_half_up y) - y) <= 1 # 2.
Proof.
  unfold round_half_up. apply Qabs_Qle_condition.
  destruct (Qle_bool 0 y).
  - pose proof (Qfloor_le (y + (1 # 2))) as Hlo.
    pose proof (Qlt_floor (y + (1 # 2))) as Hhi.
    rewrite inject_Z_plus in Hhi. change (inject_Z 1) with 1 in Hhi.
    split; lra.
  - pose proof (Qfloor_le (- y + (1 # 2))) as Hlo.
    pose proof (Qlt_floor (- y + (1 # 2))) as Hhi.
    rewrite inject_Z_plus in Hhi. change (inject_Z 1) with 1 in Hhi.
    rewrite inject_Z_opp. split; lra.
Qed.

Lemma round_half_up_proper y y' :
  y == y' -> round_half_up y = round_half_up y'.
Proof.
  intros H. unfold round_half_up. rewrite H.
  destruct (Qle_bool 0 y'); now rewrite H.
Qed.

Lemma round_dp_proper q q' : q == q' -> round_dp q == round_dp q'.
Proof.
  intros H. unfold round_dp.
  rewrite (round_half_up_proper (q * pow10 DECIMAL_PLACES)
             (q' * pow10 DECIMAL_PLACES)); [reflexivity|].
  now rewrite H.
Qed.


Lemma round_dp_err q : Qabs (round_dp q - q) <= half_dp.
Proof.
  unfold round_dp, half_dp.
  pose proof (pow10_pos DECIMAL_PLACES) as Hp.
  pose proof (round_half_up_err (q * pow10 DECIMAL_PLACES)) as Hr.
  set (m := inject_Z _) in *.
  assert (E : m / pow10 DECIMAL_PLACES - q
              == (m - q * pow10 DECIMAL_PLACES) * pow10 (- DECIMAL_PLACES)).
  { unfold pow10 at 3. rewrite Qpower_opp. fold (pow10 DECIMAL_PLACES).
    field. intros H0. rewrite H0 in Hp. discriminate. }
  rewrite E, Qabs_Qmult.
  rewrite (Qabs_pos (pow10 (- DECIMAL_PLACES)))
    by (apply Qlt_le_weak, pow10_pos).
  apply Qmult_le_compat_r; [exact Hr|apply Qlt_le_weak, pow10_pos].
Qed.

(** The result of a division has at most [DECIMAL_PLACES] decimals. *)
Lemma round_dp_decimals q :
  round_dp q * pow10 DECIMAL_PLACES
  == inject_Z (round_half_up (q * pow10 DECIMAL_PLACES)).
Proof.
  unfold round_dp. pose proof (pow10_pos DECIMAL_PLACES) as Hp.
  field. intros H0. rewrite H0 in Hp. discriminate.
Qed.

Lemma of_number_Num q :
  exists b, of_number (Num q) = Big b
            /\ Qabs (b - q) <= 2 * u53 * Qabs q + 2 * eta.
Proof.
  pose proof u53_pos. pose proof eta_pos.
  unfold of_number, big. destruct (is_int32 q).
  - eexists. split; [reflexivity|]. rewrite Qred_correct.
    assert (E : Qabs (q - q) == 0).
    { assert (E0 : q - q == 0) by ring. now rewrite E0. }
    rewrite E. pose proof (Qabs_nonneg q).
    assert (0 <= 2 * u53 * Qabs q).
    { apply Qmult_le_0_compat; lra. }
    lra.
  - eexists. split; [reflexivity|]. rewrite Qred_correct.
    apply to_decimal_err.
Qed.

Lemma is_integer_Qeq q (z : Z) : q == inject_Z z -> is_integer q = true.
Proof.
  intros H. unfold is_integer. apply Qeq_bool_iff.
  rewrite (Qfloor_comp _ _ H), Qfloor_Z. now rewrite H.
Qed.

Lemma is_int32_inject d :
  (- 2 ^ 31 <= d <= 2 ^ 31 - 1)%Z -> is_int32 (Qred (inject_Z d)) = true.
Proof.
  intros Hd. unfold is_int32.
  pose proof (Qred_correct (inject_Z d)) as Hr.
  fold (is_integer (Qred (inject_Z d))).
  rewrite (is_integer_Qeq _ d Hr). cbn [andb].
  apply andb_true_intro. split; apply Qle_bool_iff; rewrite Hr.
  - rewrite <- inject_Z_opp, <- Zle_Qle. lia.
  - rewrite <- Zle_Qle. lia.
Qed.

Lemma of_number_int32 d :
  (- 2 ^ 31 <= d <= 2 ^ 31 - 1)%Z ->
  of_number (num (inject_Z d)) = big (inject_Z d).
Proof.
  intros Hd. unfold of_number, num. rewrite is_int32_inject by exact Hd.
  unfold big. f_equal. apply Qred_complete, Qred_correct.
Qed.

Lemma is_integer_inject d : is_integer (Qred (inject_Z d)) = true.
Proof.
  apply (is_integer_Qeq _ d), Qred_correct.
Qed.

Lemma ten_pow_nonneg d :
  (0 <= d)%Z -> ten_pow (big (inject_Z d)) = Returned (big (pow10 d)).
Proof.
  intros Hd. unfold ten_pow, big.
  rewrite is_integer_inject, Qred_correct, Qfloor_Z.
  destruct d; try reflexivity. lia.
Qed.

Lemma ten_pow_neg d :
  (d < 0)%Z ->
  ten_pow (big (inject_Z d)) = Returned (big (round_dp (1 / pow10 (- d)))).
Proof.
  intros Hd. unfold ten_pow, big.
  rewrite is_integer_inject, Qred_correct, Qfloor_Z.
  destruct d; try lia. reflexivity.
Qed.

Lemma of_number_1e9 : of_number _1e9 = Big (inject_Z 1000000000).
Proof. reflexivity. Qed.

Lemma big_eq q q' : q == q' -> big q = big q'.
Proof. intros H. unfold big. f_equal. now apply Qred_complete. Qed.

Lemma pow2_1023_ge_1e10 : 10000000000 <= pow2 1023.
Proof. vm_compute. discriminate. Qed.

(** The fractional part and the nano-units of a finite value are finite
    doubles. *)
Lemma nano_units_finite v :
  exists f n,
    JsNumber.sub (Num v) (trunc (Num v)) = Num f
    /\ JsNumber.mul (Num f) _1e9 = Num n
    /\ Qabs (f - (v - inject_Z (trunc_Q v)))
       <= u53 * Qabs (v - inject_Z (trunc_Q v)) + eta
    /\ Qabs (n - f * 1000000000) <= u53 * Qabs (f * 1000000000) + eta.
Proof.
  pose proof u53_small as Hu. pose proof u53_pos as Hu0.
  pose proof eta_small as He. pose proof eta_pos as He0.
  pose proof pow2_1023_ge_1e10 as Hbig.
  destruct (trunc_Q_abs v) as [Hsum Hfrac].
  set (F := v - inject_Z (trunc_Q v)) in *.
  assert (HF : Qabs (v - Qred (inject_Z (trunc_Q v))) <= pow2 1023).
  { rewrite Qred_correct. fold F. lra. }
  destruct (fl_finite_err _ HF) as (f & Hf & Hferr).
  rewrite Qred_correct in Hferr. fold F in Hferr.
  assert (Hfabs : Qabs f <= 2).
  { assert (Ht : Qabs f <= Qabs F + Qabs (f - F)).
    { assert (E : f == F + (f - F)) by ring.
      rewrite E at 1. apply Qabs_triangle. }
    assert (u53 * Qabs F <= (1 # 1000000000000000) * Qabs F).
    { apply Qmult_le_compat_r; [lra|apply Qabs_nonneg]. }
    lra. }
  assert (Hn : Qabs (f * Qred (inject_Z 1000000000)) <= pow2 1023).
  { rewrite Qred_correct, Qabs_Qmult.
    assert (E : Qabs (inject_Z 1000000000) == 1000000000) by reflexivity.
    rewrite E. lra. }
  destruct (fl_finite_err _ Hn) as (n & Hnum & Hnerr).
  rewrite Qred_correct in Hnerr.
  exists f, n. repeat split; assumption.
Qed.

(** C1, as amended.  For a finite [value] and an integer [decimals]
    from 0 to 10^6, [getBN] returns
    [(I * 10^9 + N) * 10^decimals / 10^9] rounded half up to
    [DECIMAL_PLACES] decimals, where [I] is the BigNumber of
    [Math.trunc(value)] and [N] the BigNumber of the double
    [(value - Math.trunc(value)) * 1e9]: the sum and the product are
    exact, [N] is not rounded to an integer and neither is the result. *)
Theorem getBN_value v d :
  (0 <= d <= 10 ^ 6)%Z ->
  exists I N,
    of_number (trunc (Num v)) = Big I
    /\ of_number (JsNumber.mul (JsNumber.sub (Num v) (trunc (Num v))) _1e9)
       = Big N
    /\ getBN (Num v) (num (inject_Z d))
       = Returned
           (big (round_dp ((I * inject_Z (10 ^ 9) + N) * pow10 d
                           / inject_Z (10 ^ 9)))).
Proof.
  intros Hd.
  destruct (nano_units_finite v) as (f & n & Hf & Hn & _ & _).
  destruct (of_number_Num (Qred (inject_Z (trunc_Q v)))) as (I & HI & _).
  destruct (of_number_Num n) as (N & HN & _).
  exists I, N.
  change (trunc (Num v)) with (Num (Qred (inject_Z (trunc_Q v)))) in *.
  rewrite Hf, Hn. split; [exact HI|]. split; [exact HN|].
  unfold getBN.
  change (trunc (Num v)) with (Num (Qred (inject_Z (trunc_Q v)))).
  rewrite Hf, Hn, HI, HN, of_number_1e9.
  rewrite of_number_int32 by lia. rewrite ten_pow_nonneg by lia.
  cbn [bind times plus big BigNumber.div].
  assert (Hz : is_zero (inject_Z 1000000000) = false) by reflexivity.
  rewrite Hz. f_equal. apply big_eq, round_dp_proper.
  rewrite !Qred_correct. reflexivity.
Qed.

(** [getBN(1.5, 6)]: the parts are 1 and 500000000, the result 1500000. *)
Lemma getBN_value_witness :
  exists I N,
    of_number (trunc (Num (3 # 2))) = Big I
    /\ of_number
         (JsNumber.mul (JsNumber.sub (Num (3 # 2)) (trunc (Num (3 # 2)))) _1e9)
       = Big N
    /\ getBN (Num (3 # 2)) (num (inject_Z 6))
       = Returned
           (big (round_dp ((I * inject_Z (10 ^ 9) + N) * pow10 6
                           / inject_Z (10 ^ 9)))).
Proof. apply (getBN_value (3 # 2) 6). lia. Defined.

(** C1, as stated, fails: [getBN(2^-10, 9)] is 976562.5.  The double
    [2^-10 * 1e9 = 976562.5] is taken as it is, so the result is not an
    integer and differs from the specified value whatever rounding of
    the nano-units is chosen. *)
Lemma getBN_not_rounded :
  fl (1 # 1024) = Num (1 # 1024)
  /\ getBN (Num (1 # 1024)) (num (inject_Z 9)) = Returned (Big (1953125 # 2))
  /\ is_integer (1953125 # 2) = false
  /\ forall round, ~ (1953125 # 2 == getBN_spec round (1 # 1024) 9).
Proof.
  split; [reflexivity|]. split; [vm_compute; reflexivity|].
  split; [reflexivity|].
  intros round. unfold getBN_spec.
  change (trunc_Q (1 # 1024)) with 0%Z.
  set (r := round _).
  assert (E : (inject_Z 0 * inject_Z (10 ^ 9) + inject_Z r) * pow10 9
              / inject_Z (10 ^ 9) == inject_Z r).
  { change (pow10 9) with (inject_Z (10 ^ 9)).
    change (inject_Z 0) with 0. field. discriminate. }
  rewrite E. unfold Qeq, inject_Z. cbn [Qnum Qden]. lia.
Qed.

(** C6, as amended.  [getBN] throws exactly when [BigNumber(decimals)]
    is finite and not an integer (the exponent check of [pow]); for
    every [value], NaN and the infinities included, and every integer
    [decimals] of the int32 range, negative ones included, it returns. *)
Theorem getBN_failure_modes value decimals :
  ((exists t, getBN value decimals = Thrown t)
   <-> (exists e, of_number decimals = Big e /\ is_integer e = false))
  /\ (forall d, (- 2 ^ 31 <= d < 2 ^ 31)%Z ->
                decimals = num (inject_Z d) ->
                exists b, getBN value decimals = Returned b).
Proof.
  unfold getBN. split; [split|].
  - intros [t H]. destruct (of_number decimals) as [e|[|]|];
      cbn [ten_pow bind] in H; try discriminate H.
    exists e. split; [reflexivity|].
    destruct (is_integer e); [|reflexivity].
    destruct (Qfloor e); discriminate H.
  - intros (e & -> & He). cbn [ten_pow]. rewrite He. cbn [bind].
    now eexists.
  - intros d Hd ->. rewrite of_number_int32 by lia.
    destruct (Z_lt_le_dec d 0) as [Hneg|Hpos].
    + rewrite ten_pow_neg by lia. cbn [bind]. now eexists.
    + rewrite ten_pow_nonneg by lia. cbn [bind]. now eexists.
Qed.

(** [getBN(1, 0.5)] throws, [getBN(NaN, -1)] returns. *)
Lemma getBN_failure_modes_witness :
  (exists t, getBN (num 1) (num (1 # 2)) = Thrown t)
  /\ (exists b, getBN NaN (num (inject_Z (-1))) = Returned b).
Proof.
  split.
  - apply (proj1 (getBN_failure_modes (num 1) (num (1 # 2)))).
    exists (1 # 2). split; reflexivity.
  - apply (proj2 (getBN_failure_modes NaN (num (inject_Z (-1)))) (-1)%Z).
    + lia.
    + reflexivity.
Defined.

(** C6, as stated, fails: with [decimals = -1], with a NaN and with an
    infinite [value] [getBN] returns a BigNumber; nothing is thrown. *)
Lemma getBN_no_InvalidArgument :
  getBN (num 1) (num (inject_Z (-1))) = Returned (Big (1 # 10))
  /\ getBN NaN (num (inject_Z 2)) = Returned BigNaN
  /\ getBN (Inf false) (num (inject_Z 2)) = Returned BigNaN.
Proof. repeat split; vm_compute; reflexivity. Qed.

Import DecimalBounds.

Lemma bound_num a b :
  Qabs (a - b) <= u53 * Qabs b + eta -> Qabs (a - b) <= U * Qabs b + E0.
Proof.
  intros H. pose proof u53_small. pose proof eta_small.
  assert (u53 * Qabs b <= U * Qabs b).
  { apply Qmult_le_compat_r; [assumption|apply Qabs_nonneg]. }
  unfold U, E0 in *. lra.
Qed.

Lemma bound_num2 a b :
  Qabs (a - b) <= 2 * u53 * Qabs b + 2 * eta ->
  Qabs (a - b) <= 2 * U * Qabs b + 2 * E0.
Proof.
  intros H. pose proof u53_small. pose proof eta_small.
  assert (u53 * Qabs b <= U * Qabs b).
  { apply Qmult_le_compat_r; [assumption|apply Qabs_nonneg]. }
  assert (E : 2 * u53 * Qabs b == 2 * (u53 * Qabs b)) by ring.
  rewrite E in H. unfold U, E0 in *. lra.
Qed.

Lemma abs_le_near a b : Qabs a <= Qabs b + Qabs (a - b).
Proof.
  assert (E : a == b + (a - b)) by ring.
  rewrite E at 1. apply Qabs_triangle.
Qed.

Lemma abs_sub_triangle a b c : Qabs (a - c) <= Qabs (a - b) + Qabs (b - c).
Proof.
  assert (E : a - c == (a - b) + (b - c)) by ring.
  rewrite E. apply Qabs_triangle.
Qed.


(** The value before scaling by 10^decimals: [I + N / 10^9] is within a
    few ulps of [v]. *)
Lemma getBN_parts v :
  exists I N,
    of_number (trunc (Num v)) = Big I
    /\ of_number (JsNumber.mul (JsNumber.sub (Num v) (trunc (Num v))) _1e9)
       = Big N
    /\ Qabs ((I + N / G) - v)
       <= (1 # 100000000000000) * Qabs v
          + (1 # 10000000000000000000000000000000000000000).
Proof.
  destruct (nano_units_finite v) as (f & n & Hf & Hn & Hferr & Hnerr).
  destruct (of_number_Num (Qred (inject_Z (trunc_Q v)))) as (I & HI & HIerr).
  destruct (of_number_Num n) as (N & HN & HNerr).
  exists I, N.
  change (trunc (Num v)) with (Num (Qred (inject_Z (trunc_Q v)))) in *.
  rewrite Hf, Hn. split; [exact HI|]. split; [exact HN|].
  rewrite Qred_correct in HIerr.
  destruct (trunc_Q_abs v) as [Hsum Hfrac].
  set (T := inject_Z (trunc_Q v)) in *.
  set (F := v - T) in *.
  apply bound_num in Hferr, Hnerr. apply bound_num2 in HIerr, HNerr.
  rewrite Qabs_Qmult in Hnerr.
  assert (EG : Qabs 1000000000 == 1000000000) by reflexivity.
  rewrite EG in Hnerr.
  pose proof (abs_le_near f F) as Hfa.
  pose proof (abs_le_near n (f * 1000000000)) as Hna.
  rewrite Qabs_Qmult, EG in Hna.
  (* N / G - F *)
  assert (HNG : Qabs (N / G - F)
                <= (1 # 1000000000) * Qabs (N - n)
                   + (1 # 1000000000) * Qabs (n - f * 1000000000)
                   + Qabs (f - F)).
  { assert (E : N / G - F
                == (1 # 1000000000) * (N - n)
                   + (1 # 1000000000) * (n - f * 1000000000)
                   + (f - F)).
    { unfold G. change (inject_Z (10 ^ 9)) with 1000000000. field. }
    rewrite E.
    eapply Qle_trans; [apply Qabs_triangle|].
    apply Qplus_le_compat; [|apply Qle_refl].
    eapply Qle_trans; [apply Qabs_triangle|].
    rewrite !Qabs_Qmult.
    assert (Ec : Qabs (1 # 1000000000) == 1 # 1000000000) by reflexivity.
    rewrite Ec. apply Qle_refl. }
  assert (Htot : Qabs ((I + N / G) - v) <= Qabs (I - T) + Qabs (N / G - F)).
  { assert (E : I + N / G - v == (I - T) + (N / G - F)).
    { unfold F. ring. }
    rewrite E. apply Qabs_triangle. }
  pose proof (Qabs_nonneg T). pose proof (Qabs_nonneg F).
  pose proof (Qabs_nonneg f). pose proof (Qabs_nonneg n).
  pose proof (Qabs_nonneg (N - n)).
  pose proof (Qabs_nonneg (n - f * 1000000000)).
  unfold U, E0 in *. lra.
Qed.

Lemma pow10_number_exact d :
  (0 <= d <= 18)%Z ->
  pow10_number d = Num (Qred (pow10 d))
  /\ of_number (Num (Qred (pow10 d))) = Big (Qred (pow10 d))
  /\ 1 <= pow10 d <= 1000000000000000000.
Proof.
  intros Hd.
  assert (Hc : (d = 0 \/ d = 1 \/ d = 2 \/ d = 3 \/ d = 4 \/ d = 5
                \/ d = 6 \/ d = 7 \/ d = 8 \/ d = 9 \/ d = 10 \/ d = 11
                \/ d = 12 \/ d = 13 \/ d = 14 \/ d = 15 \/ d = 16
                \/ d = 17 \/ d = 18)%Z) by lia.
  repeat (destruct Hc as [->|Hc]); try subst d;
    (split; [vm_compute; reflexivity|]);
    (split; [vm_compute; reflexivity|]);
    split; vm_compute; discriminate.
Qed.

Lemma of_number_MAX_SAFE :
  of_number MAX_SAFE_INTEGER = Big (inject_Z (2 ^ 53 - 1)).
Proof. vm_compute. reflexivity. Qed.

Lemma Qabs_div a P : 0 < P -> Qabs (a / P) == Qabs a / P.
Proof.
  intros HP. unfold Qdiv. rewrite Qabs_Qmult, Qabs_Qinv.
  now rewrite (Qabs_pos P) by lra.
Qed.

Lemma div_le_self a P : 1 <= P -> 0 <= a -> a / P <= a.
Proof.
  intros HP Ha. apply Qle_shift_div_r; [lra|].
  rewrite <- (Qmult_1_r a) at 1.
  rewrite !(Qmult_comm a). apply Qmult_le_compat_r; assumption.
Qed.


Lemma half_dp_value : half_dp == H0.
Proof. reflexivity. Qed.

Lemma getBN_given v d I N :
  (0 <= d < 2 ^ 31)%Z ->
  of_number (trunc (Num v)) = Big I ->
  of_number (JsNumber.mul (JsNumber.sub (Num v) (trunc (Num v))) _1e9)
  = Big N ->
  getBN (Num v) (num (inject_Z d))
  = Returned (big (round_dp ((I * G + N) * pow10 d / G))).
Proof.
  intros Hd HI HN. unfold getBN.
  rewrite HI, HN, of_number_1e9.
  rewrite of_number_int32 by lia. rewrite ten_pow_nonneg by lia.
  cbn [bind times plus big BigNumber.div].
  assert (Hz : is_zero (inject_Z 1000000000) = false) by reflexivity.
  rewrite Hz. f_equal. apply big_eq, round_dp_proper.
  rewrite !Qred_correct. reflexivity.
Qed.

Lemma pow2_1022_1023 : 2 * pow2 1022 == pow2 1023.
Proof. reflexivity. Qed.

Lemma pow2_1022_large : 1000000000000000000000000000000 <= pow2 1022.
Proof. vm_compute. discriminate. Qed.

Section RoundTrip.

Variables (v : Q) (d : Z).
Hypothesis d_range : (0 <= d <= 18)%Z.
Hypothesis not_tiny : (1 # 100000000000) <= Qabs v * pow10 d.
Hypothesis not_huge : Qabs v <= pow2 1022.
Hypothesis negative_in_range : v < 0 -> Qabs v * pow10 d <= pow2 1022.

Let P := pow10 d.

Lemma P_bounds : 1 <= P <= 1000000000000000000.
Proof. apply (pow10_number_exact d d_range). Qed.

Lemma v_not_tiny : (1 # 100000000000000000000000000000) <= Qabs v.
Proof.
  destruct P_bounds as [HP1 HP2]. fold P in not_tiny.
  assert (Qabs v * P <= Qabs v * 1000000000000000000).
  { rewrite !(Qmult_comm (Qabs v)).
    apply Qmult_le_compat_r; [exact HP2|apply Qabs_nonneg]. }
  lra.
Qed.

Variables (I N : Q).
Hypothesis parts_err :
  Qabs ((I + N / G) - v)
  <= (1 # 100000000000000) * Qabs v
     + (1 # 10000000000000000000000000000000000000000).

Let q0 := I + N / G.
Let R := round_dp ((I * G + N) * P / G).
Let r := R / P.

Lemma q0_near : Qabs (q0 - v) <= (2 # 100000000000) * Qabs v.
Proof.
  pose proof v_not_tiny. fold q0 in parts_err. lra.
Qed.

Lemma r_near_q0 :
  Qabs (r - q0) <= H0 / P
  /\ 0 <= H0 / P <= H0
  /\ H0 / P <= (5 # 10000000000) * Qabs v.
Proof.
  destruct P_bounds as [HP1 HP2].
  assert (HPpos : 0 < P) by lra.
  assert (Hpos : 0 <= H0 / P).
  { apply Qle_shift_div_l; [exact HPpos|]. unfold H0. lra. }
  split; [|split; [split|]].
  - assert (E : r - q0 == (R - (I * G + N) * P / G) / P).
    { unfold r, q0, G. change (inject_Z (10 ^ 9)) with 1000000000.
      field. intros E. rewrite E in HPpos. discriminate. }
    rewrite E, Qabs_div by exact HPpos.
    unfold Qdiv at 1 3. apply Qmult_le_compat_r.
    + rewrite <- half_dp_value. apply round_dp_err.
    + apply Qlt_le_weak, Qinv_lt_0_compat, HPpos.
  - exact Hpos.
  - apply div_le_self; [exact HP1|]. unfold H0. lra.
  - (* H0 / P * 1e-11 <= H0 * |v| *)
    fold P in not_tiny.
    assert (Hm : H0 / P * (1 # 100000000000) <= H0 / P * (Qabs v * P)).
    { rewrite !(Qmult_comm (H0 / P)). apply Qmult_le_compat_r; assumption. }
    assert (E3 : H0 / P * (Qabs v * P) == H0 * Qabs v).
    { field. intros E3. rewrite E3 in HPpos. discriminate. }
    rewrite E3 in Hm. unfold H0 in *. lra.
Qed.

Lemma r_near_v : Qabs (r - v) <= (6 # 10000000000) * Qabs v.
Proof.
  pose proof q0_near. destruct r_near_q0 as (H1 & _ & H2).
  pose proof (abs_sub_triangle r q0 v). pose proof (Qabs_nonneg v). lra.
Qed.

Lemma R_scaled : R == r * P.
Proof.
  destruct P_bounds as [HP1 _]. unfold r. field.
  intros E. lra.
Qed.

Lemma abs_R : Qabs R == Qabs r * P.
Proof.
  destruct P_bounds as [HP1 _].
  rewrite R_scaled, Qabs_Qmult, (Qabs_pos P) by lra. reflexivity.
Qed.

Lemma abs_r_le : Qabs r <= (10000000006 # 10000000000) * Qabs v.
Proof.
  pose proof r_near_v. pose proof (abs_le_near r v). lra.
Qed.

Lemma E0_tiny : E0 <= (1 # 10000000000000000000) * Qabs v.
Proof. pose proof v_not_tiny. unfold E0. lra. Qed.

(** The branch of [getNumberFromBN] for values up to [2^53 - 1]. *)
Lemma small_branch :
  R <= inject_Z (2 ^ 53 - 1) ->
  exists out,
    JsNumber.div (BigNumber.toNumber (big R)) (Num (Qred P)) = Num out
    /\ Qabs (out - v) <= (1 # 1000000000) * Qabs v.
Proof.
  intros Hsmall.
  destruct P_bounds as [HP1 HP2].
  assert (HPpos : 0 < P) by lra.
  pose proof r_near_v as Hrv. pose proof abs_r_le as Hr.
  pose proof abs_R as HR. pose proof E0_tiny as HE.
  pose proof (Qabs_nonneg v) as Hv0. pose proof (Qabs_nonneg r) as Hr0.
  pose proof pow2_1022_1023 as H23. pose proof pow2_1022_large as Hlarge.
  (* the BigNumber is within the doubles *)
  assert (HRfin : Qabs R <= pow2 1023).
  { destruct (Qlt_le_dec v 0) as [Hneg|Hpos].
    - specialize (negative_in_range Hneg). fold P in negative_in_range.
      assert (Qabs r * P <= (10000000006 # 10000000000) * Qabs v * P).
      { apply Qmult_le_compat_r; lra. }
      assert (E : (10000000006 # 10000000000) * Qabs v * P
                  == (10000000006 # 10000000000) * (Qabs v * P)) by ring.
      lra.
    - assert (Hvv : Qabs v == v) by now apply Qabs_pos.
      apply Qabs_diff_Qle_condition in Hrv as [Hrv1 Hrv2].
      assert (0 <= r) by lra.
      assert (0 <= R).
      { rewrite R_scaled. apply Qmult_le_0_compat; lra. }
      rewrite (Qabs_pos R) by assumption.
      assert (inject_Z (2 ^ 53 - 1) <= 1000000000000000000000000000000)
        by (vm_compute; discriminate).
      lra. }
  unfold BigNumber.toNumber, big.
  assert (HRr : Qabs (Qred R) <= pow2 1023).
  { now rewrite Qred_correct. }
  destruct (fl_finite_err _ HRr) as (r1 & Hr1 & Herr1).
  rewrite Qred_correct in Herr1. apply bound_num in Herr1.
  rewrite Hr1. unfold JsNumber.div.
  assert (Hnz : Qeq_bool (Qred P) 0 = false).
  { destruct (Qeq_bool (Qred P) 0) eqn:Eb; [|reflexivity].
    apply Qeq_bool_iff in Eb. rewrite Qred_correct in Eb.
    rewrite Eb in HPpos. discriminate. }
  rewrite Hnz.
  (* the quotient *)
  set (x := r1 / Qred P).
  assert (Ex : x == r1 / P) by (unfold x; now rewrite Qred_correct).
  assert (Hxr : Qabs (x - r) <= U * Qabs r + E0).
  { assert (E : x - r == (r1 - R) / P).
    { rewrite Ex. unfold r. field. intros E. rewrite E in HPpos. discriminate. }
    rewrite E, Qabs_div by exact HPpos.
    apply Qle_shift_div_r; [exact HPpos|].
    assert (E2 : (U * Qabs r + E0) * P == U * (Qabs r * P) + E0 * P) by ring.
    rewrite E2, <- HR.
    assert (E0 * 1 <= E0 * P).
    { rewrite !(Qmult_comm E0). apply Qmult_le_compat_r; [exact HP1|].
      unfold E0. lra. }
    lra. }
  pose proof (abs_le_near x r) as Hxa.
  assert (Hxfin : Qabs x <= pow2 1023).
  { unfold U in *. lra. }
  destruct (fl_finite_err _ Hxfin) as (out & Hout & Herr).
  apply bound_num in Herr.
  exists out. split; [exact Hout|].
  pose proof (abs_sub_triangle out x v) as T1.
  pose proof (abs_sub_triangle x r v) as T2.
  unfold U in *. lra.
Qed.

(** The branch for values above [2^53 - 1]. *)
Lemma large_branch :
  inject_Z (2 ^ 53 - 1) < R ->
  exists out,
    BigNumber.toNumber (BigNumber.div (big R) (Big (Qred P))) = Num out
    /\ Qabs (out - v) <= (1 # 1000000000) * Qabs v.
Proof.
  intros Hlarge.
  destruct P_bounds as [HP1 HP2].
  assert (HPpos : 0 < P) by lra.
  pose proof r_near_v as Hrv. pose proof abs_r_le as Hr.
  pose proof E0_tiny as HE.
  pose proof (Qabs_nonneg v) as Hv0. pose proof (Qabs_nonneg r) as Hr0.
  pose proof pow2_1022_1023 as H23. pose proof pow2_1022_large as Hbig.
  assert (Hrpos : (9 # 1000) <= r).
  { assert (Hms : 9007199254740991 < r * P) by (rewrite <- R_scaled; exact Hlarge).
    assert (Hr1 : 0 < r).
    { destruct (Qlt_le_dec 0 r) as [Hp|Hn]; [exact Hp|].
      assert (r * P <= 0 * P) by (apply Qmult_le_compat_r; lra). lra. }
    assert (r * P <= r * 1000000000000000000).
    { rewrite !(Qmult_comm r). apply Qmult_le_compat_r; lra. }
    lra. }
  assert (Hvbig : (8 # 1000) <= Qabs v).
  { pose proof (Qle_Qabs r). lra. }
  unfold BigNumber.div, big.
  assert (Hnz : is_zero (Qred P) = false).
  { unfold is_zero. destruct (Qeq_bool (Qred P) 0) eqn:Eb; [|reflexivity].
    apply Qeq_bool_iff in Eb. rewrite Qred_correct in Eb.
    rewrite Eb in HPpos. discriminate. }
  rewrite Hnz. unfold BigNumber.toNumber.
  set (D := round_dp (Qred R / Qred P)).
  assert (HD : Qabs (D - r) <= H0).
  { assert (E : r == Qred R / Qred P).
    { unfold r. now rewrite !Qred_correct. }
    rewrite E, <- half_dp_value. apply round_dp_err. }
  pose proof (abs_le_near D r) as HDa.
  assert (HDfin : Qabs (Qred D) <= pow2 1023).
  { rewrite Qred_correct. unfold H0 in *. lra. }
  destruct (fl_finite_err _ HDfin) as (out & Hout & Herr).
  rewrite Qred_correct in Herr. apply bound_num in Herr.
  exists out. split; [exact Hout|].
  pose proof (abs_sub_triangle out D v) as T1.
  pose proof (abs_sub_triangle D r v) as T2.
  unfold U, H0 in *. lra.
Qed.

End RoundTrip.

(** C7, as amended.  For a double [v] and [decimals] in 0..18 with
    [1e-11 <= |v| * 10^decimals], [|v| <= 2^1022] and, when [v] is
    negative, [|v| * 10^decimals <= 2^1022], [getBN] returns a BigNumber
    that [getNumberFromBN] takes to a finite number within [1e-9 * |v|]
    of [v]. *)
Theorem roundtrip_relative_error (v : Q) (d : Z) :
  (0 <= d <= 18)%Z ->
  (1 # 100000000000) <= Qabs v * pow10 d ->
  Qabs v <= pow2 1022 ->
  (v < 0 -> Qabs v * pow10 d <= pow2 1022) ->
  exists B out,
    getBN (Num v) (num (inject_Z d)) = Returned B
    /\ getNumberFromBN B d = Num out
    /\ Qabs (out - v) <= (1 # 1000000000) * Qabs v.
Proof.
  intros Hd Htiny Hhuge Hneg.
  destruct (getBN_parts v) as (I & N & HI & HN & Herr).
  set (R := round_dp ((I * G + N) * pow10 d / G)).
  assert (HB : getBN (Num v) (num (inject_Z d)) = Returned (big R)).
  { apply getBN_given; (assumption || lia). }
  assert (Hout : exists out,
             getNumberFromBN (big R) d = Num out
             /\ Qabs (out - v) <= (1 # 1000000000) * Qabs v).
  { destruct (pow10_number_exact d Hd) as (Hpn & Hpb & _).
    unfold getNumberFromBN.
    rewrite of_number_MAX_SAFE, Hpn, Hpb.
    unfold gt, big at 1.
    destruct (Qle_bool (Qred R) (inject_Z (2 ^ 53 - 1))) eqn:Hcmp;
      cbn [negb].
    - apply Qle_bool_iff in Hcmp. rewrite Qred_correct in Hcmp.
      exact (small_branch v d Hd Htiny Hhuge Hneg I N Herr Hcmp).
    - assert (Hlarge : inject_Z (2 ^ 53 - 1) < R).
      { apply Qnot_le_lt. intros Hle.
        assert (Hb : Qle_bool (Qred R) (inject_Z (2 ^ 53 - 1)) = true).
        { apply Qle_bool_iff. now rewrite Qred_correct. }
        congruence. }
      exact (large_branch v d Hd Htiny Hhuge I N Herr Hlarge). }
  destruct Hout as (out & Hout & Hbound).
  exists (big R), out. repeat split; assumption.
Qed.

(** The round trip of 1234567.891 with 9 decimals. *)
Lemma roundtrip_relative_error_witness :
  exists B out,
    getBN (Num (1234567891 # 1000)) (num (inject_Z 9)) = Returned B
    /\ getNumberFromBN B 9 = Num out
    /\ Qabs (out - (1234567891 # 1000))
       <= (1 # 1000000000) * Qabs (1234567891 # 1000).
Proof.
  apply (roundtrip_relative_error (1234567891 # 1000) 9).
  - lia.
  - vm_compute. discriminate.
  - vm_compute. discriminate.
  - intros H. vm_compute in H. discriminate H.
Defined.

(** C7, as stated, fails.  [2^-100] with 0 decimals comes back as 0 (the
    amount has 20 decimals at most); [-2^1000] with 18 decimals comes
    back as [-Infinity] (a negative amount is never greater than
    [2^53 - 1], so it is converted to a double before the division). *)
Lemma roundtrip_loses_value :
  fl (pow2 (-100)) = Num (Qred (pow2 (-100)))
  /\ getBN (Num (pow2 (-100))) (num (inject_Z 0)) = Returned (Big 0)
  /\ getNumberFromBN (Big 0) 0 = Num 0
  /\ ~ (Qabs (0 - pow2 (-100)) <= (1 # 1000000000) * Qabs (pow2 (-100)))
  /\ fl (- pow2 1000) = Num (Qred (- pow2 1000))
  /\ (exists B,
         getBN (Num (- pow2 1000)) (num (inject_Z 18)) = Returned B
         /\ getNumberFromBN B 18 = Inf true).
Proof.
  split; [vm_compute; reflexivity|].
  split; [vm_compute; reflexivity|].
  split; [vm_compute; reflexivity|].
  split; [vm_compute; intros H; now apply H|].
  split; [vm_compute; reflexivity|].
  eexists. split; [vm_compute; reflexivity|].
  vm_compute. reflexivity.
Qed.

End AmountFacts.

(* ================================================================== *)
(** ** Numbers that are rounded to themselves *)
(* ================================================================== *)

Module ExactNumberFacts.

Import JsNumber BigNumber Utils Roundoff NumberFacts AmountFacts.
Local Open Scope Q_scope.

Lemma ilog2_proper x y : x == y -> ilog2 x = ilog2 y.
Proof. intros H. unfold ilog2. now rewrite (Qred_complete _ _ H). Qed.

Lemma round_half_even_proper y y' :
  y == y' -> round_half_even y = round_half_even y'.
Proof.
  intros H. unfold round_half_even.
  rewrite (Qfloor_comp _ _ H).
  assert (E : y - inject_Z (Qfloor y') == y' - inject_Z (Qfloor y'))
    by now rewrite H.
  now rewrite E.
Qed.

Lemma fl_abs_proper x y : x == y -> fl_abs x == fl_abs y.
Proof.
  intros H. unfold fl_abs. rewrite (ilog2_proper _ _ H).
  set (e := Z.max _ _).
  assert (E : x / pow2 e == y / pow2 e) by now rewrite H.
  now rewrite (round_half_even_proper _ _ E).
Qed.

Lemma num_proper x y : x == y -> num x = num y.
Proof. intros H. unfold num. now rewrite (Qred_complete _ _ H). Qed.

Lemma Qle_bool_proper a b c d :
  a == c -> b == d -> Qle_bool a b = Qle_bool c d.
Proof.
  intros H1 H2. apply eq_true_iff_eq. rewrite !Qle_bool_iff.
  now rewrite H1, H2.
Qed.

Lemma fl_proper x y : x == y -> fl x = fl y.
Proof.
  intros H. unfold fl.
  assert (C : (x ?= 0) = (y ?= 0)) by now rewrite H.
  rewrite C.
  destruct (y ?= 0); [reflexivity| |].
  - assert (E : fl_abs (- x) == fl_abs (- y))
      by (apply fl_abs_proper; now rewrite H).
    rewrite (Qle_bool_proper _ _ _ _ (Qeq_refl _) E).
    destruct (Qle_bool _ _); [reflexivity|]. apply num_proper. now rewrite E.
  - assert (E : fl_abs x == fl_abs y) by now apply fl_abs_proper.
    rewrite (Qle_bool_proper _ _ _ _ (Qeq_refl _) E).
    destruct (Qle_bool _ _); [reflexivity|]. now apply num_proper.
Qed.

Lemma round_half_even_inject z : round_half_even (inject_Z z) = z.
Proof.
  unfold round_half_even. rewrite Qfloor_Z.
  assert (E : inject_Z z - inject_Z z == 0) by ring.
  assert (C : (inject_Z z - inject_Z z ?= 1 # 2) = (0 ?= 1 # 2))
    by now rewrite E.
  rewrite C. reflexivity.
Qed.

(** A value [m * 2^e] with [0 < m < 2^53] and [e >= -1074] is a double:
    rounding leaves it as it is. *)
Lemma fl_abs_representable (m e : Z) :
  (0 < m < 2 ^ 53)%Z -> (-1074 <= e)%Z ->
  fl_abs (inject_Z m * pow2 e) == inject_Z m * pow2 e.
Proof.
  intros Hm He. unfold fl_abs.
  set (a := inject_Z m * pow2 e).
  assert (Ha : 0 < a).
  { unfold a. apply Qmult_lt_0_compat; [|apply pow2_pos].
    change 0 with (inject_Z 0). rewrite <- Zlt_Qlt. lia. }
  destruct (ilog2_spec a Ha) as [Hlo _].
  assert (HL : (ilog2 a < 53 + e)%Z).
  { destruct (Z_lt_le_dec (ilog2 a) (53 + e)) as [|Hge]; [assumption|].
    exfalso. pose proof (pow2_le _ _ Hge) as Hle.
    assert (Hlt : a < pow2 (53 + e)).
    { unfold a. rewrite pow2_add.
      apply Qmult_lt_compat_r; [apply pow2_pos|].
      rewrite (pow2_inject 53) by lia. rewrite <- Zlt_Qlt. lia. }
    lra. }
  set (E := Z.max (ilog2 a - 52) (-1074)).
  assert (HE : (E <= e)%Z) by (unfold E; lia).
  assert (Hq : a / pow2 E == inject_Z (m * 2 ^ (e - E))).
  { unfold a. rewrite inject_Z_mult, <- (pow2_inject (e - E)) by lia.
    replace e with ((e - E) + E)%Z at 1 by lia.
    rewrite pow2_add. field.
    pose proof (pow2_pos E). lra. }
  rewrite (round_half_even_proper _ _ Hq), round_half_even_inject.
  rewrite inject_Z_mult, <- (pow2_inject (e - E)) by lia.
  unfold a. replace e with ((e - E) + E)%Z at 2 by lia.
  rewrite pow2_add. ring.
Qed.

Lemma pow2_53_below_1024 : pow2 53 <= pow2 1023.
Proof. apply pow2_le. lia. Qed.

(** Every integer below [2^53] in absolute value is a double. *)
Lemma fl_integer z :
  (Z.abs z < 2 ^ 53)%Z -> fl (inject_Z z) = num (inject_Z z).
Proof.
  intros Hz. unfold fl.
  destruct (Qcompare_spec (inject_Z z) 0) as [E|L|G].
  - now apply num_proper.
  - assert (Hneg : (z < 0)%Z) by (rewrite Zlt_Qlt; exact L).
    assert (R : fl_abs (- inject_Z z) == inject_Z (- z)).
    { rewrite (fl_abs_proper (- inject_Z z) (inject_Z (- z) * pow2 0)).
      - rewrite fl_abs_representable by lia. change (pow2 0) with 1. ring.
      - rewrite inject_Z_opp. change (pow2 0) with 1. ring. }
    assert (B : Qle_bool (pow2 1024) (fl_abs (- inject_Z z)) = false).
    { apply not_true_is_false. intros H. apply Qle_bool_iff in H.
      rewrite R in H. pose proof pow2_53_below_1024. pose proof pow2_1024_double.
      pose proof pow2_1023_large.
      assert (inject_Z (- z) < pow2 53).
      { rewrite (pow2_inject 53) by lia. rewrite <- Zlt_Qlt. lia. }
      lra. }
    rewrite B. apply num_proper. rewrite R, inject_Z_opp. ring.
  - assert (Hpos : (0 < z)%Z) by (rewrite Zlt_Qlt; exact G).
    assert (R : fl_abs (inject_Z z) == inject_Z z).
    { rewrite (fl_abs_proper (inject_Z z) (inject_Z z * pow2 0)).
      - rewrite fl_abs_representable by lia. change (pow2 0) with 1. ring.
      - change (pow2 0) with 1. ring. }
    assert (B : Qle_bool (pow2 1024) (fl_abs (inject_Z z)) = false).
    { apply not_true_is_false. intros H. apply Qle_bool_iff in H.
      rewrite R in H. pose proof pow2_53_below_1024. pose proof pow2_1024_double.
      pose proof pow2_1023_large.
      assert (inject_Z z < pow2 53).
      { rewrite (pow2_inject 53) by lia. rewrite <- Zlt_Qlt. lia. }
      lra. }
    rewrite B. now apply num_proper.
Qed.

Lemma Qfloor_unique x k :
  inject_Z k <= x -> x < inject_Z (k + 1) -> Qfloor x = k.
Proof.
  intros Hlo Hhi.
  pose proof (Qfloor_le x) as H1. pose proof (Qlt_floor x) as H2.
  assert (A : (k < Qfloor x + 1)%Z) by (rewrite Zlt_Qlt; lra).
  assert (B : (Qfloor x < k + 1)%Z) by (rewrite Zlt_Qlt; lra).
  lia.
Qed.

Lemma round_half_up_inject k : round_half_up (inject_Z k) = k.
Proof.
  unfold round_half_up.
  destruct (Qle_bool 0 (inject_Z k)) eqn:E.
  - apply Qfloor_unique; rewrite ?inject_Z_plus; change (inject_Z 1) with 1;
      lra.
  - rewrite (Qfloor_unique _ (- k)); [lia| |];
      rewrite ?inject_Z_plus, inject_Z_opp; change (inject_Z 1) with 1; lra.
Qed.

(** A decimal with at most [DECIMAL_PLACES] decimals is not changed by
    the rounding of a division. *)
Lemma round_dp_exact q k :
  q * pow10 DECIMAL_PLACES == inject_Z k -> round_dp q == q.
Proof.
  intros H. unfold round_dp.
  rewrite (round_half_up_proper _ _ H), round_half_up_inject, <- H.
  field. pose proof (pow10_pos DECIMAL_PLACES). lra.
Qed.

Lemma pow10_inject (n : Z) : (0 <= n)%Z -> pow10 n == inject_Z (10 ^ n).
Proof.
  intros Hn. unfold pow10. now rewrite Zpower_Qpower.
Qed.

Lemma round_dp_inject z : round_dp (inject_Z z) == inject_Z z.
Proof.
  apply (round_dp_exact _ (z * 10 ^ DECIMAL_PLACES)).
  rewrite inject_Z_mult, pow10_inject by (unfold DECIMAL_PLACES; lia).
  reflexivity.
Qed.

Lemma trunc_Q_inject q n : q == inject_Z n -> trunc_Q q = n.
Proof.
  intros H. unfold trunc_Q.
  destruct (Qle_bool 0 q).
  - rewrite (Qfloor_comp _ _ H). apply Qfloor_Z.
  - rewrite (Qceiling_comp _ _ H). apply Qceiling_Z.
Qed.

Lemma pow10_nonzero d : ~ pow10 d == 0.
Proof. pose proof (pow10_pos d). lra. Qed.

Lemma pow10_le a b : (a <= b)%Z -> pow10 a <= pow10 b.
Proof.
  intros Hab. unfold pow10. apply Qpower_le_compat_l; [exact Hab|].
  discriminate.
Qed.

Lemma quotient_decimals m d :
  (0 <= d <= 18)%Z ->
  inject_Z m / pow10 d * pow10 DECIMAL_PLACES
  == inject_Z (m * 10 ^ (DECIMAL_PLACES - d)).
Proof.
  intros Hd. unfold DECIMAL_PLACES.
  rewrite inject_Z_mult, <- (pow10_inject (20 - d)) by lia.
  replace 20%Z with ((20 - d) + d)%Z at 1 by lia.
  rewrite pow10_add. field. apply pow10_nonzero.
Qed.

Lemma round_dp_small d :
  (d <= -21)%Z -> round_dp (1 / pow10 (- d)) == 0.
Proof.
  intros Hd. unfold round_dp.
  assert (Hy : 1 / pow10 (- d) * pow10 DECIMAL_PLACES == pow10 (20 + d)).
  { unfold DECIMAL_PLACES.
    replace 20%Z with ((20 + d) + - d)%Z at 1 by lia.
    rewrite pow10_add. field. apply pow10_nonzero. }
  rewrite (round_half_up_proper _ _ Hy).
  assert (Hr : round_half_up (pow10 (20 + d)) = 0%Z).
  { pose proof (pow10_pos (20 + d)) as Hpos.
    assert (Hle : pow10 (20 + d) <= pow10 (-1)) by (apply pow10_le; lia).
    change (pow10 (-1)) with (1 # 10) in Hle.
    unfold round_half_up.
    destruct (Qle_bool 0 (pow10 (20 + d))) eqn:E.
    - apply Qfloor_unique; change (inject_Z (0 + 1)) with 1;
        change (inject_Z 0) with 0; lra.
    - exfalso. apply not_true_iff_false in E. apply E, Qle_bool_iff. lra. }
  rewrite Hr. change (inject_Z 0) with 0. field. apply pow10_nonzero.
Qed.

End ExactNumberFacts.

(* ------------------------------------------------------------------ *)
(** ** The decimal printed for an integer *)

Module DecimalExactFacts.

Import JsNumber BigNumber Utils Roundoff NumberFacts AmountFacts
  ExactNumberFacts.
Local Open Scope Q_scope.

Lemma Qred_inject_Z z : Qred (inject_Z z) = inject_Z z.
Proof.
  unfold Qred, inject_Z.
  pose proof (Z.ggcd_gcd z 1) as Hg.
  pose proof (Z.ggcd_correct_divisors z 1) as Hd.
  destruct (Z.ggcd z 1) as [g [aa bb]]. cbn [fst snd] in *.
  rewrite Z.gcd_1_r in Hg. subst g. destruct Hd as [Ha Hb].
  rewrite Z.mul_1_l in Ha, Hb. now subst.
Qed.

Lemma inject_Z_lt a b : (a < b)%Z -> inject_Z a < inject_Z b.
Proof. now rewrite <- Zlt_Qlt. Qed.

Lemma inject_Z_le a b : (a <= b)%Z -> inject_Z a <= inject_Z b.
Proof. now rewrite <- Zle_Qle. Qed.

Lemma ilog2_integer_range z :
  (1 <= z < 2 ^ 52)%Z -> (0 <= ilog2 (inject_Z z) <= 51)%Z.
Proof.
  intros Hz.
  assert (Hpos : 0 < inject_Z z) by (apply (inject_Z_lt 0); lia).
  destruct (ilog2_spec _ Hpos) as [Hlo Hhi].
  set (L := ilog2 (inject_Z z)) in *.
  split.
  - destruct (Z_lt_le_dec L 0) as [Hneg|]; [|assumption].
    exfalso. assert (Hle : pow2 (L + 1) <= pow2 0) by (apply pow2_le; lia).
    change (pow2 0) with 1 in Hle.
    assert (1 <= inject_Z z) by (apply (inject_Z_le 1); lia). lra.
  - destruct (Z_lt_le_dec L 52) as [|Hge]; [lia|].
    exfalso. assert (Hle : pow2 52 <= pow2 L) by (apply pow2_le; lia).
    rewrite (pow2_inject 52) in Hle by lia.
    assert (inject_Z z < inject_Z (2 ^ 52)) by (apply inject_Z_lt; lia). lra.
Qed.

(** The decimal estimate of [ilog10] is never more than two too high,
    checked for every binary exponent of an integer below [2^52]. *)
Lemma ilog10_estimate L :
  (0 <= L <= 51)%Z -> pow10 (L * 1233 / 4096 + 1 - 2) <= pow2 L.
Proof.
  intros HL.
  assert (Hall : forallb (fun n =>
                            Qle_bool (pow10 (Z.of_nat n * 1233 / 4096 + 1 - 2))
                                     (pow2 (Z.of_nat n)))
                         (seq 0 52) = true) by (vm_compute; reflexivity).
  rewrite forallb_forall in Hall.
  specialize (Hall (Z.to_nat L)).
  rewrite Z2Nat.id in Hall by lia.
  apply Qle_bool_iff, Hall, in_seq. lia.
Qed.

Lemma ilog10_lower z :
  (1 <= z < 2 ^ 52)%Z -> pow10 (ilog10 (inject_Z z)) <= inject_Z z.
Proof.
  intros Hz. unfold ilog10.
  pose proof (ilog2_integer_range z Hz) as HL.
  assert (Hpos : 0 < inject_Z z) by (apply (inject_Z_lt 0); lia).
  destruct (ilog2_spec _ Hpos) as [Hlo _].
  set (L := ilog2 (inject_Z z)) in *.
  destruct (Qle_bool (pow10 (L * 1233 / 4096 + 1)) (inject_Z z)) eqn:E1.
  - now apply Qle_bool_iff.
  - destruct (Qle_bool (pow10 (L * 1233 / 4096 + 1 - 1)) (inject_Z z)) eqn:E2.
    + now apply Qle_bool_iff.
    + pose proof (ilog10_estimate L HL). lra.
Qed.

Lemma Qfloor_div z S :
  (0 < S)%Z -> Qfloor (inject_Z z / inject_Z S) = (z / S)%Z.
Proof.
  intros HS.
  assert (HSq : 0 < inject_Z S) by (apply (inject_Z_lt 0); exact HS).
  pose proof (Z.mul_div_le z S HS) as Hlo.
  pose proof (Z.mul_succ_div_gt z S HS) as Hhi.
  apply Qfloor_unique.
  - apply Qle_shift_div_l; [exact HSq|].
    rewrite <- inject_Z_mult. apply inject_Z_le. lia.
  - apply Qlt_shift_div_r; [exact HSq|].
    rewrite <- inject_Z_mult. apply inject_Z_lt. lia.
Qed.

(** A candidate that is an integer below [2^53] reads back as itself:
    it round-trips only if it is the number printed. *)
Lemma round_trips_integer x c m :
  c == inject_Z m -> (Z.abs m < 2 ^ 53)%Z ->
  round_trips x c = true -> c == x.
Proof.
  intros Hc Hm. unfold round_trips.
  rewrite (fl_proper _ _ Hc), fl_integer by exact Hm.
  unfold num. intros H. apply Qeq_bool_iff in H.
  rewrite Qred_correct in H. now rewrite Hc.
Qed.

Lemma round_trips_self z c :
  (Z.abs z < 2 ^ 53)%Z -> c == inject_Z z ->
  round_trips (inject_Z z) c = true.
Proof.
  intros Hz Hc. unfold round_trips.
  rewrite (fl_proper _ _ Hc), fl_integer by exact Hz.
  unfold num. apply Qeq_bool_iff. apply Qred_correct.
Qed.

Lemma closest_cases x lo hi e : closest x lo hi e = lo \/ closest x lo hi e = hi.
Proof.
  unfold closest. destruct (x - lo ?= hi - x); [destruct e| |]; auto.
Qed.

(** Whatever [shortest_at] finds for an integer below [2^52] is that
    integer. *)
Lemma shortest_at_integer z k c :
  (1 <= z < 2 ^ 52)%Z -> (1 <= k)%Z ->
  shortest_at (inject_Z z) (ilog10 (inject_Z z) + 1) k = Some c ->
  c == inject_Z z.
Proof.
  intros Hz Hk. unfold shortest_at.
  set (x := inject_Z z). set (n := (ilog10 x + 1)%Z).
  pose proof (ilog10_lower z Hz) as Hlow. fold x in Hlow.
  destruct (Z_le_gt_dec 0 (n - k)) as [Hnk|Hnk].
  - (* the candidates are integers *)
    set (S := (10 ^ (n - k))%Z).
    assert (HS : (0 < S)%Z) by (apply Z.pow_pos_nonneg; lia).
    assert (Hscale : pow10 (n - k) == inject_Z S) by now apply pow10_inject.
    assert (HSz : (S <= z)%Z).
    { rewrite Zle_Qle. rewrite <- Hscale.
      apply Qle_trans with (pow10 (ilog10 x)); [|exact Hlow].
      apply pow10_le. unfold n. lia. }
    assert (Hs : Qfloor (x / pow10 (n - k)) = (z / S)%Z).
    { rewrite (Qfloor_comp _ (inject_Z z / inject_Z S)).
      - now apply Qfloor_div.
      - unfold x. now rewrite Hscale. }
    rewrite Hs. set (s := (z / S)%Z).
    assert (Hs0 : (0 <= s)%Z) by (apply Z.div_pos; lia).
    assert (HsS : (s * S <= z)%Z)
      by (rewrite Z.mul_comm; apply Z.mul_div_le; lia).
    assert (Hlo : inject_Z s * pow10 (n - k) == inject_Z (s * S))
      by now rewrite Hscale, inject_Z_mult.
    assert (Hhi : inject_Z (s + 1) * pow10 (n - k) == inject_Z ((s + 1) * S))
      by now rewrite Hscale, inject_Z_mult.
    assert (Rlo : round_trips x (inject_Z s * pow10 (n - k)) = true ->
                  inject_Z s * pow10 (n - k) == x).
    { apply (round_trips_integer _ _ _ Hlo). nia. }
    assert (Rhi : round_trips x (inject_Z (s + 1) * pow10 (n - k)) = true ->
                  inject_Z (s + 1) * pow10 (n - k) == x).
    { apply (round_trips_integer _ _ _ Hhi). nia. }
    destruct (round_trips x (inject_Z s * pow10 (n - k))) eqn:E1;
      destruct (round_trips x (inject_Z (s + 1) * pow10 (n - k))) eqn:E2;
      intros [= <-]; auto.
    destruct (closest_cases x (inject_Z s * pow10 (n - k))
                (inject_Z (s + 1) * pow10 (n - k)) (Z.even s)) as [-> | ->];
      auto.
  - (* the step is a negative power of ten: the lower candidate is [x] *)
    set (j := (k - n)%Z).
    assert (Hj : (0 < j)%Z) by (unfold j; lia).
    set (scale := pow10 (n - k)).
    assert (Hsc : 0 < scale) by apply pow10_pos.
    assert (Hinv : scale * pow10 j == 1).
    { unfold scale. rewrite <- pow10_add.
      replace (n - k + j)%Z with 0%Z by (unfold j; lia). reflexivity. }
    assert (Hq : x / scale == inject_Z (z * 10 ^ j)).
    { rewrite inject_Z_mult, <- (pow10_inject j) by lia. fold x.
      apply (Qmult_inj_r _ _ scale); [lra|].
      assert (E : x * pow10 j * scale == x * (scale * pow10 j)) by ring.
      rewrite E, Hinv. field. lra. }
    rewrite (Qfloor_comp _ _ Hq), Qfloor_Z.
    set (s := (z * 10 ^ j)%Z).
    assert (Hlo : inject_Z s * scale == x).
    { unfold s. rewrite <- Hq. field. lra. }
    assert (Hhi : inject_Z (s + 1) * scale == x + scale).
    { rewrite inject_Z_plus, Qmult_plus_distr_l, Hlo.
      change (inject_Z 1) with 1. ring. }
    assert (E1 : round_trips x (inject_Z s * scale) = true).
    { apply round_trips_self; [lia|exact Hlo]. }
    rewrite E1.
    destruct (round_trips x (inject_Z (s + 1) * scale)); intros [= <-];
      [|exact Hlo].
    unfold closest.
    assert (C : (x - inject_Z s * scale ?= inject_Z (s + 1) * scale - x) = Lt).
    { apply (proj1 (Qlt_alt _ _)). rewrite Hlo, Hhi. lra. }
    rewrite C. exact Hlo.
Qed.

Lemma shortest_from_integer z digits :
  (1 <= z < 2 ^ 52)%Z ->
  forall k, (1 <= k)%Z ->
    shortest_from digits (inject_Z z) (ilog10 (inject_Z z) + 1) k
    == inject_Z z.
Proof.
  intros Hz. induction digits as [|more IH]; intros k Hk; cbn.
  - reflexivity.
  - destruct (shortest_at _ _ k) as [c|] eqn:E.
    + now apply (shortest_at_integer z k).
    + apply IH. lia.
Qed.

(** The decimal printed for an integer below [2^52] in absolute value is
    that integer. *)
Lemma to_decimal_integer z :
  (Z.abs z < 2 ^ 52)%Z -> to_decimal (inject_Z z) == inject_Z z.
Proof.
  intros Hz. unfold to_decimal.
  destruct (Qcompare_spec (inject_Z z) 0) as [E|L|G].
  - now rewrite E.
  - assert (Hneg : (z < 0)%Z) by (rewrite Zlt_Qlt; exact L).
    rewrite <- inject_Z_opp.
    rewrite (shortest_from_integer (- z)) by lia.
    rewrite inject_Z_opp. ring.
  - assert (Hpos : (0 < z)%Z) by (rewrite Zlt_Qlt; exact G).
    apply shortest_from_integer; lia.
Qed.

(** [BigNumber(n)] for an integer [n] below [2^52] in absolute value is
    [n]. *)
Lemma of_number_integer z :
  (Z.abs z < 2 ^ 52)%Z -> of_number (num (inject_Z z)) = big (inject_Z z).
Proof.
  intros Hz. unfold num. rewrite Qred_inject_Z. cbn [of_number].
  destruct (is_int32 (inject_Z z)); [reflexivity|].
  apply big_eq. now apply to_decimal_integer.
Qed.

End DecimalExactFacts.

(* ------------------------------------------------------------------ *)
(** ** Amounts that convert exactly *)

Module AmountExactFacts.

Import JsNumber BigNumber Utils Roundoff DecimalBounds NumberFacts AmountFacts
  ExactNumberFacts DecimalExactFacts.
Local Open Scope Q_scope.

Lemma trunc_integer n : trunc (num (inject_Z n)) = num (inject_Z n).
Proof.
  unfold num at 1. cbn [trunc].
  now rewrite (trunc_Q_inject _ n (Qred_correct _)).
Qed.

Lemma frac_integer n :
  JsNumber.sub (num (inject_Z n)) (trunc (num (inject_Z n))) = Num 0.
Proof.
  rewrite trunc_integer. unfold num. cbn [JsNumber.sub].
  rewrite (fl_proper _ 0) by ring. reflexivity.
Qed.

(** On an integer below [2^52] in absolute value nothing is lost: the
    fraction is 0 and every step is exact. *)
Lemma getBN_safe_integer n d :
  (Z.abs n < 2 ^ 52)%Z -> (0 <= d < 2 ^ 31)%Z ->
  getBN (num (inject_Z n)) (num (inject_Z d))
  = Returned (big (inject_Z (n * 10 ^ d))).
Proof.
  intros Hn Hd.
  change (num (inject_Z n)) with (Num (Qred (inject_Z n))) at 1.
  rewrite (getBN_given _ d (Qred (inject_Z n)) 0).
  - f_equal. apply big_eq.
    rewrite <- (round_dp_inject (n * 10 ^ d)). apply round_dp_proper.
    rewrite Qred_correct, inject_Z_mult, (pow10_inject d) by lia.
    unfold G. field. discriminate.
  - lia.
  - change (Num (Qred (inject_Z n))) with (num (inject_Z n)).
    rewrite trunc_integer. now apply of_number_integer.
  - change (Num (Qred (inject_Z n))) with (num (inject_Z n)).
    rewrite frac_integer. reflexivity.
Qed.

(** X1.  For an integer [value] below [2^52] in absolute value and
    [decimals] from 0 to 10^6, [getBN] returns exactly
    [value * 10^decimals]. *)
Theorem getBN_integer n d :
  (Z.abs n < 2 ^ 52)%Z -> (0 <= d <= 10 ^ 6)%Z ->
  getBN (num (inject_Z n)) (num (inject_Z d))
  = Returned (big (inject_Z (n * 10 ^ d))).
Proof. intros Hn Hd. apply getBN_safe_integer; lia. Qed.

Lemma getBN_integer_witness :
  getBN (num (inject_Z 5000000000)) (num (inject_Z 6))
  = Returned (big (inject_Z (5000000000 * 10 ^ 6))).
Proof. apply getBN_integer; lia. Defined.

(** X2.  For a [value] that is NaN or infinite, [getBN] returns NaN
    whenever it returns: never an infinite amount. *)
Theorem getBN_non_finite value decimals b :
  (forall q, value <> Num q) ->
  getBN value decimals = Returned b -> b = BigNaN.
Proof.
  intros Hv. unfold getBN.
  assert (S : plus (times (of_number (trunc value)) (of_number _1e9))
                   (of_number (JsNumber.mul
                                 (JsNumber.sub value (trunc value)) _1e9))
              = BigNaN).
  { destruct value as [q|s|]; [now elim (Hv q)| |reflexivity].
    cbn [trunc JsNumber.sub]. rewrite Bool.eqb_reflx.
    cbn [JsNumber.mul of_number]. rewrite of_number_1e9.
    cbn [times]. now destruct (is_zero _). }
  rewrite S.
  destruct (ten_pow (of_number decimals)) as [p|t]; cbn [bind];
    [|discriminate].
  intros [= <-]. reflexivity.
Qed.

Lemma getBN_non_finite_witness :
  getBN (Inf true) (num (inject_Z 6)) = Returned BigNaN
  /\ BigNaN = BigNaN.
Proof.
  split; [vm_compute; reflexivity|].
  apply (getBN_non_finite (Inf true) (num (inject_Z 6)) BigNaN).
  - discriminate.
  - vm_compute. reflexivity.
Defined.

(** An integer amount above [-2^53], in units of [10^-decimals], is
    converted with a single rounding. *)
Lemma getNumberFromBN_integer_amount m d :
  (- 2 ^ 53 < m)%Z -> (0 <= d <= 18)%Z ->
  getNumberFromBN (big (inject_Z m)) d = fl (inject_Z m / pow10 d).
Proof.
  intros Hm Hd.
  destruct (pow10_number_exact d Hd) as (Hpn & Hpb & _).
  unfold getNumberFromBN.
  rewrite of_number_MAX_SAFE, Hpn, Hpb.
  unfold gt, big.
  assert (Hnz : Qeq_bool (Qred (pow10 d)) 0 = false).
  { apply not_true_is_false. intros H. apply Qeq_bool_iff in H.
    rewrite Qred_correct in H. now apply (pow10_nonzero d). }
  destruct (Qle_bool (Qred (inject_Z m)) (inject_Z (2 ^ 53 - 1))) eqn:Hcmp;
    cbn [negb].
  - apply Qle_bool_iff in Hcmp. rewrite Qred_correct, <- Zle_Qle in Hcmp.
    cbn [toNumber]. rewrite (fl_proper _ (inject_Z m)) by apply Qred_correct.
    rewrite fl_integer by lia.
    unfold num. cbn [JsNumber.div]. rewrite Hnz.
    apply fl_proper. now rewrite !Qred_correct.
  - cbn [BigNumber.div]. unfold is_zero. rewrite Hnz.
    unfold big. cbn [toNumber].
    apply fl_proper. rewrite Qred_correct.
    rewrite (round_dp_proper _ (inject_Z m / pow10 d))
      by now rewrite !Qred_correct.
    apply (round_dp_exact _ _ (quotient_decimals m d Hd)).
Qed.

(** X3.  For an amount that is an integer [m > -2^53] and [decimals] in
    0..18, [getNumberFromBN] returns the double nearest to
    [m / 10^decimals]. *)
Theorem getNumberFromBN_correctly_rounded m d :
  (- 2 ^ 53 < m)%Z -> (0 <= d <= 18)%Z ->
  getNumberFromBN (big (inject_Z m)) d = fl (inject_Z m / pow10 d).
Proof. exact (getNumberFromBN_integer_amount m d). Qed.

Lemma getNumberFromBN_correctly_rounded_witness :
  getNumberFromBN (big (inject_Z 123456789)) 9
  = fl (inject_Z 123456789 / pow10 9).
Proof. apply getNumberFromBN_correctly_rounded; lia. Defined.

(** X4.  A non-negative integer below [2^52] survives the round trip
    through [getBN] and [getNumberFromBN] unchanged, for every
    [decimals] in 0..18. *)
Theorem roundtrip_integer_exact n d :
  (0 <= n < 2 ^ 52)%Z -> (0 <= d <= 18)%Z ->
  exists B,
    getBN (num (inject_Z n)) (num (inject_Z d)) = Returned B
    /\ getNumberFromBN B d = num (inject_Z n).
Proof.
  intros Hn Hd. exists (big (inject_Z (n * 10 ^ d))). split.
  - apply getBN_safe_integer; lia.
  - rewrite getNumberFromBN_integer_amount by nia.
    rewrite (fl_proper _ (inject_Z n)).
    + apply fl_integer. lia.
    + rewrite inject_Z_mult, <- (pow10_inject d) by lia.
      field. apply pow10_nonzero.
Qed.

Lemma roundtrip_integer_exact_witness :
  exists B,
    getBN (num (inject_Z 5000000000)) (num (inject_Z 9)) = Returned B
    /\ getNumberFromBN B 9 = num (inject_Z 5000000000).
Proof. apply roundtrip_integer_exact; lia. Defined.

(** X5.  With [decimals] an integer from -2^31 to -21, [getBN] returns 0
    for every finite [value]: [10^decimals] is itself rounded to 20
    decimal places, which leaves nothing. *)
Theorem getBN_decimals_below_minus_20 v d :
  (- 2 ^ 31 <= d <= -21)%Z ->
  getBN (Num v) (num (inject_Z d)) = Returned (big 0).
Proof.
  intros Hd. unfold getBN.
  destruct (nano_units_finite v) as (f & n & Hf & Hn & _ & _).
  destruct (of_number_Num (Qred (inject_Z (trunc_Q v)))) as (I & HI & _).
  destruct (of_number_Num n) as (N & HN & _).
  change (trunc (Num v)) with (Num (Qred (inject_Z (trunc_Q v)))) in *.
  rewrite Hf, Hn, HI, HN, of_number_1e9.
  rewrite of_number_int32 by lia. rewrite ten_pow_neg by lia.
  cbn [bind times plus big BigNumber.div].
  assert (Hz : is_zero (inject_Z 1000000000) = false) by reflexivity.
  rewrite Hz. f_equal. apply big_eq.
  rewrite <- (round_dp_inject 0). apply round_dp_proper.
  rewrite !Qred_correct, (round_dp_small d) by lia.
  change (inject_Z 0) with 0. field.
Qed.

Lemma getBN_decimals_below_minus_20_witness :
  getBN (Num (12345 # 1)) (num (inject_Z (-21))) = Returned (big 0).
Proof. apply getBN_decimals_below_minus_20. lia. Defined.

End AmountExactFacts.

(* ------------------------------------------------------------------ *)
(** ** [remaining] of an EVM contract *)

Module RemainingFacts.

Import JsNumber BigNumber Roundoff NumberFacts AmountFacts ExactNumberFacts
  AmountExactFacts.
Local Open Scope Q_scope.

(** X6.  For [decimals] in 0..18, [remaining] of an EVM contract is the
    double nearest to [(depositedAmount - withdrawnAmount) /
    10^decimals], whatever the size and the order of the two amounts. *)
Theorem remaining_correctly_rounded (this : Evm.EvmContract) (d : Z) :
  (0 <= d <= 18)%Z ->
  Evm.remaining this d
  = fl (inject_Z (Evm.depositedAmount this - Evm.withdrawnAmount this)
        / pow10 d).
Proof.
  intros Hd. unfold Evm.remaining.
  destruct (pow10_number_exact d Hd) as (Hpn & Hpb & _).
  rewrite Hpn, Hpb. cbn [minus]. unfold big. cbn [BigNumber.div].
  assert (Hnz : is_zero (Qred (pow10 d)) = false).
  { apply not_true_is_false. intros H. apply Qeq_bool_iff in H.
    rewrite Qred_correct in H. now apply (pow10_nonzero d). }
  rewrite Hnz. unfold big. cbn [toNumber].
  apply fl_proper. rewrite Qred_correct.
  set (m := (Evm.depositedAmount this - Evm.withdrawnAmount this)%Z).
  rewrite (round_dp_proper _ (inject_Z m / pow10 d)).
  - apply (round_dp_exact _ _ (quotient_decimals m d Hd)).
  - rewrite !Qred_correct. unfold m, Z.sub.
    rewrite inject_Z_plus, inject_Z_opp. reflexivity.
Qed.

Lemma remaining_correctly_rounded_witness :
  exists c,
    Samples.evm_contract = Returned c
    /\ Evm.remaining c 6
       = fl (inject_Z (Evm.depositedAmount c - Evm.withdrawnAmount c)
             / pow10 6).
Proof.
  destruct Samples.evm_contract as [c|t] eqn:E; [|discriminate E].
  exists c. split; [reflexivity|].
  apply remaining_correctly_rounded. lia.
Defined.

End RemainingFacts.

(* ------------------------------------------------------------------ *)
(** ** [handleContractError]: the callback and nesting *)

Module ErrorWrapperMoreFacts.

Import Js Utils.
Local Open Scope string_scope.

(** X7.  A callback that throws.  When the operation rejects with an
    [Error] and the callback throws while extracting the code,
    [handleContractError] rejects with what the callback threw: no
    [ContractError] is built and the operation's own error is lost.
    The callback is not consulted in the other two cases, which are
    as without it. *)
Theorem handleContractError_callback_throws
    (T : Type) (func : unit -> settled T)
    (extractCode : Error -> completion thrown (option string)) :
  match func tt with
  | Fulfilled v => handleContractError func (Some extractCode) = Fulfilled v
  | Rejected (ErrorValue e) =>
      forall t, extractCode e = Thrown t ->
                handleContractError func (Some extractCode) = Rejected t
  | Rejected other =>
      handleContractError func (Some extractCode) = Rejected other
  end.
Proof.
  unfold handleContractError.
  destruct (func tt) as [v|[e|fields|v]]; cbn; try reflexivity.
  intros t Ht. now rewrite Ht.
Qed.

(** X8.  Wrapping twice wraps twice: an [Error] that passes through
    two nested calls of [handleContractError] arrives as a
    [ContractError] around a [ContractError] around it, the inner one
    with the inner code, the outer one with the code the outer callback
    gives for the inner [ContractError]; a resolved value and a thrown
    value that is not an [Error] pass through both unchanged. *)
Theorem handleContractError_nested
    (T : Type) (func : unit -> settled T)
    (inner outer : Error -> option string) :
  let wrapped :=
    handleContractError
      (fun _ => handleContractError func
                  (Some (fun e => Returned (inner e))))
      (Some (fun e => Returned (outer e))) in
  match func tt with
  | Fulfilled v => wrapped = Fulfilled v
  | Rejected (ErrorValue e) =>
      wrapped
      = Rejected
          (ErrorValue
             (ContractError (ContractError e (inner e))
                            (outer (ContractError e (inner e)))))
  | Rejected other => wrapped = Rejected other
  end.
Proof.
  unfold handleContractError.
  destruct (func tt) as [v|[e|fields|v]]; reflexivity.
Qed.

Lemma handleContractError_callback_throws_witness :
  handleContractError
    (fun _ => @Rejected nat (ErrorValue (PlainError "insufficient funds")))
    (Some (fun _ => Thrown (OtherValue "no code")))
  = Rejected (OtherValue "no code").
Proof.
  exact (handleContractError_callback_throws nat
           (fun _ => Rejected (ErrorValue (PlainError "insufficient funds")))
           (fun _ => Thrown (OtherValue "no code"))
           (OtherValue "no code") eq_refl).
Defined.

End ErrorWrapperMoreFacts.

(* ------------------------------------------------------------------ *)
(** ** Solana client: the outcome of [create] *)

Module ClientOutcomeFacts.

Import Js Solana CollectionFacts StreamCreationFacts.
Local Open Scope string_scope.
Local Open Scope list_scope.



Section Create.

Variable programId : PublicKey.
Variable STREAMFLOW_TREASURY_PUBLIC_KEY : PublicKey.
Variable WITHDRAWOR_PUBLIC_KEY : PublicKey.
Variable FEE_ORACLE_PUBLIC_KEY : PublicKey.
Variable ata : PublicKey -> PublicKey -> PublicKey.
Variable findProgramAddress : string -> PublicKey -> PublicKey -> PublicKey.
Variable generateKeypair : nat -> PublicKey.
Variable latestBlockhash : Blockhash.
Variable sendAndConfirmRawTransaction : Transaction -> settled string.

Let create :=
  Solana.create programId STREAMFLOW_TREASURY_PUBLIC_KEY
    WITHDRAWOR_PUBLIC_KEY FEE_ORACLE_PUBLIC_KEY ata findProgramAddress
    generateKeypair latestBlockhash sendAndConfirmRawTransaction.


End Create.


End ClientOutcomeFacts.

(* ------------------------------------------------------------------ *)
(** ** Solana client: the batch of [createMultiple] *)

Module BatchFacts.

Import Js Solana SolanaBatch CollectionFacts StreamCreationFacts.
Local Open Scope string_scope.
Local Open Scope list_scope.


Section Batch.

Variable programId : PublicKey.
Variable STREAMFLOW_TREASURY_PUBLIC_KEY : PublicKey.
Variable WITHDRAWOR_PUBLIC_KEY : PublicKey.
Variable FEE_ORACLE_PUBLIC_KEY : PublicKey.
Variable ata : PublicKey -> PublicKey -> PublicKey.
Variable findProgramAddress : string -> PublicKey -> PublicKey -> PublicKey.
Variable generateKeypair : nat -> PublicKey.
Variable latestBlockhash : Blockhash.
Variable sendAndConfirmRawTransaction : Transaction -> settled string.
Variable settleOrder : nat -> list nat.

Let prepare_all :=
  Solana.prepare_all programId STREAMFLOW_TREASURY_PUBLIC_KEY
    WITHDRAWOR_PUBLIC_KEY FEE_ORACLE_PUBLIC_KEY ata findProgramAddress
    generateKeypair latestBlockhash.

Let createMultiple :=
  Solana.createMultiple programId STREAMFLOW_TREASURY_PUBLIC_KEY
    WITHDRAWOR_PUBLIC_KEY FEE_ORACLE_PUBLIC_KEY ata findProgramAddress
    generateKeypair latestBlockhash sendAndConfirmRawTransaction settleOrder.

Let prepared_for :=
  SolanaBatch.prepared_for programId STREAMFLOW_TREASURY_PUBLIC_KEY ata
    findProgramAddress latestBlockhash.

(** The keys [Keypair.generate] hands out for [n] recipients. *)
Let keys (w : world) (n : nat) : list PublicKey :=
  map generateKeypair (seq (generated w) n).



End Batch.


End BatchFacts.

(* ------------------------------------------------------------------ *)
(** ** Solana client: what [createMultiple] submits and collects *)
(* ------------------------------------------------------------------ *)

Module BatchOutcomeFacts.

Import Js Solana SolanaBatch CollectionFacts StreamCreationFacts BatchFacts.
Local Open Scope string_scope.
Local Open Scope list_scope.

Section Outcome.

Variable programId : PublicKey.
Variable STREAMFLOW_TREASURY_PUBLIC_KEY : PublicKey.
Variable WITHDRAWOR_PUBLIC_KEY : PublicKey.
Variable FEE_ORACLE_PUBLIC_KEY : PublicKey.
Variable ata : PublicKey -> PublicKey -> PublicKey.
Variable findProgramAddress : string -> PublicKey -> PublicKey -> PublicKey.
Variable generateKeypair : nat -> PublicKey.
Variable latestBlockhash : Blockhash.
Variable sendAndConfirmRawTransaction : Transaction -> settled string.
Variable settleOrder : nat -> list nat.

Let createMultiple :=
  Solana.createMultiple programId STREAMFLOW_TREASURY_PUBLIC_KEY
    WITHDRAWOR_PUBLIC_KEY FEE_ORACLE_PUBLIC_KEY ata findProgramAddress
    generateKeypair latestBlockhash sendAndConfirmRawTransaction settleOrder.

Let prepareStreamTransaction :=
  Solana.prepareStreamTransaction programId STREAMFLOW_TREASURY_PUBLIC_KEY
    WITHDRAWOR_PUBLIC_KEY FEE_ORACLE_PUBLIC_KEY ata findProgramAddress
    generateKeypair latestBlockhash.

Let prepared_for :=
  SolanaBatch.prepared_for programId STREAMFLOW_TREASURY_PUBLIC_KEY ata
    findProgramAddress latestBlockhash.


Let send := sendAndConfirmStreamRawTransaction sendAndConfirmRawTransaction.

(** The keys [Keypair.generate] hands out for [n] recipients. *)
Let keys (w : world) (n : nat) : list PublicKey :=
  map generateKeypair (seq (generated w) n).








End Outcome.


End BatchOutcomeFacts.

(* ------------------------------------------------------------------ *)
(** ** Solana client: more of [get] *)

Module StreamQueryMoreFacts.

Import Js Solana CollectionFacts.
Local Open Scope string_scope.
Local Open Scope list_scope.

Lemma filter_partition {A} (f : A -> bool) (l : list A) :
  Permutation (filter f l ++ filter (fun x => negb (f x)) l) l.
Proof.
  induction l as [|x rest IH]; cbn; [reflexivity|].
  destruct (f x); cbn.
  - now constructor.
  - rewrite <- Permutation_middle. now constructor.
Qed.

Lemma assign_In {V} (o : list (string * V)) k v k' v' :
  NoDup (map fst o) ->
  In (k', v') (assign o k v)
  <-> (k' = k /\ v' = v) \/ (k' <> k /\ In (k', v') o).
Proof.
  induction o as [|[k0 v0] rest IH]; cbn; intros Hnd.
  - split.
    + intros [[= <- <-]|[]]. now left.
    + intros [[-> ->]|[_ []]]. now left.
  - inversion Hnd as [|? ? Hnotin Hrest]; subst.
    destruct (String.eqb_spec k0 k) as [->|Hne]; cbn.
    + split.
      * intros [[= <- <-]|Hin]; [now left|].
        right. split; [|now right].
        intros ->. apply Hnotin. now apply (in_map fst) in Hin.
      * intros [[-> ->]|[Hne [[= <- <-]|Hin]]]; [now left|now elim Hne|].
        now right.
    + rewrite (IH Hrest). split.
      * intros [[= <- <-]|[[-> ->]|[Hd Hin]]].
        -- right. split; [exact Hne|now left].
        -- now left.
        -- right. split; [exact Hd|now right].
      * intros [[-> ->]|[Hd [[= <- <-]|Hin]]].
        -- right. now left.
        -- now left.
        -- right. right. now split.
Qed.

Section Get.

Variable programId : PublicKey.
Variables STREAM_STRUCT_OFFSET_SENDER STREAM_STRUCT_OFFSET_RECIPIENT : Z.
Variable Contract : Type.
Variable decodeStream : list Byte.byte -> completion thrown Contract.
Variable startTime : Contract -> option Z.
Variable canTopup : Contract -> bool.
Variable getProgramAccounts :
  PublicKey -> Z -> PublicKey -> completion thrown (list Account).

Let get :=
  Solana.get programId STREAM_STRUCT_OFFSET_SENDER
    STREAM_STRUCT_OFFSET_RECIPIENT Contract decodeStream startTime canTopup
    getProgramAccounts.

(** The accounts [get] fetches for a direction, in the order it decodes
    them. *)
Let fetched (wallet : PublicKey) (direction : StreamDirection)
  : completion thrown (list Account) :=
  match direction with
  | AllDirections =>
      outgoing <-
        getProgramAccounts wallet STREAM_STRUCT_OFFSET_SENDER programId ;;
      incoming <-
        getProgramAccounts wallet STREAM_STRUCT_OFFSET_RECIPIENT programId ;;
      Returned (outgoing ++ incoming)
  | Outgoing =>
      getProgramAccounts wallet STREAM_STRUCT_OFFSET_SENDER programId
  | Incoming =>
      getProgramAccounts wallet STREAM_STRUCT_OFFSET_RECIPIENT programId
  end.

Let decodes (a : Account) : Prop :=
  exists c, decodeStream (data a) = Returned c.

Lemma get_fetched wallet type direction :
  get wallet type direction
  = (accounts <- fetched wallet direction ;;
     streams <- decode_all Contract decodeStream accounts [] ;;
     let sortedStreams := sort (by_start_desc Contract startTime) streams in
     match type with
     | AllTypes => Returned sortedStreams
     | StreamOnly =>
         Returned (filter (fun s => canTopup (snd s)) sortedStreams)
     | VestingOnly =>
         Returned (filter (fun s => negb (canTopup (snd s))) sortedStreams)
     end).
Proof.
  unfold get, Solana.get, fetched. destruct direction; reflexivity.
Qed.

(** X11.  The three values of [type] are three views of one result: what
    [get] returns for "stream" and for "vesting" are the entries of the
    result for "all" with the top-up flag set and unset, in the same
    order; together they hold every entry of it exactly once.  When
    [get] throws for "all" it throws the same for the other two. *)
Theorem get_type_views wallet direction :
  match get wallet AllTypes direction with
  | Returned all =>
      let streams := filter (fun s => canTopup (snd s)) all in
      let vestings := filter (fun s => negb (canTopup (snd s))) all in
      get wallet StreamOnly direction = Returned streams
      /\ get wallet VestingOnly direction = Returned vestings
      /\ Permutation (streams ++ vestings) all
  | Thrown t =>
      get wallet StreamOnly direction = Thrown t
      /\ get wallet VestingOnly direction = Thrown t
  end.
Proof.
  rewrite !get_fetched.
  destruct (fetched wallet direction) as [accounts|t]; cbn [bind];
    [|now split].
  destruct (decode_all Contract decodeStream accounts []) as [streams|t];
    cbn [bind]; [|now split].
  cbv zeta. split; [reflexivity|]. split; [reflexivity|].
  apply filter_partition.
Qed.

Lemma decode_all_returns accounts :
  forall streams,
    (exists l, decode_all Contract decodeStream accounts streams = Returned l)
    <-> Forall decodes accounts.
Proof.
  induction accounts as [|a rest IH]; intros streams; cbn.
  - split; [constructor|]. intros _. now eexists.
  - destruct (decodeStream (data a)) as [c|t] eqn:E; cbn [bind].
    + rewrite IH. split.
      * intros H. constructor; [now exists c|exact H].
      * now inversion 1.
    + split.
      * intros [l H]. discriminate H.
      * inversion 1 as [|? ? [c Hc] _]; subst. congruence.
Qed.

Lemma decode_all_first_failure pre a post t :
  Forall decodes pre ->
  decodeStream (data a) = Thrown t ->
  forall streams,
    decode_all Contract decodeStream (pre ++ a :: post) streams = Thrown t.
Proof.
  intros Hpre Ha. induction Hpre as [|x pre [c Hc] _ IH]; intros streams; cbn.
  - now rewrite Ha.
  - rewrite Hc. cbn [bind]. apply IH.
Qed.

(** X12.  [get] is all or nothing.  When a lookup throws, [get] throws
    the same.  Otherwise it returns a list exactly when every fetched
    account decodes; if some do not, it throws the error of the first
    such account in fetch order, and no entry is returned. *)
Theorem get_all_or_nothing wallet type direction :
  match fetched wallet direction with
  | Thrown t => get wallet type direction = Thrown t
  | Returned accounts =>
      ((exists l, get wallet type direction = Returned l)
       <-> Forall decodes accounts)
      /\ (forall pre a post t,
            accounts = pre ++ a :: post ->
            Forall decodes pre ->
            decodeStream (data a) = Thrown t ->
            get wallet type direction = Thrown t)
  end.
Proof.
  rewrite get_fetched.
  destruct (fetched wallet direction) as [accounts|t]; cbn [bind];
    [|reflexivity].
  split.
  - rewrite <- (decode_all_returns accounts []).
    destruct (decode_all Contract decodeStream accounts []) as [streams|t];
      cbn [bind].
    + split; intros _; [now eexists|]. destruct type; now eexists.
    + split; intros [l H]; discriminate H.
  - intros pre a post t -> Hpre Ha.
    now rewrite (decode_all_first_failure pre a post t Hpre Ha).
Qed.

Lemma decode_all_entries accounts :
  forall streams l,
    NoDup (map fst streams) ->
    decode_all Contract decodeStream accounts streams = Returned l ->
    forall k c,
      In (k, c) l
      <-> (In (k, c) streams /\ ~ In k (map pubkey accounts))
          \/ (exists pre a post,
                 accounts = pre ++ a :: post
                 /\ pubkey a = k
                 /\ decodeStream (data a) = Returned c
                 /\ ~ In k (map pubkey post)).
Proof.
  induction accounts as [|a rest IH]; intros streams l Hnd H k c.
  - cbn in H. injection H as <-. split.
    + intros Hin. left. split; [exact Hin|intros []].
    + intros [[Hin _]|(pre & a & post & E & _)]; [exact Hin|].
      now destruct pre.
  - cbn in H. destruct (decodeStream (data a)) as [c0|t] eqn:E;
      cbn [bind] in H; [|discriminate H].
    rewrite (IH _ _ (assign_NoDup _ _ _ Hnd) H k c).
    rewrite (assign_In _ _ _ _ _ Hnd). cbn [map In]. split.
    + intros [[[[-> ->]|[Hne Hin]] Hrest]|(pre & a' & post & -> & Hk & Hc & Hp)].
      * right. exists [], a, rest. now repeat split.
      * left. split; [exact Hin|]. intros [Heq|Hin']; [now elim Hne|].
        now apply Hrest.
      * right. exists (a :: pre), a', post. now repeat split.
    + intros [[Hin Hnot]|(pre & a' & post & Heq & Hk & Hc & Hp)].
      * left. split.
        -- right. split; [|exact Hin]. intros ->. apply Hnot. now left.
        -- intros Hr. apply Hnot. now right.
      * destruct pre as [|x pre]; cbn in Heq; injection Heq as -> ->.
        -- left. split; [|exact Hp]. left. split; [now symmetry|].
           congruence.
        -- right. exists pre, a', post. now repeat split.
Qed.

(** X13.  Which account an entry comes from.  With type "all", [get]
    returns the entry [(k, c)] exactly when [c] is decoded from the
    last of the fetched accounts whose address is [k]: for an address
    fetched more than once (a stream the wallet sent to itself, with
    direction "all") the later copy replaces the earlier one. *)
Theorem get_entries wallet direction accounts l :
  fetched wallet direction = Returned accounts ->
  get wallet AllTypes direction = Returned l ->
  forall k c,
    In (k, c) l
    <-> exists pre a post,
          accounts = pre ++ a :: post
          /\ pubkey a = k
          /\ decodeStream (data a) = Returned c
          /\ ~ In k (map pubkey post).
Proof.
  intros Hf H k c. rewrite get_fetched, Hf in H. cbn [bind] in H.
  destruct (decode_all Contract decodeStream accounts []) as [streams|t] eqn:E;
    cbn [bind] in H; [|discriminate H].
  injection H as <-.
  pose proof (sort_perm (by_start_desc Contract startTime) streams) as Hperm.
  assert (Hin : In (k, c) (sort (by_start_desc Contract startTime) streams)
                <-> In (k, c) streams).
  { split; apply Permutation_in; [exact Hperm|now apply Permutation_sym]. }
  rewrite Hin, (decode_all_entries accounts [] streams (NoDup_nil _) E k c).
  split; [|now right].
  intros [[[] _]|H]; exact H.
Qed.

End Get.

Lemma get_entries_witness :
  exists l,
    Samples.get "wallet" AllTypes AllDirections = Returned l
    /\ In ("Stream1", (7%Z, true)) l.
Proof.
  destruct (Samples.get "wallet" AllTypes AllDirections) as [l|t] eqn:E;
    [|vm_compute in E; discriminate E].
  exists l. split; [reflexivity|].
  apply (get_entries Samples.programId 49 113 (Z * bool)%type
           Samples.decode (fun _ => None) snd Samples.lookups "wallet"
           AllDirections
           [Samples.selfStream; Samples.otherStream; Samples.selfStream]
           l eq_refl E).
  exists [Samples.selfStream; Samples.otherStream], Samples.selfStream, [].
  repeat split. intros [].
Defined.

End StreamQueryMoreFacts.

(* ------------------------------------------------------------------ *)
(** ** Solana client: [withdraw], [cancel], [transfer], [topup] and
    [createUnchecked] *)

Module ActionFacts.

Import Js SolanaActions.
Local Open Scope string_scope.
Local Open Scope list_scope.

Lemma action_mbind_run {A B} (m : M A) (k : A -> M B) w :
  mbind m k w
  = match m w with
    | (Returned a, w') => k a w'
    | (Thrown t, w') => (Thrown t, w')
    end.
Proof. reflexivity. Qed.

Lemma action_ret_run {A} (a : A) w : ret a w = (Returned a, w).
Proof. reflexivity. Qed.

Lemma action_throw_run {A} t w : @throw A t w = (Thrown t, w).
Proof. reflexivity. Qed.

Lemma lift_run {A} (c : completion thrown A) w : lift c w = (c, w).
Proof. reflexivity. Qed.

Lemma action_emit_run e w : emit e w = (Returned tt, extend w [e]).
Proof. reflexivity. Qed.

Lemma action_await_run {A} (p : settled A) w :
  await p w
  = match p with
    | Fulfilled a => (Returned a, w)
    | Rejected t => (Thrown t, w)
    end.
Proof. now destruct p. Qed.


Lemma getAccountInfo_run accountData address w :
  getAccountInfo accountData address w
  = (match accountData address with
     | Fulfilled d => Returned d
     | Rejected t => Thrown t
     end, extend w [EvGetAccountInfo address]).
Proof.
  unfold getAccountInfo. rewrite action_mbind_run, action_emit_run, action_await_run.
  now destruct (accountData address).
Qed.


Lemma extend_extend w a b : extend (extend w a) b = extend w (a ++ b).
Proof. unfold extend. cbn. now rewrite <- app_assoc. Qed.

(** How [sign] ends, for an invoker with a public key. *)
Lemma action_sign_run ledger invoker k t hash w :
  Solana.publicKey invoker = Some k ->
  Solana.blockhash hash <> "" ->
  sign ledger invoker t hash w
  = if negb (Solana.approves_signing invoker)
    then (Thrown Solana.user_rejected, w)
    else if (Solana.lastValidBlockHeight hash =? 0)%Z
    then (Thrown bad_transaction_parameters, w)
    else
      let signed := partialSign t k in
      (match ledger signed with
       | Fulfilled sig => Returned sig
       | Rejected reason => Thrown reason
       end,
       extend w [EvSend signed;
                 EvSettled signed (Solana.is_fulfilled (ledger signed))]).
Proof.
  intros Hk Hbh. unfold sign.
  apply String.eqb_neq in Hbh.
  assert (Hs : forall s, signatures (partialSign t s) <> []).
  { intros s. unfold partialSign. cbn. now destruct (signatures t). }
  destruct invoker as [k'|[k'|] [|]]; cbn in Hk; try discriminate Hk;
    injection Hk as ->; cbn [Solana.approves_signing negb];
    rewrite action_mbind_run, ?action_ret_run, ?action_throw_run; try reflexivity.
  - destruct (signatures (partialSign t k)) eqn:E; [now elim (Hs k)|].
    rewrite Hbh, !orb_false_r.
    destruct (Solana.lastValidBlockHeight hash =? 0)%Z; [reflexivity|].
    rewrite action_mbind_run, action_emit_run, action_mbind_run, action_emit_run, action_await_run,
      extend_extend.
    cbn [app]. now destruct (ledger (partialSign t k)).
  - destruct (signatures (partialSign t k)) eqn:E; [now elim (Hs k)|].
    rewrite Hbh, !orb_false_r.
    destruct (Solana.lastValidBlockHeight hash =? 0)%Z; [reflexivity|].
    rewrite action_mbind_run, action_emit_run, action_mbind_run, action_emit_run, action_await_run,
      extend_extend.
    cbn [app]. now destruct (ledger (partialSign t k)).
Qed.

Section Client.

Variable programId : Solana.PublicKey.
Variable STREAMFLOW_TREASURY_PUBLIC_KEY : Solana.PublicKey.
Variable WITHDRAWOR_PUBLIC_KEY : Solana.PublicKey.
Variable FEE_ORACLE_PUBLIC_KEY : Solana.PublicKey.
Variable ata : Solana.PublicKey -> Solana.PublicKey -> Solana.PublicKey.
Variable findProgramAddress :
  string -> Solana.PublicKey -> Solana.PublicKey -> Solana.PublicKey.
Variable generateKeypair : nat -> Solana.PublicKey.
Variable latestBlockhash : Solana.Blockhash.
Variable sendAndConfirmRawTransaction : Transaction -> settled string.
Variable accountData : Solana.PublicKey -> settled (option (list Byte.byte)).
Variable minimumBalanceForRentExemption : Z -> settled Z.
Variable decodeStream : list Byte.byte -> completion thrown DecodedStream.

Let withdraw :=
  SolanaActions.withdraw programId STREAMFLOW_TREASURY_PUBLIC_KEY ata
    latestBlockhash sendAndConfirmRawTransaction accountData decodeStream.

Let cancel :=
  SolanaActions.cancel programId STREAMFLOW_TREASURY_PUBLIC_KEY ata
    latestBlockhash sendAndConfirmRawTransaction accountData decodeStream.

Let transfer :=
  SolanaActions.transfer programId ata latestBlockhash
    sendAndConfirmRawTransaction accountData decodeStream.

Let topup :=
  SolanaActions.topup programId STREAMFLOW_TREASURY_PUBLIC_KEY
    WITHDRAWOR_PUBLIC_KEY ata latestBlockhash sendAndConfirmRawTransaction
    accountData decodeStream.

(** X14.  The guards of [withdraw], [cancel], [transfer] and [topup].
    Without a public key each of them throws before any request is
    made.  With one, each reads the stream account once and throws,
    without sending anything, when the read fails, when there is no
    such account ("Couldn't get account info") and when the account
    does not decode. *)
Theorem interaction_guards id amount newRecipient isNative invoker w op :
  In op [withdraw id amount invoker; cancel id invoker;
         transfer id newRecipient invoker; topup id amount invoker isNative] ->
  match Solana.publicKey invoker with
  | None => op w = (Thrown invoker_missing_key, w)
  | Some _ =>
      let w1 := extend w [EvGetAccountInfo id] in
      match accountData id with
      | Rejected t => op w = (Thrown t, w1)
      | Fulfilled None => op w = (Thrown no_account_info, w1)
      | Fulfilled (Some bytes) =>
          forall t, decodeStream bytes = Thrown t -> op w = (Thrown t, w1)
      end
  end.
Proof.
  intros Hop.
  assert (Hcases : op = withdraw id amount invoker \/ op = cancel id invoker
                   \/ op = transfer id newRecipient invoker
                   \/ op = topup id amount invoker isNative).
  { destruct Hop as [H|[H|[H|[H|[]]]]]; symmetry in H;
      [left|right; left|right; right; left|right; right; right];
      exact H. }
  clear Hop.
  unfold withdraw, cancel, transfer, topup, SolanaActions.withdraw,
    SolanaActions.cancel, SolanaActions.transfer, SolanaActions.topup
    in Hcases.
  destruct (Solana.publicKey invoker) as [k|].
  - cbv zeta.
    destruct (accountData id) as [[bytes|]|t] eqn:E.
    + intros t Ht.
      destruct Hcases as [-> | [-> | [-> | -> ]]];
        rewrite action_mbind_run, getAccountInfo_run, E, action_mbind_run, lift_run, Ht;
        reflexivity.
    + destruct Hcases as [-> | [-> | [-> | -> ]]];
        rewrite action_mbind_run, getAccountInfo_run, E; reflexivity.
    + destruct Hcases as [-> | [-> | [-> | -> ]]];
        rewrite action_mbind_run, getAccountInfo_run, E; reflexivity.
  - destruct Hcases as [-> | [-> | [-> | -> ]]]; reflexivity.
Qed.

(** The steps shared by the four operations once the account is
    decoded: [sign] and the response. *)
Ltac finish k :=
  rewrite action_mbind_run, (action_sign_run _ _ k) by assumption;
  destruct (negb (Solana.approves_signing _)); [reflexivity|];
  destruct (Solana.lastValidBlockHeight latestBlockhash =? 0)%Z;
    [reflexivity|];
  unfold partialSign;
  cbn [feePayer recentBlockhash instructions signatures app map];
  match goal with
  | |- context [sendAndConfirmRawTransaction ?t] =>
      destruct (sendAndConfirmRawTransaction t) eqn:E
  end;
  rewrite ?action_ret_run, extend_extend; cbn [app].

(** X15.  What [withdraw] sends.  For an invoker with a key, a stream
    account that decodes and a ledger whose blockhash is not empty,
    [withdraw] throws without sending when the invoker declines to sign
    or the last valid block height is 0; otherwise it sends one
    transaction, paid and signed by the invoker alone, with the one
    withdraw instruction for the requested amount.
    In that instruction the invoker is both the authority and the
    recipient, whoever the recipient recorded in the stream is, while
    the recipient's token account is the one recorded in the stream;
    the treasury's and the partner's token accounts are derived from
    the stream's mint.  It returns the instruction and the transaction
    id when the ledger confirms, and throws the ledger's error when
    not. *)
Theorem withdraw_outcome id amount invoker k bytes data w :
  Solana.publicKey invoker = Some k ->
  accountData id = Fulfilled (Some bytes) ->
  decodeStream bytes = Returned data ->
  Solana.blockhash latestBlockhash <> "" ->
  let w1 := extend w [EvGetAccountInfo id] in
  if negb (Solana.approves_signing invoker)
  then withdraw id amount invoker w = (Thrown Solana.user_rejected, w1)
  else if (Solana.lastValidBlockHeight latestBlockhash =? 0)%Z
  then withdraw id amount invoker w = (Thrown bad_transaction_parameters, w1)
  else
    exists accounts,
      let ix := withdrawStreamInstruction amount programId accounts in
      let signed :=
        {| feePayer := k;
           recentBlockhash := latestBlockhash;
           instructions := [ix];
           signatures := [k] |} in
      wd_authority accounts = k
      /\ wd_recipient accounts = k
      /\ wd_recipientTokens accounts = recipientTokens data
      /\ wd_metadata accounts = id
      /\ wd_escrowTokens accounts = escrowTokens data
      /\ wd_mint accounts = mint data
      /\ wd_streamflowTreasury accounts = STREAMFLOW_TREASURY_PUBLIC_KEY
      /\ wd_streamflowTreasuryTokens accounts
         = ata (mint data) STREAMFLOW_TREASURY_PUBLIC_KEY
      /\ wd_partner accounts = partner data
      /\ wd_partnerTokens accounts = ata (mint data) (partner data)
      /\ withdraw id amount invoker w
         = (match sendAndConfirmRawTransaction signed with
            | Fulfilled sig => Returned {| ixs := [ix]; tx := sig |}
            | Rejected reason => Thrown reason
            end,
            extend w
              [EvGetAccountInfo id; EvSend signed;
               EvSettled signed
                 (Solana.is_fulfilled (sendAndConfirmRawTransaction signed))]).
Proof.
  intros Hk Hacc Hdec Hbh. cbv zeta.
  unfold withdraw, SolanaActions.withdraw.
  rewrite Hk, action_mbind_run, getAccountInfo_run, Hacc, action_mbind_run, lift_run, Hdec.
  finish k;
    match type of E with
    | context [withdrawStreamInstruction _ _ ?a] => exists a
    end;
    cbv zeta; rewrite E; repeat split.
Qed.

(** X16.  What [cancel] sends.  For an invoker with a key, a stream
    account that decodes and a ledger whose blockhash is not empty:
    nothing when the invoker declines to sign or the last valid block
    height is 0; otherwise one transaction, paid and signed by the
    invoker alone, with the one cancel instruction.  The
    invoker is the authority; the sender, the recipient and their token
    accounts, the escrow account, the partner and the mint are the ones
    recorded in the stream; the treasury's and the partner's token
    accounts are derived from the stream's mint. *)
Theorem cancel_outcome id invoker k bytes data w :
  Solana.publicKey invoker = Some k ->
  accountData id = Fulfilled (Some bytes) ->
  decodeStream bytes = Returned data ->
  Solana.blockhash latestBlockhash <> "" ->
  let w1 := extend w [EvGetAccountInfo id] in
  if negb (Solana.approves_signing invoker)
  then cancel id invoker w = (Thrown Solana.user_rejected, w1)
  else if (Solana.lastValidBlockHeight latestBlockhash =? 0)%Z
  then cancel id invoker w = (Thrown bad_transaction_parameters, w1)
  else
    exists accounts,
      let ix := cancelStreamInstruction programId accounts in
      let signed :=
        {| feePayer := k;
           recentBlockhash := latestBlockhash;
           instructions := [ix];
           signatures := [k] |} in
      cn_authority accounts = k
      /\ cn_sender accounts = sender data
      /\ cn_senderTokens accounts = senderTokens data
      /\ cn_recipient accounts = recipient data
      /\ cn_recipientTokens accounts = recipientTokens data
      /\ cn_metadata accounts = id
      /\ cn_escrowTokens accounts = escrowTokens data
      /\ cn_mint accounts = mint data
      /\ cn_streamflowTreasury accounts = STREAMFLOW_TREASURY_PUBLIC_KEY
      /\ cn_streamflowTreasuryTokens accounts
         = ata (mint data) STREAMFLOW_TREASURY_PUBLIC_KEY
      /\ cn_partner accounts = partner data
      /\ cn_partnerTokens accounts = ata (mint data) (partner data)
      /\ cancel id invoker w
         = (match sendAndConfirmRawTransaction signed with
            | Fulfilled sig => Returned {| ixs := [ix]; tx := sig |}
            | Rejected reason => Thrown reason
            end,
            extend w
              [EvGetAccountInfo id; EvSend signed;
               EvSettled signed
                 (Solana.is_fulfilled (sendAndConfirmRawTransaction signed))]).
Proof.
  intros Hk Hacc Hdec Hbh. cbv zeta.
  unfold cancel, SolanaActions.cancel.
  rewrite Hk, action_mbind_run, getAccountInfo_run, Hacc, action_mbind_run, lift_run, Hdec.
  finish k;
    match type of E with
    | context [cancelStreamInstruction _ ?a] => exists a
    end;
    cbv zeta; rewrite E; repeat split.
Qed.

(** X17.  What [transfer] sends.  For an invoker with a key, a stream
    account that decodes and a ledger whose blockhash is not empty:
    nothing when the invoker declines to sign or the last valid block
    height is 0; otherwise one transaction,
    paid and signed by the invoker alone, with the one transfer
    instruction, in which the invoker is the authority and the new
    recipient's token account is derived from the stream's mint. *)
Theorem transfer_outcome id newRecipient invoker k bytes data w :
  Solana.publicKey invoker = Some k ->
  accountData id = Fulfilled (Some bytes) ->
  decodeStream bytes = Returned data ->
  Solana.blockhash latestBlockhash <> "" ->
  let w1 := extend w [EvGetAccountInfo id] in
  if negb (Solana.approves_signing invoker)
  then transfer id newRecipient invoker w = (Thrown Solana.user_rejected, w1)
  else if (Solana.lastValidBlockHeight latestBlockhash =? 0)%Z
  then transfer id newRecipient invoker w
       = (Thrown bad_transaction_parameters, w1)
  else
    exists accounts,
      let ix := transferStreamInstruction programId accounts in
      let signed :=
        {| feePayer := k;
           recentBlockhash := latestBlockhash;
           instructions := [ix];
           signatures := [k] |} in
      tr_authority accounts = k
      /\ tr_newRecipient accounts = newRecipient
      /\ tr_newRecipientTokens accounts = ata (mint data) newRecipient
      /\ tr_metadata accounts = id
      /\ tr_mint accounts = mint data
      /\ transfer id newRecipient invoker w
         = (match sendAndConfirmRawTransaction signed with
            | Fulfilled sig => Returned {| ixs := [ix]; tx := sig |}
            | Rejected reason => Thrown reason
            end,
            extend w
              [EvGetAccountInfo id; EvSend signed;
               EvSettled signed
                 (Solana.is_fulfilled (sendAndConfirmRawTransaction signed))]).
Proof.
  intros Hk Hacc Hdec Hbh. cbv zeta.
  unfold transfer, SolanaActions.transfer.
  rewrite Hk, action_mbind_run, getAccountInfo_run, Hacc, action_mbind_run, lift_run, Hdec.
  finish k;
    match type of E with
    | context [transferStreamInstruction _ ?a] => exists a
    end;
    cbv zeta; rewrite E; repeat split.
Qed.

(** X18.  What [topup] sends.  For an invoker with a key, a stream
    account that decodes and a ledger whose blockhash is not empty:
    nothing when the invoker declines to sign or the last valid block
    height is 0; otherwise one transaction, paid and
    signed by the invoker alone, holding the wrap instruction of the
    top-up amount (only when [isNative]) followed by the one top-up
    instruction.  The invoker is the sender of that instruction, while
    the sender's token account is the one recorded in the stream.  The
    instruction list it returns holds the top-up instruction alone. *)
Theorem topup_outcome id amount isNative invoker k bytes data w :
  Solana.publicKey invoker = Some k ->
  accountData id = Fulfilled (Some bytes) ->
  decodeStream bytes = Returned data ->
  Solana.blockhash latestBlockhash <> "" ->
  let w1 := extend w [EvGetAccountInfo id] in
  if negb (Solana.approves_signing invoker)
  then topup id amount invoker isNative w = (Thrown Solana.user_rejected, w1)
  else if (Solana.lastValidBlockHeight latestBlockhash =? 0)%Z
  then topup id amount invoker isNative w
       = (Thrown bad_transaction_parameters, w1)
  else
    exists accounts,
      let ix := topupStreamInstruction amount programId accounts in
      let signed :=
        {| feePayer := k;
           recentBlockhash := latestBlockhash;
           instructions :=
             (if isNative
              then [wrapping (Solana.wrapInstruction k amount)]
              else []) ++ [ix];
           signatures := [k] |} in
      tu_sender accounts = k
      /\ tu_senderTokens accounts = senderTokens data
      /\ tu_metadata accounts = id
      /\ tu_escrowTokens accounts = escrowTokens data
      /\ tu_mint accounts = mint data
      /\ tu_streamflowTreasury accounts = STREAMFLOW_TREASURY_PUBLIC_KEY
      /\ tu_streamflowTreasuryTokens accounts
         = ata (mint data) STREAMFLOW_TREASURY_PUBLIC_KEY
      /\ tu_partner accounts = partner data
      /\ tu_partnerTokens accounts = ata (mint data) (partner data)
      /\ tu_withdrawor accounts = WITHDRAWOR_PUBLIC_KEY
      /\ topup id amount invoker isNative w
         = (match sendAndConfirmRawTransaction signed with
            | Fulfilled sig => Returned {| ixs := [ix]; tx := sig |}
            | Rejected reason => Thrown reason
            end,
            extend w
              [EvGetAccountInfo id; EvSend signed;
               EvSettled signed
                 (Solana.is_fulfilled (sendAndConfirmRawTransaction signed))]).
Proof.
  intros Hk Hacc Hdec Hbh. cbv zeta.
  unfold topup, SolanaActions.topup.
  rewrite Hk, action_mbind_run, getAccountInfo_run, Hacc, action_mbind_run, lift_run, Hdec.
  unfold Solana.prepareWrappedAccount.
  replace (if isNative
           then map wrapping [Solana.wrapInstruction k amount]
           else [])
    with (if isNative
          then [wrapping (Solana.wrapInstruction k amount)]
          else []) by now destruct isNative.
  finish k;
    match type of E with
    | context [topupStreamInstruction _ _ ?a] => exists a
    end;
    cbv zeta; rewrite E; repeat split.
Qed.

Let createUnchecked :=
  SolanaActions.createUnchecked programId STREAMFLOW_TREASURY_PUBLIC_KEY
    WITHDRAWOR_PUBLIC_KEY FEE_ORACLE_PUBLIC_KEY ata findProgramAddress
    generateKeypair latestBlockhash sendAndConfirmRawTransaction
    minimumBalanceForRentExemption.


End Client.


Lemma interaction_guards_witness :
  ActionSamples.withdraw "Stream9" 10 (Solana.Keypair "bob")
    ActionSamples.fresh
  = (Thrown no_account_info,
     extend ActionSamples.fresh [EvGetAccountInfo "Stream9"])
  /\ ActionSamples.cancel "Stream2" (Solana.Keypair "bob") ActionSamples.fresh
     = (Thrown (ErrorValue (PlainError "DecodeError")),
        extend ActionSamples.fresh [EvGetAccountInfo "Stream2"]).
Proof.
  split.
  - exact (interaction_guards Samples.programId Samples.treasury
             Samples.withdrawor Samples.ata Samples.latestBlockhash
             ActionSamples.confirm ActionSamples.accountData
             ActionSamples.decode "Stream9" 10 "carol" false
             (Solana.Keypair "bob") ActionSamples.fresh _
             (or_introl eq_refl)).
  - exact (interaction_guards Samples.programId Samples.treasury
             Samples.withdrawor Samples.ata Samples.latestBlockhash
             ActionSamples.confirm ActionSamples.accountData
             ActionSamples.decode "Stream2" 10 "carol" false
             (Solana.Keypair "bob") ActionSamples.fresh _
             (or_intror (or_introl eq_refl)) _ eq_refl).
Defined.

Lemma withdraw_outcome_witness :
  exists accounts sent,
    wd_recipient accounts = "bob"
    /\ wd_recipientTokens accounts = "bob-usdc"
    /\ ActionSamples.withdraw "Stream1" 10 (Solana.Keypair "bob")
         ActionSamples.fresh
       = (Returned
            {| ixs := [withdrawStreamInstruction 10 Samples.programId
                         accounts];
               tx := "sig:1" |},
          extend ActionSamples.fresh
            [EvGetAccountInfo "Stream1"; EvSend sent; EvSettled sent true]).
Proof.
  destruct (withdraw_outcome Samples.programId Samples.treasury Samples.ata
              Samples.latestBlockhash ActionSamples.confirm
              ActionSamples.accountData ActionSamples.decode
              "Stream1" 10 (Solana.Keypair "bob") "bob" [Byte.x07]
              ActionSamples.stream ActionSamples.fresh
              eq_refl eq_refl eq_refl ltac:(discriminate))
    as (accounts & _ & H2 & H3 & _ & _ & _ & _ & _ & _ & _ & Hrun).
  exists accounts. eexists.
  split; [exact H2|]. split; [exact H3|exact Hrun].
Defined.

Lemma cancel_outcome_witness :
  exists accounts sent,
    cn_authority accounts = "alice"
    /\ cn_recipientTokens accounts = "bob-usdc"
    /\ instructions sent
       = [cancelStreamInstruction Samples.programId accounts]
    /\ ActionSamples.cancel "Stream1" (Solana.Keypair "alice")
         ActionSamples.fresh
       = (Returned
            {| ixs := [cancelStreamInstruction Samples.programId accounts];
               tx := "sig:1" |},
          extend ActionSamples.fresh
            [EvGetAccountInfo "Stream1"; EvSend sent; EvSettled sent true]).
Proof.
  destruct (cancel_outcome Samples.programId Samples.treasury Samples.ata
              Samples.latestBlockhash ActionSamples.confirm
              ActionSamples.accountData ActionSamples.decode
              "Stream1" (Solana.Keypair "alice") "alice" [Byte.x07]
              ActionSamples.stream ActionSamples.fresh
              eq_refl eq_refl eq_refl ltac:(discriminate))
    as (accounts & H1 & _ & _ & _ & H5 & _ & _ & _ & _ & _ & _ & _ & Hrun).
  exists accounts. eexists.
  split; [exact H1|]. split; [exact H5|]. split; [|exact Hrun]. reflexivity.
Defined.

Lemma transfer_outcome_witness :
  exists accounts sent,
    tr_newRecipient accounts = "carol"
    /\ tr_newRecipientTokens accounts = Samples.ata Samples.usdc "carol"
    /\ instructions sent
       = [transferStreamInstruction Samples.programId accounts]
    /\ ActionSamples.transfer "Stream1" "carol" (Solana.Keypair "bob")
         ActionSamples.fresh
       = (Returned
            {| ixs := [transferStreamInstruction Samples.programId accounts];
               tx := "sig:1" |},
          extend ActionSamples.fresh
            [EvGetAccountInfo "Stream1"; EvSend sent; EvSettled sent true]).
Proof.
  destruct (transfer_outcome Samples.programId Samples.ata
              Samples.latestBlockhash ActionSamples.confirm
              ActionSamples.accountData ActionSamples.decode
              "Stream1" "carol" (Solana.Keypair "bob") "bob" [Byte.x07]
              ActionSamples.stream ActionSamples.fresh
              eq_refl eq_refl eq_refl ltac:(discriminate))
    as (accounts & _ & H2 & H3 & _ & _ & Hrun).
  exists accounts. eexists.
  split; [exact H2|]. split; [exact H3|]. split; [|exact Hrun]. reflexivity.
Defined.

Lemma topup_outcome_witness :
  exists accounts sent,
    instructions sent
    = [wrapping (Solana.wrapInstruction "alice" 500);
       topupStreamInstruction 500 Samples.programId accounts]
    /\ ActionSamples.topup "Stream1" 500 (Solana.Keypair "alice") true
         ActionSamples.fresh
       = (Returned
            {| ixs := [topupStreamInstruction 500 Samples.programId accounts];
               tx := "sig:1" |},
          extend ActionSamples.fresh
            [EvGetAccountInfo "Stream1"; EvSend sent; EvSettled sent true]).
Proof.
  destruct (topup_outcome Samples.programId Samples.treasury
              Samples.withdrawor Samples.ata
              Samples.latestBlockhash ActionSamples.confirm
              ActionSamples.accountData ActionSamples.decode
              "Stream1" 500 true (Solana.Keypair "alice") "alice" [Byte.x07]
              ActionSamples.stream ActionSamples.fresh
              eq_refl eq_refl eq_refl ltac:(discriminate))
    as (accounts & _ & _ & _ & _ & _ & _ & _ & _ & _ & _ & Hrun).
  exists accounts. eexists. split; [|exact Hrun]. reflexivity.
Defined.

End ActionFacts.

(* ------------------------------------------------------------------ *)
(** ** Reading the texts of a ledger *)

Module LedgerTextFacts.

Import JsNumber JsString LedgerText DecimalString.
Local Open Scope string_scope.

Lemma hex_pair c :
  match digit_value 16 (hex_digit (nat_of_ascii c / 16)),
        digit_value 16 (hex_digit (nat_of_ascii c mod 16)) with
  | Some h, Some l => ascii_of_nat (Z.to_nat (h * 16 + l)) = c
  | _, _ => False
  end.
Proof.
  destruct c as [[|] [|] [|] [|] [|] [|] [|] [|]]; vm_compute; reflexivity.
Qed.

Lemma hex_decode_encode s : hex_decode (hex_encode s) = s.
Proof.
  induction s as [|c rest IH]; [reflexivity|].
  cbn [hex_encode hex_decode].
  pose proof (hex_pair c) as H.
  destruct (digit_value 16 (hex_digit (nat_of_ascii c / 16))) as [h|];
    [|contradiction].
  destruct (digit_value 16 (hex_digit (nat_of_ascii c mod 16))) as [l|];
    [|contradiction].
  now rewrite H, IH.
Qed.

Lemma hex_digit_not_x n : hex_digit n <> "x"%char.
Proof.
  unfold hex_digit.
  do 16 (destruct n as [|n]; [discriminate|]). destruct n; discriminate.
Qed.

Lemma remove_first_0x_hex s : remove_first_0x (hex_encode s) = hex_encode s.
Proof.
  induction s as [|c rest IH]; [reflexivity|].
  cbn [hex_encode].
  set (a := hex_digit (nat_of_ascii c / 16)).
  set (b := hex_digit (nat_of_ascii c mod 16)).
  assert (Hb : b <> "x"%char) by apply hex_digit_not_x.
  assert (Ha : a <> "x"%char) by apply hex_digit_not_x.
  assert (Step1 : remove_first_0x (String a (String b (hex_encode rest)))
                  = String a (remove_first_0x (String b (hex_encode rest)))).
  { cbn [remove_first_0x].
    destruct a as [[|] [|] [|] [|] [|] [|] [|] [|]]; try reflexivity.
    destruct b as [[|] [|] [|] [|] [|] [|] [|] [|]]; try reflexivity.
    now elim Hb. }
  rewrite Step1. f_equal.
  assert (Step2 : remove_first_0x (String b (hex_encode rest))
                  = String b (remove_first_0x (hex_encode rest))).
  { destruct rest as [|c' rest'];
      [destruct b as [[|] [|] [|] [|] [|] [|] [|] [|]]; reflexivity|].
    cbn [hex_encode remove_first_0x].
    destruct b as [[|] [|] [|] [|] [|] [|] [|] [|]]; try reflexivity.
    pose proof (hex_digit_not_x (nat_of_ascii c' / 16)) as Hc.
    destruct (hex_digit (nat_of_ascii c' / 16))
      as [[|] [|] [|] [|] [|] [|] [|] [|]]; try reflexivity.
    now elim Hc. }
  now rewrite Step2, IH.
Qed.

Lemma all_digits_acc u :
  forall acc : positive,
    all_digits (NilEmpty.string_of_uint u) (Zpos acc) = Some (Zpos (Pos.of_uint_acc u acc)).
Proof.
  induction u as [|u IH|u IH|u IH|u IH|u IH|u IH|u IH|u IH|u IH|u IH];
    intros acc; cbn [NilEmpty.string_of_uint all_digits
                     Pos.of_uint_acc]; [reflexivity|..];
    match goal with
    | |- context [digit_value 10 ?c] =>
        change (digit_value 10 c)
          with (Some (Z.of_nat (nat_of_ascii c) - 48)%Z)
    end; cbn [nat_of_ascii]; rewrite <- IH; f_equal; vm_compute Z.of_nat;
    lia.
Qed.

Lemma all_digits_uint u :
  all_digits (NilEmpty.string_of_uint u) 0 = Some (Z.of_N (Pos.of_uint u)).
Proof.
  induction u as [|u IH|u IH|u IH|u IH|u IH|u IH|u IH|u IH|u IH|u IH];
    cbn [NilEmpty.string_of_uint Pos.of_uint]; [reflexivity|exact IH|..];
    cbn [all_digits];
    match goal with
    | |- context [digit_value 10 ?c] =>
        change (digit_value 10 c)
          with (Some (Z.of_nat (nat_of_ascii c) - 48)%Z)
    end; cbv beta iota;
    match goal with
    | |- all_digits _ ?a = _ =>
        let v := eval vm_compute in a in change a with v
    end;
    apply all_digits_acc.
Qed.

Lemma leading_all s :
  forall a r, all_digits s a = Some r -> leading_digits 10 s (Some a) = Some r.
Proof.
  induction s as [|c rest IH]; intros a r; cbn.
  - trivial.
  - destruct (digit_value 10 c) as [v|]; [apply IH|discriminate].
Qed.

Lemma leading_digits_numeral s r :
  s <> EmptyString -> all_digits s 0 = Some r ->
  leading_digits 10 s None = Some r.
Proof.
  destruct s as [|c rest]; [congruence|]. intros _. cbn.
  destruct (digit_value 10 c) as [v|]; [|discriminate].
  apply leading_all.
Qed.

Lemma remove_spaces_uint u :
  remove_spaces (NilEmpty.string_of_uint u) = NilEmpty.string_of_uint u.
Proof.
  induction u; cbn [NilEmpty.string_of_uint remove_spaces]; [reflexivity|..];
    match goal with
    | |- context [is_space ?c] => change (is_space c) with false
    end; cbv iota; now f_equal.
Qed.

Lemma decimal_digits n :
  exists u,
    decimal n = NilEmpty.string_of_uint u
    /\ u <> Decimal.Nil
    /\ Pos.of_uint u = n.
Proof.
  exists (N.to_uint n).
  assert (Hnil : N.to_uint n <> Decimal.Nil).
  { destruct n as [|p]; [discriminate|].
    cbn. apply DecimalPos.Unsigned.to_uint_nonnil. }
  split; [|split; [exact Hnil|apply DecimalN.Unsigned.of_to]].
  unfold decimal. now destruct (N.to_uint n).
Qed.

(** [new BN(s)] reads a decimal numeral exactly, whatever its size. *)
Lemma BN_of_decimal n : BN_of_string (decimal n) = Some (Z.of_N n).
Proof.
  destruct (decimal_digits n) as (u & -> & Hnil & <-).
  unfold BN_of_string. rewrite remove_spaces_uint.
  pose proof (all_digits_uint u) as Hall.
  destruct u; [now elim Hnil|..]; exact Hall.
Qed.

(** [parseInt(s)] reads a decimal numeral as the double nearest to
    it. *)
Lemma parseInt_decimal n : parseInt (decimal n) = fl (inject_Z (Z.of_N n)).
Proof.
  destruct (decimal_digits n) as (u & -> & Hnil & <-).
  pose proof (all_digits_uint u) as Hall.
  assert (Hlead : leading_digits 10 (NilEmpty.string_of_uint u) None
                  = Some (Z.of_N (Pos.of_uint u))).
  { apply leading_digits_numeral; [|exact Hall]. now destruct u. }
  unfold parseInt.
  destruct u as [|u|u|u|u|u|u|u|u|u|u]; [now elim Hnil|..];
    cbn [NilEmpty.string_of_uint skip_spaces] in *;
    match goal with
    | |- context [is_space ?c] => change (is_space c) with false
    end; cbv iota;
    try (rewrite Hlead; reflexivity).
  destruct u; cbn [NilEmpty.string_of_uint] in *; rewrite Hlead; reflexivity.
Qed.

End LedgerTextFacts.

(* ------------------------------------------------------------------ *)
(** ** The Aptos contract: name and numbers *)

Module AptosContractFacts.

Import JsNumber JsString LedgerText ExactNumberFacts DecimalExactFacts
  LedgerTextFacts.
Local Open Scope string_scope.

Lemma integer_of_num z : integer_of (num (inject_Z z)) = Some z.
Proof.
  unfold num. rewrite Qred_inject_Z. cbn [integer_of].
  rewrite Qfloor_Z.
  assert (E : Qeq_bool (inject_Z z) (inject_Z z) = true)
    by (apply Qeq_bool_iff; reflexivity).
  now rewrite E.
Qed.

(** A decimal numeral below [2^53] is read by [parseInt] as the number
    it writes. *)
Lemma parseInt_Z_decimal n :
  (n < 2 ^ 53)%N -> Aptos.parseInt_Z (decimal n) = Some (Z.of_N n).
Proof.
  intros Hn. unfold Aptos.parseInt_Z.
  rewrite parseInt_decimal, fl_integer by lia.
  apply integer_of_num.
Qed.

Ltac read_options :=
  repeat match goal with
         | H : Aptos.obind ?o _ = Some _ |- _ =>
             let E := fresh "E" in
             destruct o eqn:E; [cbn [Aptos.obind] in H | discriminate H]
         end.

(** X20.  The name of an Aptos contract.  When the resource holds an
    ASCII name as the hex text of its bytes, with or without a leading
    [0x], the constructed contract has that name. *)
Theorem new_Contract_name stream tokenId c text :
  Aptos.new_Contract stream tokenId = Some c ->
  Forall (fun ch => (nat_of_ascii ch < 128)%nat) (list_ascii_of_string text) ->
  Aptos.contract_name (Aptos.meta stream) = "0x" ++ hex_encode text
  \/ Aptos.contract_name (Aptos.meta stream) = hex_encode text ->
  Aptos.name c = text.
Proof.
  intros H _ Hname. unfold Aptos.new_Contract in H.
  read_options. injection H as <-. cbn [Aptos.name].
  destruct Hname as [-> | ->].
  - cbn [append remove_first_0x]. apply hex_decode_encode.
  - rewrite remove_first_0x_hex. apply hex_decode_encode.
Qed.

Lemma new_Contract_name_witness :
  exists c,
    Aptos.new_Contract Samples.aptos_resource "0x1::aptos_coin::AptosCoin"
    = Some c
    /\ Aptos.name c = "team".
Proof.
  destruct (Aptos.new_Contract Samples.aptos_resource
              "0x1::aptos_coin::AptosCoin") as [c|] eqn:E;
    [|vm_compute in E; discriminate E].
  exists c. split; [reflexivity|].
  apply (new_Contract_name _ _ c "team" E).
  - repeat constructor.
  - left. reflexivity.
Defined.

(** X21.  The numbers of an Aptos contract.  When the amounts of a
    resource are decimal numerals, of any size, and its times and
    counts are decimal numerals below [2^53], the constructor returns,
    and the contract holds the numbers the numerals write: the five
    amounts exactly, whatever their size, and the ten times and counts;
    [start] and [cliff] both hold the number of the resource's
    [start]. *)
Theorem new_Contract_numerals stream tokenId :
  let amounts :=
    [Aptos.amount stream; Aptos.withdrawn stream;
     Aptos.amount_per_period stream; Aptos.cliff_amount stream;
     Aptos.funds_unlocked_at_last_rate_change stream] in
  let times :=
    [Aptos.created stream; Aptos.canceled_at stream; Aptos.res_end stream;
     Aptos.last_withdrawn_at stream; Aptos.res_start stream;
     Aptos.res_start stream; Aptos.res_period stream;
     Aptos.withdrawal_frequency (Aptos.meta stream);
     Aptos.current_pause_start stream; Aptos.pause_cumulative stream;
     Aptos.last_rate_change_time stream] in
  Forall (fun s => exists n, s = decimal n) amounts ->
  Forall (fun s => exists n, (n < 2 ^ 53)%N /\ s = decimal n) times ->
  exists c,
    Aptos.new_Contract stream tokenId = Some c
    /\ Forall2 (fun s v => exists n, s = decimal n /\ v = Z.of_N n)
         amounts
         [Aptos.depositedAmount c; Aptos.withdrawnAmount c;
          Aptos.amountPerPeriod c; Aptos.cliffAmount c;
          Aptos.fundsUnlockedAtLastRateChange c]
    /\ Forall2 (fun s v => exists n, s = decimal n /\ v = Z.of_N n)
         times
         [Aptos.createdAt c; Aptos.canceledAt c; Aptos.end_ c;
          Aptos.lastWithdrawnAt c; Aptos.start c; Aptos.cliff c;
          Aptos.period c; Aptos.withdrawalFrequency c;
          Aptos.currentPauseStart c; Aptos.pauseCumulative c;
          Aptos.lastRateChangeTime c].
Proof.
  intros amounts times Ha Ht. unfold amounts, times in *.
  repeat match goal with
         | H : Forall _ (_ :: _) |- _ => inversion H; subst; clear H
         | H : Forall _ [] |- _ => clear H
         end.
  repeat match goal with
         | H : exists n, _ /\ _ = decimal n |- _ =>
             let n := fresh "t" in
             let Hb := fresh "Hb" in
             let He := fresh "He" in
             destruct H as (n & Hb & He)
         | H : exists n, _ = decimal n |- _ =>
             let n := fresh "a" in
             let He := fresh "He" in
             destruct H as (n & He)
         end.
  unfold Aptos.new_Contract.
  repeat match goal with
         | H : ?s = decimal _ |- _ => rewrite H; clear H
         end.
  rewrite !BN_of_decimal.
  repeat match goal with
         | H : (?n < 2 ^ 53)%N |- _ =>
             rewrite (parseInt_Z_decimal n H); clear H
         end.
  cbn [Aptos.obind].
  eexists. split; [reflexivity|].
  cbn [Aptos.depositedAmount Aptos.withdrawnAmount Aptos.amountPerPeriod
       Aptos.cliffAmount Aptos.fundsUnlockedAtLastRateChange
       Aptos.createdAt Aptos.canceledAt Aptos.end_ Aptos.lastWithdrawnAt
       Aptos.start Aptos.cliff Aptos.period Aptos.withdrawalFrequency
       Aptos.currentPauseStart Aptos.pauseCumulative
       Aptos.lastRateChangeTime].
  split; repeat constructor; eexists; split; reflexivity.
Qed.

Lemma new_Contract_numerals_witness :
  exists c,
    Aptos.new_Contract Samples.aptos_resource "0x1::aptos_coin::AptosCoin"
    = Some c
    /\ exists n,
        Aptos.amount Samples.aptos_resource = decimal n
        /\ Aptos.depositedAmount c = Z.of_N n.
Proof.
  destruct (new_Contract_numerals Samples.aptos_resource
              "0x1::aptos_coin::AptosCoin") as (c & Hc & Ha & _).
  - repeat constructor;
      match goal with
      | |- exists n, ?s = decimal n =>
          exists (Z.to_N (match BN_of_string s with
                          | Some z => z
                          | None => 0%Z
                          end));
          vm_compute; reflexivity
      end.
  - repeat constructor;
      match goal with
      | |- exists n, _ /\ ?s = decimal n =>
          exists (Z.to_N (match BN_of_string s with
                          | Some z => z
                          | None => 0%Z
                          end));
          split; vm_compute; reflexivity
      end.
  - exists c. split; [exact Hc|].
    inversion Ha as [|? ? ? ? H _]; subst. exact H.
Defined.

End AptosContractFacts.

Module ConstructorFacts.

Local Open Scope Z_scope.
Local Open Scope string_scope.

Ltac read_completions :=
  repeat match goal with
         | H : bind ?o _ = Returned _ |- _ =>
             let E := fresh "E" in
             destruct o eqn:E; [cbn [bind] in H | discriminate H]
         end.

Lemma toNumber_returns x :
  (exists n, Evm.toNumber x = Returned n) <-> Z.abs x <= 2 ^ 53 - 1.
Proof.
  unfold Evm.toNumber.
  destruct (Z.leb_spec (Z.abs x) (2 ^ 53 - 1)) as [H|H]; split.
  - intros _. exact H.
  - intros _. now exists x.
  - intros [n Hn]. discriminate Hn.
  - lia.
Qed.

Lemma toNumber_safe x : Z.abs x <= 2 ^ 53 - 1 -> Evm.toNumber x = Returned x.
Proof.
  intros H. unfold Evm.toNumber.
  destruct (Z.leb_spec (Z.abs x) (2 ^ 53 - 1)); [reflexivity|lia].
Qed.

Lemma toNumber_value x n : Evm.toNumber x = Returned n -> n = x.
Proof.
  unfold Evm.toNumber. destruct (Z.abs x <=? 2 ^ 53 - 1)%Z; congruence.
Qed.

(** X22.  When the constructor of [EvmContract] returns.  It returns
    exactly when the ten times and counts of the ABI result (the fee
    percentage included) are safe integers, and then they are the
    contract's; the amounts do not matter: they are taken as they are,
    whatever their size. *)
Theorem new_EvmContract_returns buildStreamType stream :
  let times :=
    [Evm.created stream; Evm.canceled_at stream; Evm.abi_end stream;
     Evm.last_withdrawn_at stream;
     Evm.streamflow_fee_percentage (Evm.fees stream);
     Evm.abi_start stream; Evm.abi_period stream;
     Evm.withdrawal_frequency (Evm.meta stream);
     Evm.current_pause_start stream; Evm.last_rate_change_time stream] in
  ((exists c, Evm.new_EvmContract buildStreamType stream = Returned c)
   <-> Forall (fun x => Z.abs x <= 2 ^ 53 - 1) times)
  /\ forall c,
      Evm.new_EvmContract buildStreamType stream = Returned c ->
      [Evm.createdAt c; Evm.canceledAt c; Evm.end_ c; Evm.lastWithdrawnAt c;
       Evm.start c; Evm.period c; Evm.withdrawalFrequency c;
       Evm.currentPauseStart c; Evm.lastRateChangeTime c]
      = [Evm.created stream; Evm.canceled_at stream; Evm.abi_end stream;
         Evm.last_withdrawn_at stream; Evm.abi_start stream;
         Evm.abi_period stream; Evm.withdrawal_frequency (Evm.meta stream);
         Evm.current_pause_start stream; Evm.last_rate_change_time stream]
      /\ [Evm.depositedAmount c; Evm.withdrawnAmount c; Evm.amountPerPeriod c;
          Evm.cliffAmount c; Evm.pauseCumulative c;
          Evm.fundsUnlockedAtLastRateChange c]
         = [Evm.amount stream; Evm.withdrawn stream;
            Evm.amount_per_period stream; Evm.cliff_amount stream;
            Evm.pause_cumulative stream;
            Evm.funds_unlocked_at_last_rate_change stream].
Proof.
  cbv zeta. split; [split|].
  - intros [c H]. unfold Evm.new_EvmContract in H. read_completions.
    repeat constructor;
      match goal with
      | |- Z.abs ?x <= _ =>
          apply (proj1 (toNumber_returns x)); eexists; eassumption
      end.
  - intros H.
    repeat match goal with
           | H : Forall _ (_ :: _) |- _ => inversion H; subst; clear H
           | H : Forall _ [] |- _ => clear H
           end.
    unfold Evm.new_EvmContract.
    repeat match goal with
           | H : Z.abs ?x <= _ |- _ =>
               rewrite (toNumber_safe x H) in *; clear H
           end.
    cbn [bind]. now eexists.
  - intros c H. unfold Evm.new_EvmContract in H. read_completions.
    injection H as <-.
    repeat match goal with
           | E : Evm.toNumber _ = Returned _ |- _ =>
               apply toNumber_value in E; subst
           end.
    cbn. split; reflexivity.
Qed.

End ConstructorFacts.
